(** * pymagnet: the magnet-link downloaders, embedded and verified

    The development embeds the two programs of the repository,
    [downloader.py] (class [TorrentDownloader] and its script) and
    [cli_downloader.py] (the formatting helpers, [download_torrent] and
    [main]), and proves the properties C1 to C10 of their specification.

    Numbers.  Python ints and floats are read as rationals ([Q]), on which
    [//], [%], [int] and the [.2f] format are exact.  This is what Python
    computes on ints and on floats of ordinary size (byte counts below 2^53).

    The world.  libtorrent, the clock, the terminal and the user are outside
    the programs.  A run is determined by an environment ([Env]): the magnet
    parser, the engine's answer to the n-th query (a status or a fault), the
    real duration of the n-th sleep, the file system and the torrent's
    metadata.  The state ([World]) holds the clock, the number of queries
    answered and of sleeps done, the session's torrents, the steps left until
    Ctrl-C arrives (if it does) and the log of every operation performed, most
    recent first.  Callbacks are recorded at their invocation; they are
    assumed to return without touching the engine.

    Control.  Code is written in a state-and-exception monad [M]; the two
    [while] loops take fuel.  [KeyboardInterrupt] is delivered at a recorded
    operation, in place of it. *)

From Stdlib Require Import ZArith QArith Qround Qabs String Ascii List Lia Lqa Bool.
From Stdlib Require Import DecimalString.
Import ListNotations.
Open Scope string_scope.
Open Scope Z_scope.

(** * Python numbers and string formatting *)

(** [str(n)] and [f"{n}"] of an int. *)
Definition str_int (z : Z) : string := NilZero.string_of_int (Z.to_int z).

(** [int(x)]: truncation towards zero. *)
Definition py_int (q : Q) : Z := Z.quot (Qnum q) (Zpos (Qden q)).

(** [a // b] and [a % b]; the remainder has the sign of the divisor. *)
Definition py_floordiv (a b : Q) : Q := inject_Z (Qfloor (a / b)).

Definition py_mod (a b : Q) : Q := (a - b * inject_Z (Qfloor (a / b)))%Q.

(** [a < b] as a test. *)
Definition Qltb (a b : Q) : bool :=
  match (a ?= b)%Q with Lt => true | _ => false end.

(** The nearest integer, a tie going to the even one: the rounding of the
    [.2f] format. *)
Definition round_half_even (q : Q) : Z :=
  let f := Qfloor q in
  match ((q - inject_Z f) ?= (1 # 2))%Q with
  | Lt => f
  | Gt => f + 1
  | Eq => if Z.even f then f else f + 1
  end.

(** [f"{x:.2f}"]: sign, integer part, point, two digits. *)
Definition two_digits (d : Z) : string :=
  (if d <? 10 then "0" else "") ++ str_int d.

Definition fmt2 (q : Q) : string :=
  let n := round_half_even (Qabs q * 100) in
  (if Qltb q 0 then "-" else "") ++ str_int (n / 100) ++ "." ++ two_digits (n mod 100).

(** cli_downloader.py, lines 17-23: the [for] loop of [format_bytes] over the
    units still to try, and the fall-through to PB.  The divisions are those of
    rationals, as Python's are on a float and on an int below 2^53; a larger
    int is first rounded to a float by [bytes_val /= 1024.0], which is not
    modelled: statements on such values are made under [exact_as_float]. *)
Fixpoint format_bytes_from (units : list string) (bytes_val : Q) : string :=
  match units with
  | [] => fmt2 bytes_val ++ " PB"
  | unit :: rest =>
      if Qltb bytes_val 1024 then fmt2 bytes_val ++ " " ++ unit
      else format_bytes_from rest (bytes_val / 1024)%Q
  end.

Definition format_bytes (bytes_val : Q) : string :=
  format_bytes_from ["B"; "KB"; "MB"; "GB"; "TB"] bytes_val.

(** cli_downloader.py, lines 26-40.  The arithmetic is that of rationals, as
    Python's is on an int and on a float that is not negative; the remainder
    of a negative float by 3600 or 60 is rounded by Python (that of -1e-20 by
    60 is 60.0), which is not modelled: statements on negative durations are
    made on whole numbers of seconds. *)
Definition format_time (seconds : Q) : string :=
  if Qeq_bool seconds 0 then "N/A"
  else
    let hours := py_int (py_floordiv seconds 3600) in
    let minutes := py_int (py_floordiv (py_mod seconds 3600) 60) in
    let secs := py_int (py_mod seconds 60) in
    if 0 <? hours then
      str_int hours ++ "h " ++ str_int minutes ++ "m " ++ str_int secs ++ "s"
    else if 0 <? minutes then
      str_int minutes ++ "m " ++ str_int secs ++ "s"
    else
      str_int secs ++ "s".

(** * The transfer engine as seen through the libtorrent binding *)

(** What [handle.status()] answers, reduced to the fields the programs read;
    [handle.is_seed()] answers [is_seeding]. *)
Record torrent_status := mk_status {
  has_metadata : bool;
  is_seeding : bool;
  progress : Q;
  download_rate : Z;
  upload_rate : Z;
  num_peers : Z;
  num_seeds : Z;
  total_done : Z;
  total_wanted : Z;
  state : string
}.

(** [torrent_info.file_at(i)] and [handle.get_torrent_info()]. *)
Record file_entry := mk_file { path : string; size : Z }.

Record torrent_info := mk_info {
  name : string;
  files : list file_entry;
  total_size : Z
}.

Definition num_files (ti : torrent_info) : nat := length (files ti).

Definition file_at (ti : torrent_info) (i : nat) : file_entry :=
  nth i (files ti) (mk_file "" 0).

(** What [lt.parse_magnet_uri] returns; the programs set [save_path]. *)
Record add_torrent_params := mk_params { info_hash : string; save_path : string }.

Definition with_save_path (p : add_torrent_params) (dir : string) : add_torrent_params :=
  mk_params (info_hash p) dir.

Definition handle := nat.

(** A value of the settings dict. *)
Inductive setting := SInt (z : Z) | SBool (b : bool).

(** The engine answers a query with a status or raises. *)
Inductive reply := Reply (s : torrent_status) | Fault.

(** The exceptions in play: [TimeoutError] of the metadata wait, Ctrl-C, the
    error of [lt.parse_magnet_uri], an engine error and [sys.exit]. *)
Inductive exn :=
| TimeoutError
| KeyboardInterrupt
| MagnetError
| EngineError
| SystemExit (code : Z).

(** [except Exception] catches neither [KeyboardInterrupt] nor [SystemExit]. *)
Definition is_Exception (e : exn) : bool :=
  match e with
  | KeyboardInterrupt | SystemExit _ => false
  | _ => true
  end.

(** The dicts passed to [on_metadata] and [on_progress], and those returned by
    [download] and [get_info]. *)
Record metadata := mk_metadata {
  md_name : string;
  md_num_files : nat;
  md_total_size : Z;
  md_info_hash : string
}.

Record progress_info := mk_progress {
  pi_progress : Q;
  pi_download_rate : Z;
  pi_upload_rate : Z;
  pi_num_peers : Z;
  pi_num_seeds : Z;
  pi_total_done : Z;
  pi_total_wanted : Z;
  pi_state : string
}.

Record download_result := mk_result {
  r_name : string;
  r_files : list file_entry;
  r_download_path : string
}.

Record torrent_summary := mk_summary {
  s_name : string;
  s_files : list file_entry;
  s_total_size : Z;
  s_info_hash : string
}.

(** The lines printed, by role. *)
Inductive message :=
| MsgFetching
| MsgConnecting
| MsgPeers (n : Z)
| MsgStarting (torrent : string)
| MsgBanner
| MsgLocation (dir : string)
| MsgParseError (e : exn)
| MsgTimeout
| MsgDeadHint
| MsgFound (torrent : string)
| MsgFiles (n : nat)
| MsgSize (s : string)
| MsgComplete
| MsgSavedTo (dir : string)
| MsgListing
| MsgFile (file : string) (s : string)
| MsgBlank
| MsgCancelled
| MsgError (e : exn)
| MsgMissingArgument
| MsgUsage
| MsgExample.

(** Every operation on the world is recorded: session set-up, engine queries
    with the clock reading and the answer, sleeps, prints, callbacks, progress
    bar, pauses, and the delivery of Ctrl-C. *)
Inductive event :=
| EvSession
| EvListenOn (lo hi : Z)
| EvApplySettings (settings : list (string * setting))
| EvDhtRouter (host : string) (port : Z)
| EvStartDht
| EvStartLsd
| EvStartUpnp
| EvStartNatpmp
| EvMakedirs (dir : string)
| EvAddTorrent (h : handle) (p : add_torrent_params)
| EvRemoveTorrent (h : handle)
| EvStatus (h : handle) (at_time : Q) (s : torrent_status)
| EvIsSeed (h : handle) (at_time : Q) (b : bool)
| EvEngineFault
| EvSleep (secs : Q)
| EvPrint (m : message)
| EvOnMetadata (md : metadata)
| EvOnProgress (p : progress_info)
| EvPbarCreate
| EvPbarUpdate (delta : Q)
| EvPbarPostfix (down up : string) (peers seeds : Z)
| EvPbarClose
| EvPauseTorrent (h : handle)
| EvPauseSession
| EvSigint.

(** What a run depends on outside the program. *)
Record Env := mk_env {
  parse_magnet_uri : string -> option add_torrent_params;
  engine : nat -> reply;
  lap : nat -> Q;
  path_exists : string -> bool;
  abspath : string -> string;
  the_info : torrent_info
}.

(** The state a run threads. [sigint = Some n]: Ctrl-C arrives at the
    operation after the next [n]. [torrents] are the handles of the session, in
    the order of [get_torrents]; [info_hashes] tells the info-hash of the
    torrent behind each handle the session has handed out. *)
Record World := mk_world {
  clock : Q;
  queries : nat;
  sleeps : nat;
  sigint : option nat;
  torrents : list handle;
  next_handle : handle;
  log : list event;
  info_hashes : list (handle * string)
}.

(** A fresh process started at time [t0]. *)
Definition initial_world (t0 : Q) (sig : option nat) : World :=
  mk_world t0 0 0 sig [] 0%nat [] [].

(** World updates. *)
Definition record (ev : event) (w : World) : World :=
  mk_world (clock w) (queries w) (sleeps w) (sigint w) (torrents w) (next_handle w)
           (ev :: log w) (info_hashes w).

Definition set_sigint (s : option nat) (w : World) : World :=
  mk_world (clock w) (queries w) (sleeps w) s (torrents w) (next_handle w) (log w)
           (info_hashes w).

Definition answered (w : World) : World :=
  mk_world (clock w) (S (queries w)) (sleeps w) (sigint w) (torrents w) (next_handle w)
           (log w) (info_hashes w).

Definition slept (d : Q) (w : World) : World :=
  mk_world (clock w + d)%Q (queries w) (S (sleeps w)) (sigint w) (torrents w)
           (next_handle w) (log w) (info_hashes w).

Definition set_torrents (ts : list handle) (nh : handle) (w : World) : World :=
  mk_world (clock w) (queries w) (sleeps w) (sigint w) ts nh (log w) (info_hashes w).

Definition set_info_hash (h : handle) (ih : string) (w : World) : World :=
  mk_world (clock w) (queries w) (sleeps w) (sigint w) (torrents w) (next_handle w)
           (log w) ((h, ih) :: info_hashes w).

(** [handle.info_hash()], and the torrent of the session that has a given
    info-hash, if there is one. *)
Definition hash_of (w : World) (h : handle) : option string :=
  option_map snd (find (fun entry => Nat.eqb (fst entry) h) (info_hashes w)).

Definition find_torrent (ih : string) (w : World) : option handle :=
  find (fun h => match hash_of w h with
                 | Some s => String.eqb s ih
                 | None => false
                 end)
       (torrents w).

(** * Control: results, exceptions, fuel *)

(** A block returns a value, raises, or is cut short by lack of fuel. *)
Inductive res (A : Type) :=
| Val (a : A)
| Raise (e : exn)
| OutOfFuel.
Arguments Val {A} a.
Arguments Raise {A} e.
Arguments OutOfFuel {A}.

Definition M (A : Type) : Type := World -> res A * World.

Definition ret {A} (a : A) : M A := fun w => (Val a, w).

Definition raise {A} (e : exn) : M A := fun w => (Raise e, w).

Definition out_of_fuel {A} : M A := fun w => (OutOfFuel, w).

Definition bind {A B} (m : M A) (k : A -> M B) : M B :=
  fun w =>
    match m w with
    | (Val a, w') => k a w'
    | (Raise e, w') => (Raise e, w')
    | (OutOfFuel, w') => (OutOfFuel, w')
    end.

Notation "x <- m ;; k" := (bind m (fun x => k))
  (at level 61, m at next level, right associativity).
Notation "m ;; k" := (bind m (fun _ => k))
  (at level 61, right associativity).

(** [try: body / except ...]: [handler e] is the clause that catches [e], if
    one does. *)
Definition try_except {A} (body : M A) (handler : exn -> option (M A)) : M A :=
  fun w =>
    match body w with
    | (Raise e, w') =>
        match handler e with
        | Some h => h w'
        | None => (Raise e, w')
        end
    | other => other
    end.

(** [try: body / finally: final]. *)
Definition try_finally {A} (body : M A) (final : M unit) : M A :=
  fun w =>
    match body w with
    | (OutOfFuel, w') => (OutOfFuel, w')
    | (r, w') =>
        match final w' with
        | (Val _, w'') => (r, w'')
        | (Raise e, w'') => (Raise e, w'')
        | (OutOfFuel, w'') => (OutOfFuel, w'')
        end
    end.

(** [for x in xs: body]. *)
Fixpoint for_each {A} (xs : list A) (body : A -> M unit) : M unit :=
  match xs with
  | [] => ret tt
  | x :: rest => body x ;; for_each rest body
  end.

(** An operation on the world, where a pending Ctrl-C may strike instead. *)
Definition effect {A} (act : World -> res A * World) : M A :=
  fun w =>
    match sigint w with
    | Some O => (Raise KeyboardInterrupt, record EvSigint (set_sigint None w))
    | Some (S n) => act (set_sigint (Some n) w)
    | None => act w
    end.

Definition emit (ev : event) : M unit :=
  effect (fun w => (Val tt, record ev w)).

Definition print (m : message) : M unit := emit (EvPrint m).

(** How a script ends: an exit code, a traceback, or not within the fuel. *)
Inductive termination :=
| Exited (code : Z)
| Uncaught (e : exn)
| NoTermination.

Definition run_script (m : M unit) (w : World) : termination * World :=
  match m w with
  | (Val _, w') => (Exited 0, w')
  | (Raise (SystemExit c), w') => (Exited c, w')
  | (Raise e, w') => (Uncaught e, w')
  | (OutOfFuel, w') => (NoTermination, w')
  end.

Definition sys_exit {A} (code : Z) : M A := raise (SystemExit code).

(** downloader.py, lines 28-72, and cli_downloader.py, lines 63-98. *)
Definition downloader_settings : list (string * setting) :=
  [ ("connections_limit", SInt 200);
    ("connection_speed", SInt 50);
    ("max_out_request_queue", SInt 500);
    ("max_allowed_in_request_queue", SInt 500);
    ("enable_dht", SBool true);
    ("enable_lsd", SBool true);
    ("enable_upnp", SBool true);
    ("enable_natpmp", SBool true);
    ("peer_tos", SInt 0);
    ("download_rate_limit", SInt 0);
    ("upload_rate_limit", SInt 0);
    ("max_peerlist_size", SInt 4000);
    ("max_paused_peerlist_size", SInt 4000);
    ("strict_end_game_mode", SBool true);
    ("announce_to_all_trackers", SBool true);
    ("announce_to_all_tiers", SBool true);
    ("seed_time_limit", SInt 0);
    ("seed_time_ratio_limit", SInt 0);
    ("handshake_timeout", SInt 10);
    ("mixed_mode_algorithm", SInt 0);
    ("send_buffer_watermark", SInt (500 * 1024));
    ("cache_size", SInt (256 * 16));
    ("active_downloads", SInt 8);
    ("active_limit", SInt 15) ].

Definition cli_settings : list (string * setting) :=
  [ ("connections_limit", SInt 200);
    ("connection_speed", SInt 50);
    ("max_out_request_queue", SInt 500);
    ("max_allowed_in_request_queue", SInt 500);
    ("enable_dht", SBool true);
    ("enable_lsd", SBool true);
    ("enable_upnp", SBool true);
    ("enable_natpmp", SBool true);
    ("download_rate_limit", SInt 0);
    ("upload_rate_limit", SInt 0);
    ("max_peerlist_size", SInt 4000);
    ("max_paused_peerlist_size", SInt 4000);
    ("announce_to_all_trackers", SBool true);
    ("announce_to_all_tiers", SBool true);
    ("strict_end_game_mode", SBool true);
    ("send_buffer_watermark", SInt (500 * 1024));
    ("cache_size", SInt (256 * 16));
    ("active_downloads", SInt 8);
    ("active_limit", SInt 15) ].

(** The default of [download_path]. *)
Definition default_download_path : string := "./downloads".

(** [sys.argv[2] if len(sys.argv) > 2 else './downloads'], on the arguments
    that follow the magnet link. *)
Definition path_argument (rest : list string) : string :=
  match rest with
  | p :: _ => p
  | [] => default_download_path
  end.

Section Programs.

Variable env : Env.

(** ** Engine and clock primitives *)

(** [time.time()] reads the clock; [time.sleep(1)] lasts as long as the
    environment says. *)
Definition time_time : M Q := fun w => (Val (clock w), w).

Definition time_sleep (secs : Q) : M unit :=
  effect (fun w => (Val tt, record (EvSleep secs) (slept (lap env (sleeps w)) w))).

(** [handle.status()] and [handle.is_seed()] consume the next answer of the
    engine. *)
Definition handle_status (h : handle) : M torrent_status :=
  effect (fun w =>
    match engine env (queries w) with
    | Reply s => (Val s, record (EvStatus h (clock w) s) (answered w))
    | Fault => (Raise EngineError, record EvEngineFault (answered w))
    end).

Definition handle_is_seed (h : handle) : M bool :=
  effect (fun w =>
    match engine env (queries w) with
    | Reply s => (Val (is_seeding s), record (EvIsSeed h (clock w) (is_seeding s)) (answered w))
    | Fault => (Raise EngineError, record EvEngineFault (answered w))
    end).

(** [handle.get_torrent_info()] and [lt.parse_magnet_uri(magnet_link)]. *)
Definition get_torrent_info (h : handle) : M torrent_info := ret (the_info env).

Definition lt_parse_magnet_uri (magnet_link : string) : M add_torrent_params :=
  match parse_magnet_uri env magnet_link with
  | Some p => ret p
  | None => raise MagnetError
  end.

(** [session.add_torrent(params)]: a session holds one torrent per info-hash;
    for a link whose torrent is already there it returns the handle of that
    torrent and adds nothing, otherwise it adds the torrent under a new handle.
    [session.remove_torrent(handle)]; [session.get_torrents()]. *)
Definition session_add_torrent (p : add_torrent_params) : M handle :=
  effect (fun w =>
    match find_torrent (info_hash p) w with
    | Some h => (Val h, record (EvAddTorrent h p) w)
    | None =>
        let h := next_handle w in
        (Val h,
         record (EvAddTorrent h p)
                (set_torrents (torrents w ++ [h]) (S h)
                              (set_info_hash h (info_hash p) w)))
    end).

Definition session_remove_torrent (h : handle) : M unit :=
  effect (fun w =>
    (Val tt,
     record (EvRemoveTorrent h)
            (set_torrents (remove Nat.eq_dec h (torrents w)) (next_handle w) w))).

Definition session_get_torrents : M (list handle) := fun w => (Val (torrents w), w).

(** [handle.pause()] and [session.pause()]. *)
Definition handle_pause (h : handle) : M unit := emit (EvPauseTorrent h).

Definition session_pause : M unit := emit EvPauseSession.

(** The four [add_dht_router] calls and the four [start_*] calls. *)
Definition start_services : M unit :=
  emit (EvDhtRouter "router.bittorrent.com" 6881) ;;
  emit (EvDhtRouter "router.utorrent.com" 6881) ;;
  emit (EvDhtRouter "dht.transmissionbt.com" 6881) ;;
  emit (EvDhtRouter "dht.libtorrent.org" 25401) ;;
  emit EvStartDht ;;
  emit EvStartLsd ;;
  emit EvStartUpnp ;;
  emit EvStartNatpmp.

(** [if not os.path.exists(p): os.makedirs(p)]. *)
Definition ensure_directory (download_path : string) : M unit :=
  if path_exists env download_path then ret tt else emit (EvMakedirs download_path).

(** [for i in range(torrent_info.num_files()): files.append({...})]. *)
Definition file_list (ti : torrent_info) : list file_entry :=
  map (fun i => mk_file (path (file_at ti i)) (size (file_at ti i)))
      (seq 0 (num_files ti)).

(** ** downloader.py: class TorrentDownloader *)

(** [__init__], lines 14-90. *)
Definition TorrentDownloader_init (download_path : string) : M unit :=
  emit EvSession ;;
  emit (EvListenOn 6881 6891) ;;
  emit (EvApplySettings downloader_settings) ;;
  start_services ;;
  ensure_directory download_path.

(** [download], lines 118-126: the wait for metadata. *)
Fixpoint download_wait_metadata (fuel : nat) (h : handle) (timeout start_time : Q)
  : M unit :=
  match fuel with
  | O => out_of_fuel
  | S fuel' =>
      st <- handle_status h ;;
      if has_metadata st then ret tt
      else
        now <- time_time ;;
        if Qltb timeout (now - start_time) then raise TimeoutError
        else
          status <- handle_status h ;;
          (if 0 <? num_peers status then print (MsgPeers (num_peers status))
           else ret tt) ;;
          time_sleep 1 ;;
          download_wait_metadata fuel' h timeout start_time
  end.

(** [download], lines 149-158: the dict passed to [on_progress]. *)
Definition progress_info_of (status : torrent_status) : progress_info :=
  mk_progress (progress status * 100)%Q
              (download_rate status) (upload_rate status)
              (num_peers status) (num_seeds status)
              (total_done status) (total_wanted status)
              (state status).

(** [download], lines 144-161: the download loop. *)
Fixpoint download_loop (fuel : nat) (h : handle) (on_progress : bool) : M unit :=
  match fuel with
  | O => out_of_fuel
  | S fuel' =>
      seed <- handle_is_seed h ;;
      if seed then ret tt
      else
        status <- handle_status h ;;
        (if on_progress then emit (EvOnProgress (progress_info_of status))
         else ret tt) ;;
        time_sleep 1 ;;
        download_loop fuel' h on_progress
  end.

(** [download], lines 104-142: everything before the download loop.
    [str(handle.info_hash())] is written as the info-hash of the parameters the
    handle was obtained with, which is what [hash_of] tells of that handle
    ([add_torrent_info_hash] below); so in [get_info]. *)
Definition download_resolve (download_path magnet_link : string) (on_metadata : bool)
           (fuel : nat) : M (handle * torrent_info) :=
  params <- lt_parse_magnet_uri magnet_link ;;
  let params := with_save_path params download_path in
  h <- session_add_torrent params ;;
  print MsgFetching ;;
  print MsgConnecting ;;
  let timeout := 60%Q in
  start_time <- time_time ;;
  download_wait_metadata fuel h timeout start_time ;;
  torrent_info <- get_torrent_info h ;;
  (if on_metadata then
     emit (EvOnMetadata (mk_metadata (name torrent_info) (num_files torrent_info)
                                     (total_size torrent_info) (info_hash params)))
   else ret tt) ;;
  print (MsgStarting (name torrent_info)) ;;
  ret (h, torrent_info).

(** [download], lines 92-178. [on_progress] and [on_metadata] tell whether a
    callback was supplied. *)
Definition download (download_path magnet_link : string)
           (on_progress on_metadata : bool) (fuel : nat) : M download_result :=
  ht <- download_resolve download_path magnet_link on_metadata fuel ;;
  let '(h, torrent_info) := ht in
  download_loop fuel h on_progress ;;
  let files := file_list torrent_info in
  ret (mk_result (name torrent_info) files (abspath env download_path)).

(** [get_info], lines 199-202. *)
Fixpoint get_info_wait_metadata (fuel : nat) (h : handle) (timeout start_time : Q)
  : M unit :=
  match fuel with
  | O => out_of_fuel
  | S fuel' =>
      st <- handle_status h ;;
      if has_metadata st then ret tt
      else
        now <- time_time ;;
        if Qltb timeout (now - start_time) then raise TimeoutError
        else
          time_sleep 1 ;;
          get_info_wait_metadata fuel' h timeout start_time
  end.

(** [get_info], lines 180-224. *)
Definition get_info (download_path magnet_link : string) (fuel : nat)
  : M torrent_summary :=
  params <- lt_parse_magnet_uri magnet_link ;;
  let params := with_save_path params download_path in
  h <- session_add_torrent params ;;
  let timeout := 60%Q in
  start_time <- time_time ;;
  get_info_wait_metadata fuel h timeout start_time ;;
  torrent_info <- get_torrent_info h ;;
  let files := file_list torrent_info in
  let info := mk_summary (name torrent_info) files (total_size torrent_info)
                         (info_hash params) in
  session_remove_torrent h ;;
  ret info.

(** [shutdown], lines 226-235. *)
Definition shutdown : M unit :=
  ts <- session_get_torrents ;;
  for_each ts handle_pause ;;
  session_pause ;;
  time_sleep 1.

(** The script, lines 238-279; [argv] is [sys.argv]. *)
Definition downloader_main (argv : list string) (fuel : nat)
  : World -> termination * World :=
  run_script
    match argv with
    | [] | [_] => print MsgUsage ;; sys_exit 1
    | _ :: magnet_link :: rest =>
        let download_path := path_argument rest in
        TorrentDownloader_init download_path ;;
        try_except
          (result <- download download_path magnet_link true true fuel ;;
           print MsgComplete ;;
           print (MsgSavedTo (r_download_path result)) ;;
           print MsgListing ;;
           for_each (r_files result)
                    (fun file => print (MsgFile (path file)
                                                (fmt2 (inject_Z (size file) / (1024 * 1024))))))
          (fun e =>
             match e with
             | KeyboardInterrupt => Some (print MsgCancelled ;; shutdown)
             | _ =>
                 if is_Exception e
                 then Some (print (MsgError e) ;; shutdown ;; sys_exit 1)
                 else None
             end)
    end.

(** ** cli_downloader.py *)

(** [download_torrent], lines 131-142: the wait for metadata; [false] is the
    [return] on timeout. *)
Fixpoint cli_wait_metadata (fuel : nat) (h : handle) (timeout start_time : Q)
         (last_peer_count : Z) : M bool :=
  match fuel with
  | O => out_of_fuel
  | S fuel' =>
      st <- handle_status h ;;
      if has_metadata st then ret true
      else
        now <- time_time ;;
        if Qltb timeout (now - start_time) then
          print MsgTimeout ;;
          print MsgDeadHint ;;
          ret false
        else
          status <- handle_status h ;;
          last_peer_count' <-
            (if negb (num_peers status =? last_peer_count) && (0 <? num_peers status)
             then print (MsgPeers (num_peers status)) ;; ret (num_peers status)
             else ret last_peer_count) ;;
          time_sleep 1 ;;
          cli_wait_metadata fuel' h timeout start_time last_peer_count'
  end.

(** [download_torrent], lines 162-181: the download loop; [pbar_n] is
    [pbar.n]. *)
Fixpoint cli_download_loop (fuel : nat) (h : handle) (last_progress pbar_n : Q)
  : M Q :=
  match fuel with
  | O => out_of_fuel
  | S fuel' =>
      seed <- handle_is_seed h ;;
      if seed then ret pbar_n
      else
        status <- handle_status h ;;
        let current_progress := (progress status * 100)%Q in
        bar <-
          (if Qltb last_progress current_progress
           then emit (EvPbarUpdate (current_progress - last_progress)) ;;
                ret (current_progress, (pbar_n + (current_progress - last_progress))%Q)
           else ret (last_progress, pbar_n)) ;;
        let '(last_progress', pbar_n') := bar in
        let download_speed := format_bytes (inject_Z (download_rate status)) ++ "/s" in
        let upload_speed := format_bytes (inject_Z (upload_rate status)) ++ "/s" in
        let peers := num_peers status in
        let seeds := num_seeds status in
        emit (EvPbarPostfix download_speed upload_speed peers seeds) ;;
        time_sleep 1 ;;
        cli_download_loop fuel' h last_progress' pbar_n'
  end.

(** [download_torrent], lines 51-157: everything before the [try]; [None] is
    an early [return]. *)
Definition cli_resolve (magnet_link download_path : string) (fuel : nat)
  : M (option (handle * torrent_info)) :=
  ensure_directory download_path ;;
  print MsgBanner ;;
  print (MsgLocation (abspath env download_path)) ;;
  emit EvSession ;;
  emit (EvListenOn 6881 6891) ;;
  emit (EvApplySettings cli_settings) ;;
  start_services ;;
  added <-
    try_except
      (params <- lt_parse_magnet_uri magnet_link ;;
       let params := with_save_path params download_path in
       h <- session_add_torrent params ;;
       ret (Some h))
      (fun e =>
         if is_Exception e
         then Some (print (MsgParseError e) ;; ret None)
         else None) ;;
  match added with
  | None => ret None
  | Some h =>
      print MsgFetching ;;
      print MsgConnecting ;;
      let timeout := 60%Q in
      start_time <- time_time ;;
      let last_peer_count := 0 in
      found <- cli_wait_metadata fuel h timeout start_time last_peer_count ;;
      if negb found then ret None
      else
        torrent_info <- get_torrent_info h ;;
        print (MsgFound (name torrent_info)) ;;
        print (MsgFiles (num_files torrent_info)) ;;
        print (MsgSize (format_bytes (inject_Z (total_size torrent_info)))) ;;
        emit EvPbarCreate ;;
        ret (Some (h, torrent_info))
  end.

(** [download_torrent], lines 160-197: the body of the [try]. *)
Definition cli_download_body (download_path : string) (h : handle)
           (torrent_info : torrent_info) (fuel : nat) : M unit :=
  let last_progress := 0%Q in
  pbar_n <- cli_download_loop fuel h last_progress 0%Q ;;
  (if Qltb pbar_n 100 then emit (EvPbarUpdate (100 - pbar_n)) else ret tt) ;;
  emit EvPbarClose ;;
  print MsgComplete ;;
  print (MsgSavedTo (abspath env download_path)) ;;
  print MsgListing ;;
  for_each (seq 0 (num_files torrent_info))
           (fun i =>
              let file_info := file_at torrent_info i in
              print (MsgFile (path file_info)
                             (format_bytes (inject_Z (size file_info))))) ;;
  print MsgBlank.

(** [download_torrent], lines 161-209: the [try] with its handlers. *)
Definition cli_download_phase (download_path : string) (h : handle)
           (torrent_info : torrent_info) (fuel : nat) : M unit :=
  try_finally
    (try_except
       (cli_download_body download_path h torrent_info fuel)
       (fun e =>
          match e with
          | KeyboardInterrupt =>
              Some (emit EvPbarClose ;;
                    print MsgCancelled ;;
                    handle_pause h ;;
                    session_pause)
          | _ =>
              if is_Exception e
              then Some (emit EvPbarClose ;; print (MsgError e))
              else None
          end))
    session_pause.

(** [download_torrent], lines 43-209. *)
Definition download_torrent (magnet_link download_path : string) (fuel : nat)
  : M unit :=
  resolved <- cli_resolve magnet_link download_path fuel ;;
  match resolved with
  | None => ret tt
  | Some (h, torrent_info) => cli_download_phase download_path h torrent_info fuel
  end.

(** [main], lines 212-223. *)
Definition main (argv : list string) (fuel : nat)
  : World -> termination * World :=
  run_script
    match argv with
    | [] | [_] =>
        print MsgMissingArgument ;;
        print MsgUsage ;;
        print MsgExample ;;
        sys_exit 1
    | _ :: magnet_link :: rest =>
        let download_path := path_argument rest in
        download_torrent magnet_link download_path fuel
    end.

End Programs.

(** * Sample environments *)

(** A parser of magnet links in the manner of libtorrent's: the link is
    [magnet:?] followed by parameters separated by [&]; the first parameter
    [xt=urn:btih:] must carry a digest of 40 hexadecimal digits, which is the
    info-hash, in lower case. (The base32 form of the digest is not covered.) *)
Fixpoint split_on (sep : ascii) (s : string) : list string :=
  match s with
  | EmptyString => [EmptyString]
  | String c rest =>
      if Ascii.eqb c sep then EmptyString :: split_on sep rest
      else match split_on sep rest with
           | [] => [String c EmptyString]
           | first :: others => String c first :: others
           end
  end.

Definition between (lo hi : nat) (c : ascii) : bool :=
  (lo <=? nat_of_ascii c)%nat && (nat_of_ascii c <=? hi)%nat.

Definition is_hex (c : ascii) : bool :=
  between 48 57 c || between 97 102 c || between 65 70 c.

Definition to_lower (c : ascii) : ascii :=
  if between 65 90 c then ascii_of_nat (nat_of_ascii c + 32) else c.

Fixpoint string_forallb (f : ascii -> bool) (s : string) : bool :=
  match s with
  | EmptyString => true
  | String c rest => f c && string_forallb f rest
  end.

Fixpoint string_map (f : ascii -> ascii) (s : string) : string :=
  match s with
  | EmptyString => EmptyString
  | String c rest => String (f c) (string_map f rest)
  end.

Definition btih_of (param : string) : option string :=
  if prefix "xt=urn:btih:" param
  then Some (substring 12 (String.length param - 12) param)
  else None.

Fixpoint first_btih (params : list string) : option string :=
  match params with
  | [] => None
  | param :: rest =>
      match btih_of param with
      | Some digest => Some digest
      | None => first_btih rest
      end
  end.

Definition sample_parse (uri : string) : option add_torrent_params :=
  if prefix "magnet:?" uri then
    match first_btih (split_on "&" (substring 8 (String.length uri - 8) uri)) with
    | Some digest =>
        if (String.length digest =? 40)%nat && string_forallb is_hex digest
        then Some (mk_params (string_map to_lower digest) "")
        else None
    | None => None
    end
  else None.

(** A two-file torrent of 10 MB, and three statuses. *)

Definition sample_info : torrent_info :=
  mk_info "sample" [mk_file "sample/a.bin" 6291456; mk_file "sample/b.bin" 4194304]
          10485760.

Definition st_waiting : torrent_status :=
  mk_status false false 0 0 0 0 0 0 0 "downloading_metadata".

Definition st_half : torrent_status :=
  mk_status true false (1 # 2) 2048 512 3 1 5242880 10485760 "downloading".

Definition st_seeding : torrent_status :=
  mk_status true true 1 0 0 3 1 10485760 10485760 "seeding".

(** The engine that answers with the statuses of [script] in turn, then with
    [rest]. *)
Definition scripted (script : list torrent_status) (rest : torrent_status)
  : nat -> reply :=
  fun n => Reply (nth n script rest).

(** Sleeps last exactly one second and the download directory exists. *)
Definition sample_env (eng : nat -> reply) : Env :=
  mk_env sample_parse eng (fun _ => 1%Q) (fun _ => true)
         (fun p => "/home/user/" ++ p) sample_info.

Definition sample_hash : string := "0123456789abcdef0123456789abcdef01234567".

Definition sample_magnet : string :=
  "magnet:?dn=sample&xt=urn:btih:0123456789ABCDEF0123456789abcdef01234567".

(** A dead torrent; one whose metadata arrives with the poll at 61 s; one
    that is half way for a few polls and then complete. *)
Definition dead_engine : nat -> reply := fun _ => Reply st_waiting.

Definition late_engine : nat -> reply :=
  fun n => Reply (if (n <? 122)%nat then st_waiting else st_seeding).

Definition live_engine : nat -> reply :=
  scripted [st_half; st_half; st_half; st_half; st_half] st_seeding.

(** A torrent that is dead for the first 62 polls and has its metadata from
    then on. *)
Definition revived_engine : nat -> reply :=
  fun n => Reply (if (n <? 62)%nat then st_waiting else st_half).

(** * Vocabulary of the statements *)

(** ** Formatting *)

(** The units of [format_bytes], PB being the fall-through, and a byte count
    scaled down by [i] successive factors of 1024. *)
Definition units : list string := ["B"; "KB"; "MB"; "GB"; "TB"].
Definition unit_name (i : nat) : string := nth i units "PB".
Definition scaled (b : Q) (i : nat) : Q := Nat.iter i (fun x => (x / 1024)%Q) b.

(** The numbers a Python float holds exactly: [m * 2^e] with a mantissa of at
    most 53 bits.  Every integer below 2^53 is one; a larger integer that is
    not is rounded to one when [format_bytes] first divides it by 1024.0. *)
Definition exact_as_float (b : Q) : Prop :=
  exists m e : Z,
    Z.abs m < 2 ^ 53 /\ -1074 <= e <= 971 /\ (b == inject_Z m * 2 ^ e)%Q.

(** The unit C8 names: the largest of the six for which the scaled value is
    below 1024, PB otherwise. *)
Definition largest_unit_below (b : Q) : nat :=
  match filter (fun i => Qltb (scaled b i) 1024) (List.rev (seq 0 6)) with
  | i :: _ => i
  | [] => 5%nat
  end.

Definition format_bytes_largest_unit_claim (b : Q) : Prop :=
  format_bytes b =
    fmt2 (scaled b (largest_unit_below b)) ++ " " ++ unit_name (largest_unit_below b).

Fixpoint last_char (s : string) : option ascii :=
  match s with
  | EmptyString => None
  | String c r => match r with EmptyString => Some c | _ => last_char r end
  end.

(** ** Logs *)

(** The log of [w'] extends the log of [w] by events that satisfy [P]. *)
Definition appended (P : event -> Prop) (w w' : World) : Prop :=
  exists new, log w' = (new ++ log w)%list /\ Forall P new.

(** Number of callback invocations recorded in a log. *)
Fixpoint count_on_progress (l : list event) : nat :=
  match l with
  | [] => 0
  | EvOnProgress _ :: rest => S (count_on_progress rest)
  | _ :: rest => count_on_progress rest
  end.

(** Events of the download phase: seed polls, progress callbacks, the progress
    bar and the line that announces the download. *)
Definition download_phase_event (e : event) : bool :=
  match e with
  | EvIsSeed _ _ _ | EvOnProgress _ | EvPbarCreate | EvPbarUpdate _
  | EvPbarPostfix _ _ _ _ | EvPrint (MsgStarting _) => true
  | _ => false
  end.

Definition shutdown_event (e : event) : bool :=
  match e with
  | EvPauseTorrent _ | EvPauseSession => true
  | _ => false
  end.

Definition resolving_event (e : event) : bool :=
  negb (download_phase_event e) && negb (shutdown_event e).

(** Only events of the resolution phase were recorded between [w] and [w']:
    none of the download phase, none of a shutdown. *)
Definition resolving_only : World -> World -> Prop :=
  appended (fun e => resolving_event e = true).

(** ** The metadata deadline *)

(** The clock after [i] more sleeps, from the clock [c] and [s] sleeps so far. *)
Fixpoint clock_after (lap : nat -> Q) (c : Q) (s : nat) (i : nat) : Q :=
  match i with
  | O => c
  | S i' => clock_after lap (c + lap s)%Q (S s) i'
  end.

(** The engine answers every poll of the resolution cycles [0..n] started in
    [w] (two polls per cycle), and the poll that opens each of them, cycle [n]
    included, reports no metadata. *)
Definition no_metadata_through (env : Env) (w : World) (n : nat) : Prop :=
  (forall i, (i <= n)%nat ->
     exists s, engine env (queries w + 2 * i) = Reply s /\ has_metadata s = false) /\
  (forall i, (i < n)%nat ->
     exists s, engine env (queries w + 2 * i + 1) = Reply s).

(** Cycle [n] is the first whose clock reading exceeds the timeout. *)
Definition deadline_cycle (env : Env) (w : World) (timeout : Q) (n : nat) : Prop :=
  (forall i, (i < n)%nat ->
     ~ (timeout < clock_after (lap env) (clock w) (sleeps w) i - clock w)%Q) /\
  (timeout < clock_after (lap env) (clock w) (sleeps w) n - clock w)%Q.

(** C2 as worded, read on the log of a run: no status answer taken within the
    timeout carried metadata, so the run must end in the timeout. *)
Definition metadata_seen_by (deadline : Q) (l : list event) : bool :=
  existsb (fun e =>
             match e with
             | EvStatus _ t s => Qle_bool t deadline && has_metadata s
             | _ => false
             end) l.

Definition metadata_timeout_claim (env : Env) (download_path magnet_link : string)
           (fuel : nat) (w : World) : Prop :=
  let run := download env download_path magnet_link true true fuel w in
  metadata_seen_by (clock w + 60) (log (snd run)) = false ->
  fst run = Raise TimeoutError /\ resolving_only w (snd run).

(** ** Progress snapshots *)

(** C1 as worded: the field holds a fraction. *)
Definition fraction_event (e : event) : Prop :=
  match e with
  | EvOnProgress p => (0 <= pi_progress p)%Q /\ (pi_progress p <= 1)%Q
  | _ => True
  end.

(** In a log (newest first) every progress snapshot lies directly on the
    status poll of its cycle and is built from the answer to that poll. *)
Fixpoint snapshots_of_polls (l : list event) : Prop :=
  match l with
  | [] => True
  | EvOnProgress p :: rest =>
      match rest with
      | EvStatus _ _ s :: _ => p = progress_info_of s
      | _ => False
      end /\ snapshots_of_polls rest
  | _ :: rest => snapshots_of_polls rest
  end.

Definition polls_snapshotted (w w' : World) : Prop :=
  exists new, log w' = (new ++ log w)%list /\ snapshots_of_polls new.

Definition no_progress (e : event) : Prop :=
  match e with
  | EvOnProgress _ => False
  | _ => True
  end.

Definition fractions_in_range (env : Env) : Prop :=
  forall n s, engine env n = Reply s ->
    (0 <= progress s)%Q /\ (progress s <= 1)%Q.

Definition half_way_run : res download_result * World :=
  download (sample_env live_engine) default_download_path sample_magnet true true 100
           (initial_world 0 None).

(** ** Invariants of arbitrary runs *)

(** [m] keeps the relation [R] between the worlds before and after it, and a
    value it returns satisfies [V]; interrupted and faulty runs included. *)
Definition respects {A} (R : World -> World -> Prop) (V : A -> Prop) (m : M A)
  : Prop :=
  forall w r w', m w = (r, w') -> R w w' /\ (forall a, r = Val a -> V a).

Definition anything {A} : A -> Prop := fun _ => True.

Definition from_engine (env : Env) (s : torrent_status) : Prop :=
  exists n, engine env n = Reply s.

(** The events the embedded programs can record: status answers come from the
    engine and a progress callback receives the snapshot built from one. *)
Definition honest (env : Env) (e : event) : Prop :=
  match e with
  | EvStatus _ _ s => from_engine env s
  | EvOnProgress p => exists s, from_engine env s /\ p = progress_info_of s
  | _ => True
  end.

(** What a relation must satisfy to be kept by the primitives that do not
    touch the session's torrents. *)
Record Laws (R : World -> World -> Prop) (ok : event -> Prop) : Prop := {
  law_refl : forall w, R w w;
  law_trans : forall w1 w2 w3, R w1 w2 -> R w2 w3 -> R w1 w3;
  law_sigint : forall s w, R w (set_sigint s w);
  law_record : forall ev w, ok ev -> R w (record ev w);
  law_answered : forall w, R w (answered w);
  law_slept : forall d w, R w (slept d w);
  law_struck : ok EvSigint
}.

(** ** The session *)

Definition same_session (w w' : World) : Prop :=
  torrents w' = torrents w /\ next_handle w' = next_handle w.

(** The session has handed out every handle it holds. *)
Definition handles_allocated (w : World) : Prop :=
  Forall (fun h => (h < next_handle w)%nat) (torrents w).

(** C9 as worded, for one call: if [get_info] returns normally, the session
    holds the torrents it held before the call. *)
Definition get_info_restores_claim (env : Env) (download_path magnet_link : string)
           (fuel : nat) (w : World) : Prop :=
  forall info w',
    get_info env download_path magnet_link fuel w = (Val info, w') ->
    torrents w' = torrents w.

(** ** Interruption *)

(** A computation without handlers that ends in KeyboardInterrupt stops at the
    delivery of the signal. *)
Definition struck_last {A} (m : M A) : Prop :=
  forall w w', m w = (Raise KeyboardInterrupt, w') ->
    sigint w' = None /\ exists l, log w' = EvSigint :: l.

(** The world after [shutdown] has paused the torrents [ts] one by one. *)
Fixpoint pause_all (ts : list handle) (w : World) : World :=
  match ts with
  | [] => w
  | h :: rest => pause_all rest (record (EvPauseTorrent h) w)
  end.








(** ** Malformed requests *)

Definition malformed_magnet : string := "http://example.org/file.torrent".

(** C4 as worded, for the command-line tool: no session exists after a
    rejected URI. *)
Definition no_session_claim (env : Env) (magnet_link download_path : string)
           (fuel : nat) (w : World) : Prop :=
  parse_magnet_uri env magnet_link = None ->
  ~ In EvSession (log (snd (download_torrent env magnet_link download_path fuel w))).

(** * Vocabulary of the further properties *)

(** What [session.add_torrent(params)] does to a session: the handle it
    answers with, and the session's torrents after it. *)
Definition added_handle (p : add_torrent_params) (w : World) : handle :=
  match find_torrent (info_hash p) w with
  | Some h => h
  | None => next_handle w
  end.

Definition torrents_after_add (p : add_torrent_params) (w : World) : list handle :=
  match find_torrent (info_hash p) w with
  | Some _ => torrents w
  | None => (torrents w ++ [next_handle w])%list
  end.

(** ** Bounded waiting *)

Definition same_time (w w' : World) : Prop :=
  clock w' = clock w /\ sleeps w' = sleeps w.

Definition elapsed_sleeps (w w' : World) : Z :=
  Z.of_nat (sleeps w') - Z.of_nat (sleeps w).

Definition sleeps_at_least_one_second (env : Env) : Prop :=
  forall k, (1 <= lap env k)%Q.

(** What one run of a wait loop may cost: it ends within the fuel, and it
    sleeps at most until 61 seconds have passed since [start]. *)
Definition bounded_wait {A} (start : Q) (fuel : nat) (w : World)
           (run : res A * World) : Prop :=
  ((61 < clock w - start + inject_Z (Z.of_nat fuel))%Q -> (0 < fuel)%nat ->
   fst run <> OutOfFuel) /\
  (elapsed_sleeps w (snd run) = 0 \/
   (inject_Z (elapsed_sleeps w (snd run)) <= 61 - (clock w - start))%Q).

(** ** The download phase *)

(** From query [q] on, the engine answers every poll and never reports a
    seed. *)
Definition never_seeding (env : Env) (q : nat) : Prop :=
  forall n, (q <= n)%nat -> exists s, engine env n = Reply s /\ is_seeding s = false.

(** A torrent that has its metadata and stays half way. *)
Definition stalled_engine : nat -> reply := fun _ => Reply st_half.

(** ** Successful runs *)

(** Counted from query [q], the poll that opens resolution cycle [k] is the
    first to report metadata (two polls per cycle). *)
Definition metadata_at_cycle (env : Env) (q k : nat) : Prop :=
  (forall i, (i < k)%nat ->
     exists s, engine env (q + 2 * i) = Reply s /\ has_metadata s = false) /\
  (forall i, (i < k)%nat -> exists s, engine env (q + 2 * i + 1) = Reply s) /\
  (exists s, engine env (q + 2 * k) = Reply s /\ has_metadata s = true).

(** The same for [get_info], which polls once per cycle. *)
Definition metadata_at_poll (env : Env) (q k : nat) : Prop :=
  (forall i, (i < k)%nat ->
     exists s, engine env (q + i) = Reply s /\ has_metadata s = false) /\
  (exists s, engine env (q + k) = Reply s /\ has_metadata s = true).

(** None of the clock readings of the cycles before [k] exceeds the timeout. *)
Definition within_deadline (env : Env) (w : World) (timeout : Q) (k : nat) : Prop :=
  forall i, (i < k)%nat ->
    ~ (timeout < clock_after (lap env) (clock w) (sleeps w) i - clock w)%Q.

(** Counted from query [q], the seed poll that opens download cycle [j] is the
    first to answer true. *)
Definition seeding_at_cycle (env : Env) (q j : nat) : Prop :=
  (forall i, (i < j)%nat ->
     exists s, engine env (q + 2 * i) = Reply s /\ is_seeding s = false) /\
  (forall i, (i < j)%nat -> exists s, engine env (q + 2 * i + 1) = Reply s) /\
  (exists s, engine env (q + 2 * j) = Reply s /\ is_seeding s = true).

Fixpoint count_on_metadata (l : list event) : nat :=
  match l with
  | [] => 0
  | EvOnMetadata _ :: rest => S (count_on_metadata rest)
  | _ :: rest => count_on_metadata rest
  end.

(** What a wait for metadata records. *)
Definition waiting_event (e : event) : bool :=
  match e with
  | EvStatus _ _ _ | EvSleep _ | EvPrint (MsgPeers _)
  | EvPrint MsgTimeout | EvPrint MsgDeadHint => true
  | _ => false
  end.

(** The world after the events [evs] have been recorded in turn. *)
Fixpoint record_all (evs : list event) (w : World) : World :=
  match evs with
  | [] => w
  | ev :: rest => record_all rest (record ev w)
  end.

(** Metadata arrives at the second resolution cycle and the torrent is
    complete at the second download cycle. *)
Definition slow_engine : nat -> reply :=
  scripted [st_waiting; st_waiting; st_half; st_half; st_half] st_seeding.

(** The line the script prints for a downloaded file. *)
Definition script_file_line (file : file_entry) : event :=
  EvPrint (MsgFile (path file) (fmt2 (inject_Z (size file) / (1024 * 1024)))).

(** ** The progress bar *)

(** The position of the bar: the sum of the updates recorded in a log. *)
Fixpoint pbar_total (l : list event) : Q :=
  match l with
  | [] => 0
  | EvPbarUpdate d :: rest => pbar_total rest + d
  | _ :: rest => pbar_total rest
  end.

(** An event that moves the bar moves it forward. *)
Definition bar_advances (e : event) : Prop :=
  match e with
  | EvPbarUpdate d => (0 < d)%Q
  | _ => True
  end.

Definition bar_untouched (e : event) : Prop :=
  match e with
  | EvPbarUpdate _ => False
  | _ => True
  end.

Definition same_bar (w w' : World) : Prop :=
  pbar_total (log w') = pbar_total (log w).

(** The line the command-line tool prints for a downloaded file. *)
Definition cli_file_line (file : file_entry) : event :=
  EvPrint (MsgFile (path file) (format_bytes (inject_Z (size file)))).

(** ** Exceptions *)

(** Every exception [m] can raise satisfies [P]. *)
Definition raises_only {A} (P : exn -> Prop) (m : M A) : Prop :=
  forall w e w', m w = (Raise e, w') -> P e.

(** What can escape the command-line tool's resolution phase, and what
    [download] can raise. *)
Definition interrupt_or_fault (e : exn) : Prop :=
  e = KeyboardInterrupt \/ e = EngineError.

Definition download_error (e : exn) : Prop :=
  e = KeyboardInterrupt \/ e = EngineError \/ e = MagnetError \/ e = TimeoutError.

(** An engine that fails at every query. *)
Definition faulty_engine : nat -> reply := fun _ => Fault.

(** An engine that has the metadata at once and fails at the third query. *)
Definition failing_engine : nat -> reply :=
  fun n => if (n <? 2)%nat then Reply st_half else Fault.

(** The exit code and the line with which the script answers an exception
    raised by [download]. *)
Definition exit_code_after (e : exn) : Z :=
  match e with
  | KeyboardInterrupt => 0
  | _ => 1
  end.

Definition line_after (e : exn) : message :=
  match e with
  | KeyboardInterrupt => MsgCancelled
  | _ => MsgError e
  end.

(** ** The callbacks of [download] *)

(** An event that is not the invocation of a callback. *)
Definition no_callback (e : event) : Prop :=
  match e with
  | EvOnMetadata _ | EvOnProgress _ => False
  | _ => True
  end.

(** What the download loop may record: no [on_metadata], and [on_progress]
    only if the callback was supplied. *)
Definition progress_only (on_progress : bool) (e : event) : Prop :=
  match e with
  | EvOnMetadata _ => False
  | EvOnProgress _ => on_progress = true
  | _ => True
  end.

(** Between [w] and [w'] the metadata callback was invoked at most once, with
    [md], and only if it was supplied; no other callback was invoked. *)
Definition metadata_once (md : metadata) (on_metadata : bool) (w w' : World) : Prop :=
  appended no_callback w w' \/
  (on_metadata = true /\
   exists wm, appended no_callback w wm /\
              appended no_callback (record (EvOnMetadata md) wm) w').

(** The dict [download] passes to [on_metadata]. *)
Definition metadata_of (ti : torrent_info) (p : add_torrent_params) : metadata :=
  mk_metadata (name ti) (num_files ti) (total_size ti) (info_hash p).

(** ** The peer-count lines *)

(** The counts of the peer lines of a log, newest first as the log is. *)
Fixpoint peer_lines (l : list event) : list Z :=
  match l with
  | [] => []
  | EvPrint (MsgPeers n) :: rest => n :: peer_lines rest
  | _ :: rest => peer_lines rest
  end.

(** Read oldest first, each count is positive and differs from the one before
    it, the first from [prev]. *)
Fixpoint each_differs (prev : Z) (ns : list Z) : Prop :=
  match ns with
  | [] => True
  | n :: rest => n <> prev /\ 0 < n /\ each_differs n rest
  end.

Definition no_peer_line (e : event) : Prop :=
  match e with
  | EvPrint (MsgPeers _) => False
  | _ => True
  end.

(** * Running the code step by step *)

Lemma bind_ret {A B} (a : A) (k : A -> M B) (w : World) :
  bind (ret a) k w = k a w.
Proof. reflexivity. Qed.

Lemma bind_raise {A B} (e : exn) (k : A -> M B) (w : World) :
  bind (raise e) k w = (Raise e, w).
Proof. reflexivity. Qed.

Lemma bind_time {B} (k : Q -> M B) (w : World) :
  bind time_time k w = k (clock w) w.
Proof. reflexivity. Qed.

Lemma bind_assoc {A B C} (m : M A) (f : A -> M B) (g : B -> M C) (w : World) :
  bind (bind m f) g w = bind m (fun a => bind (f a) g) w.
Proof.
  unfold bind. destruct (m w) as [[a | e |] w1]; reflexivity.
Qed.

Lemma bind_run {A B} (m : M A) (k : A -> M B) (w w1 : World) (a : A) :
  m w = (Val a, w1) -> bind m k w = k a w1.
Proof. unfold bind. intros ->. reflexivity. Qed.

Lemma bind_fail {A B} (m : M A) (k : A -> M B) (w w1 : World) (e : exn) :
  m w = (Raise e, w1) -> bind m k w = (Raise e, w1).
Proof. unfold bind. intros ->. reflexivity. Qed.

Lemma bind_inv {A B} (m : M A) (k : A -> M B) (w w' : World) (r : res B) :
  bind m k w = (r, w') ->
  (exists a w1, m w = (Val a, w1) /\ k a w1 = (r, w')) \/
  (exists e, m w = (Raise e, w') /\ r = Raise e) \/
  (m w = (OutOfFuel, w') /\ r = OutOfFuel).
Proof.
  unfold bind. destruct (m w) as [[a | e |] w1]; intros E.
  - left. exists a, w1. auto.
  - inversion E; subst. right. left. exists e. auto.
  - inversion E; subst. right. right. auto.
Qed.

Lemma effect_inv {A} (act : World -> res A * World) (w w' : World) (r : res A) :
  effect act w = (r, w') ->
  (r = Raise KeyboardInterrupt /\ same_session w w') \/
  (exists s, act (set_sigint s w) = (r, w')).
Proof.
  unfold effect. destruct (sigint w) as [[| n] |] eqn:Es; intros E.
  - inversion E; subst. left. split; [reflexivity | split; reflexivity].
  - right. exists (Some n). exact E.
  - right. exists None. destruct w; simpl in *. subst. exact E.
Qed.

Lemma effect_cases {A} (act : World -> res A * World) (w w' : World) (r : res A) :
  effect act w = (r, w') ->
  (r = Raise KeyboardInterrupt /\ w' = record EvSigint (set_sigint None w)) \/
  (exists s, act (set_sigint s w) = (r, w')).
Proof.
  unfold effect. destruct (sigint w) as [[| n] |] eqn:Es; intros E.
  - inversion E; subst. left. auto.
  - right. exists (Some n). exact E.
  - right. exists None. destruct w; simpl in *. subst. exact E.
Qed.

Lemma emit_val (ev : event) (w w' : World) (u : unit) :
  emit ev w = (Val u, w') -> log w' = ev :: log w.
Proof.
  intros E. apply effect_cases in E.
  destruct E as [[E _] | [s E]]; [discriminate |].
  inversion E; subst. reflexivity.
Qed.

Lemma effect_quiet {A} (act : World -> res A * World) (w : World) :
  sigint w = None -> effect act w = act w.
Proof. unfold effect. intros ->. reflexivity. Qed.

Lemma effect_struck {A} (act : World -> res A * World) (w : World) :
  sigint w = Some O ->
  effect act w = (Raise KeyboardInterrupt, record EvSigint (set_sigint None w)).
Proof. unfold effect. intros ->. reflexivity. Qed.

Lemma effect_pending {A} (act : World -> res A * World) (w : World) (n : nat) :
  sigint w = Some (S n) -> effect act w = act (set_sigint (Some n) w).
Proof. unfold effect. intros ->. reflexivity. Qed.

Lemma bind_emit_quiet {B} (ev : event) (k : unit -> M B) (w : World) :
  sigint w = None -> bind (emit ev) k w = k tt (record ev w).
Proof.
  intros H. apply bind_run. unfold emit. rewrite effect_quiet by exact H. reflexivity.
Qed.

Lemma emit_quiet (ev : event) (w : World) :
  sigint w = None -> emit ev w = (Val tt, record ev w).
Proof. intros H. unfold emit. rewrite effect_quiet by exact H. reflexivity. Qed.

Lemma bind_print_quiet {B} (m : message) (k : unit -> M B) (w : World) :
  sigint w = None -> bind (print m) k w = k tt (record (EvPrint m) w).
Proof. apply bind_emit_quiet. Qed.

Section Steps.

Variable env : Env.

Lemma bind_sleep_quiet {B} (secs : Q) (k : unit -> M B) (w : World) :
  sigint w = None ->
  bind (time_sleep env secs) k w
    = k tt (record (EvSleep secs) (slept (lap env (sleeps w)) w)).
Proof.
  intros H. apply bind_run. unfold time_sleep. rewrite effect_quiet by exact H.
  reflexivity.
Qed.

Lemma sleep_quiet (secs : Q) (w : World) :
  sigint w = None ->
  time_sleep env secs w
    = (Val tt, record (EvSleep secs) (slept (lap env (sleeps w)) w)).
Proof.
  intros H. unfold time_sleep. rewrite effect_quiet by exact H. reflexivity.
Qed.

Lemma bind_status_quiet {B} (h : handle) (k : torrent_status -> M B) (w : World)
      (s : torrent_status) :
  sigint w = None ->
  engine env (queries w) = Reply s ->
  bind (handle_status env h) k w
    = k s (record (EvStatus h (clock w) s) (answered w)).
Proof.
  intros H E. apply bind_run. unfold handle_status. rewrite effect_quiet by exact H.
  rewrite E. reflexivity.
Qed.

Lemma bind_is_seed_quiet {B} (h : handle) (k : bool -> M B) (w : World)
      (s : torrent_status) :
  sigint w = None ->
  engine env (queries w) = Reply s ->
  bind (handle_is_seed env h) k w
    = k (is_seeding s) (record (EvIsSeed h (clock w) (is_seeding s)) (answered w)).
Proof.
  intros H E. apply bind_run. unfold handle_is_seed. rewrite effect_quiet by exact H.
  rewrite E. reflexivity.
Qed.

Lemma bind_add_quiet {B} (p : add_torrent_params) (k : handle -> M B) (w : World) :
  sigint w = None ->
  find_torrent (info_hash p) w = None ->
  bind (session_add_torrent p) k w
    = k (next_handle w)
        (record (EvAddTorrent (next_handle w) p)
                (set_torrents (torrents w ++ [next_handle w])
                              (S (next_handle w))
                              (set_info_hash (next_handle w) (info_hash p) w))).
Proof.
  intros H E. apply bind_run. unfold session_add_torrent.
  rewrite effect_quiet by exact H. rewrite E. reflexivity.
Qed.

Lemma find_torrent_empty (ih : string) (w : World) :
  torrents w = [] -> find_torrent ih w = None.
Proof. unfold find_torrent. intros ->. reflexivity. Qed.

Lemma find_torrent_same (ih : string) (w w' : World) :
  torrents w' = torrents w -> info_hashes w' = info_hashes w ->
  find_torrent ih w' = find_torrent ih w.
Proof. unfold find_torrent, hash_of. intros -> ->. reflexivity. Qed.

Lemma torrents_after_add_same (p : add_torrent_params) (w w' : World) :
  torrents w' = torrents w -> next_handle w' = next_handle w ->
  info_hashes w' = info_hashes w ->
  torrents_after_add p w' = torrents_after_add p w.
Proof.
  intros Hts Hnh Hih. unfold torrents_after_add.
  rewrite (find_torrent_same _ _ _ Hts Hih), Hts, Hnh. reflexivity.
Qed.

Lemma added_handle_same (p : add_torrent_params) (w w' : World) :
  torrents w' = torrents w -> next_handle w' = next_handle w ->
  info_hashes w' = info_hashes w ->
  added_handle p w' = added_handle p w.
Proof.
  intros Hts Hnh Hih. unfold added_handle.
  rewrite (find_torrent_same _ _ _ Hts Hih), Hnh. reflexivity.
Qed.

Lemma bind_add_again_quiet {B} (p : add_torrent_params) (k : handle -> M B)
      (w : World) (h : handle) :
  sigint w = None ->
  find_torrent (info_hash p) w = Some h ->
  bind (session_add_torrent p) k w = k h (record (EvAddTorrent h p) w).
Proof.
  intros H E. apply bind_run. unfold session_add_torrent.
  rewrite effect_quiet by exact H. rewrite E. reflexivity.
Qed.

Lemma bind_remove_quiet {B} (h : handle) (k : unit -> M B) (w : World) :
  sigint w = None ->
  bind (session_remove_torrent h) k w
    = k tt (record (EvRemoveTorrent h)
                   (set_torrents (remove Nat.eq_dec h (torrents w))
                                 (next_handle w) w)).
Proof.
  intros H. apply bind_run. unfold session_remove_torrent.
  rewrite effect_quiet by exact H. reflexivity.
Qed.

Lemma bind_pause_quiet {B} (h : handle) (k : unit -> M B) (w : World) :
  sigint w = None ->
  bind (handle_pause h) k w = k tt (record (EvPauseTorrent h) w).
Proof. apply bind_emit_quiet. Qed.

Lemma bind_session_pause_quiet {B} (k : unit -> M B) (w : World) :
  sigint w = None ->
  bind session_pause k w = k tt (record EvPauseSession w).
Proof. apply bind_emit_quiet. Qed.

Lemma bind_get_torrents {B} (k : list handle -> M B) (w : World) :
  bind session_get_torrents k w = k (torrents w) w.
Proof. reflexivity. Qed.

Lemma bind_get_torrent_info {B} (h : handle) (k : torrent_info -> M B) (w : World) :
  bind (get_torrent_info env h) k w = k (the_info env) w.
Proof. reflexivity. Qed.

End Steps.

Ltac world_simpl :=
  cbv beta iota;
  cbn [clock queries sleeps sigint torrents next_handle log info_hashes
       record set_sigint answered slept set_torrents set_info_hash].

Ltac quiet_side := first [reflexivity | assumption | eassumption].

(** One uninterrupted step of straight-line code. *)
Ltac quiet_step :=
  first
    [ rewrite bind_ret
    | rewrite bind_raise
    | rewrite bind_time
    | rewrite bind_get_torrents
    | rewrite bind_get_torrent_info
    | rewrite bind_print_quiet by quiet_side
    | rewrite bind_pause_quiet by quiet_side
    | rewrite bind_session_pause_quiet by quiet_side
    | rewrite bind_emit_quiet by quiet_side
    | rewrite bind_sleep_quiet by quiet_side
    | rewrite bind_add_quiet by quiet_side
    | erewrite bind_add_again_quiet by quiet_side
    | rewrite bind_remove_quiet by quiet_side
    | erewrite bind_status_quiet by quiet_side
    | erewrite bind_is_seed_quiet by quiet_side
    | rewrite bind_assoc ];
  world_simpl.

Ltac quiet := repeat quiet_step.


(** * Formatting *)

Lemma Qfloor_unique (x : Q) (z : Z) :
  (inject_Z z <= x)%Q -> (x < inject_Z (z + 1))%Q -> Qfloor x = z.
Proof.
  intros Hlo Hhi.
  pose proof (Qfloor_le x) as Hf. pose proof (Qlt_floor x) as Hg.
  assert (z < Qfloor x + 1).
  { rewrite Zlt_Qlt. eapply Qle_lt_trans; eauto. }
  assert (Qfloor x < z + 1).
  { rewrite Zlt_Qlt. eapply Qle_lt_trans; eauto. }
  lia.
Qed.

Lemma Qfloor_sub_Z (x : Q) (z : Z) :
  Qfloor (x - inject_Z z) = Qfloor x - z.
Proof.
  apply Qfloor_unique.
  - pose proof (Qfloor_le x). unfold Z.sub. rewrite inject_Z_plus, inject_Z_opp. lra.
  - pose proof (Qlt_floor x). replace (Qfloor x - z + 1) with ((Qfloor x + 1) - z) by lia.
    unfold Z.sub. rewrite inject_Z_plus, inject_Z_opp. lra.
Qed.

Lemma Qfloor_div_pos (x : Q) (c : positive) :
  Qfloor (x / inject_Z (Zpos c)) = Qfloor x / Zpos c.
Proof.
  destruct x as [n d]. unfold Qdiv, Qinv, Qmult, Qfloor, inject_Z. simpl.
  rewrite Z.mul_1_r.
  rewrite Pos2Z.inj_mul. rewrite Z.div_div by lia. reflexivity.
Qed.

Lemma py_int_inject (z : Z) : py_int (inject_Z z) = z.
Proof. unfold py_int, inject_Z. simpl. apply Z.quot_1_r. Qed.

Lemma py_int_nonneg (q : Q) : (0 <= q)%Q -> py_int q = Qfloor q.
Proof.
  destruct q as [n d]. unfold Qle, py_int, Qfloor. simpl. intros H.
  apply Z.quot_div_nonneg; lia.
Qed.

Lemma py_mod_floor (s : Q) (c : positive) :
  Qfloor (py_mod s (inject_Z (Zpos c))) = Qfloor s mod Zpos c.
Proof.
  unfold py_mod. rewrite Qfloor_div_pos.
  rewrite <- inject_Z_mult. rewrite Qfloor_sub_Z.
  rewrite Z.mod_eq by lia. reflexivity.
Qed.

Lemma py_mod_nonneg (s : Q) (c : positive) :
  (0 <= py_mod s (inject_Z (Zpos c)))%Q.
Proof.
  unfold py_mod.
  pose proof (Qfloor_le (s / inject_Z (Zpos c))) as H.
  assert (Hc : (0 < inject_Z (Zpos c))%Q) by (unfold Qlt, inject_Z; simpl; lia).
  apply (Qmult_le_l _ _ _ Hc) in H.
  assert (E : (inject_Z (Zpos c) * (s / inject_Z (Zpos c)) == s)%Q).
  { field. intro E. rewrite E in Hc. apply (Qlt_irrefl 0), Hc. }
  rewrite E in H. lra.
Qed.

Lemma format_time_parts (s : Q) :
  (0 <= s)%Q ->
  py_int (py_floordiv s 3600) = Qfloor s / 3600 /\
  py_int (py_floordiv (py_mod s 3600) 60) = (Qfloor s mod 3600) / 60 /\
  py_int (py_mod s 60) = Qfloor s mod 60.
Proof.
  intros Hs. unfold py_floordiv. rewrite !py_int_inject.
  change 3600%Q with (inject_Z (Zpos 3600)). change 60%Q with (inject_Z (Zpos 60)).
  rewrite !Qfloor_div_pos, !py_mod_floor.
  rewrite py_int_nonneg by apply py_mod_nonneg.
  rewrite py_mod_floor. auto.
Qed.

Lemma Qfloor_lt_iff (s : Q) (z : Z) : (s < inject_Z z)%Q <-> Qfloor s < z.
Proof.
  split; intros H.
  - rewrite Zlt_Qlt. eapply Qle_lt_trans; [apply Qfloor_le | exact H].
  - eapply Qlt_le_trans; [apply Qlt_floor |]. rewrite <- Zle_Qle. lia.
Qed.

Lemma format_time_units_aux (s : Q) (Hs : (0 <= s)%Q) :
  (s == 0 -> format_time s = "N/A") /\
  ((0 < s)%Q /\ (s < 60)%Q -> format_time s = str_int (Qfloor s) ++ "s") /\
  ((60 <= s)%Q /\ (s < 3600)%Q ->
     format_time s =
       str_int (Qfloor s / 60) ++ "m " ++ str_int (Qfloor s mod 60) ++ "s") /\
  ((3600 <= s)%Q ->
     format_time s =
       str_int (Qfloor s / 3600) ++ "h " ++ str_int (Qfloor s mod 3600 / 60)
         ++ "m " ++ str_int (Qfloor s mod 60) ++ "s").
Proof.
  destruct (format_time_parts s Hs) as (Eh & Em & Es).
  assert (HF : 0 <= Qfloor s).
  { apply (Qfloor_resp_le 0 s Hs). }
  unfold format_time. rewrite Eh, Em, Es.
  repeat split.
  - intros E. apply Qeq_bool_iff in E. rewrite E. reflexivity.
  - intros [Hpos Hlt].
    destruct (Qeq_bool s 0) eqn:E.
    { apply Qeq_bool_iff in E. rewrite E in Hpos. exfalso. apply (Qlt_irrefl 0), Hpos. }
    change 60%Q with (inject_Z 60) in Hlt. apply Qfloor_lt_iff in Hlt.
    rewrite (Z.div_small (Qfloor s) 3600) by lia.
    rewrite (Z.mod_small (Qfloor s) 3600) by lia.
    rewrite (Z.div_small (Qfloor s) 60) by lia.
    rewrite (Z.mod_small (Qfloor s) 60) by lia.
    reflexivity.
  - intros [Hge Hlt].
    destruct (Qeq_bool s 0) eqn:E.
    { apply Qeq_bool_iff in E. rewrite E in Hge. exfalso. revert Hge. unfold Qle. simpl. lia. }
    change 3600%Q with (inject_Z 3600) in Hlt. apply Qfloor_lt_iff in Hlt.
    assert (H60 : 60 <= Qfloor s).
    { apply Z.nlt_ge. intro C. apply Qfloor_lt_iff in C.
      apply (Qlt_irrefl s). eapply Qlt_le_trans; [exact C | exact Hge]. }
    rewrite (Z.div_small (Qfloor s) 3600) by lia.
    rewrite (Z.mod_small (Qfloor s) 3600) by lia.
    assert (0 < Qfloor s / 60) by (apply Z.div_str_pos; lia).
    destruct (0 <? Qfloor s / 60) eqn:E2; [| apply Z.ltb_ge in E2; lia].
    reflexivity.
  - intros Hge.
    destruct (Qeq_bool s 0) eqn:E.
    { apply Qeq_bool_iff in E. rewrite E in Hge. exfalso. revert Hge. unfold Qle. simpl. lia. }
    assert (H3600 : 3600 <= Qfloor s).
    { apply Z.nlt_ge. intro C. apply Qfloor_lt_iff in C.
      apply (Qlt_irrefl s). eapply Qlt_le_trans; [exact C | exact Hge]. }
    assert (0 < Qfloor s / 3600) by (apply Z.div_str_pos; lia).
    destruct (0 <? Qfloor s / 3600) eqn:E2; [| apply Z.ltb_ge in E2; lia].
    reflexivity.
Qed.



Lemma last_char_app (a b : string) :
  b <> "" -> last_char (a ++ b) = last_char b.
Proof.
  intros Hb. induction a as [| c a IH]; simpl; [reflexivity |].
  destruct (a ++ b) eqn:E.
  - destruct a; simpl in E; [contradiction | discriminate].
  - exact IH.
Qed.

Lemma app_nonempty_r (a b : string) : b <> "" -> a ++ b <> "".
Proof. destruct a; simpl; [auto | discriminate]. Qed.

Ltac ends_in_s :=
  repeat (rewrite last_char_app;
          [| repeat (apply app_nonempty_r); discriminate]);
  reflexivity.

(** C10: [format_time] returns the sentinel "N/A" only for an input equal to 0;
    a strictly positive duration below one second (0.5, say) is rendered "0s". *)
Theorem format_time_sentinel_only_zero (s : Q) :
  (format_time s = "N/A" <-> s == 0) /\
  ((0 < s)%Q /\ (s < 1)%Q -> format_time s = "0s").
Proof.
  split.
  - unfold format_time. destruct (Qeq_bool s 0) eqn:E.
    + apply Qeq_bool_iff in E. tauto.
    + split.
      * intros H. apply (f_equal last_char) in H. exfalso. revert H.
        repeat match goal with |- context [if ?b then _ else _] => destruct b end;
          match goal with |- ?l = _ -> _ =>
            assert (Hl : l = Some "s"%char) by ends_in_s; rewrite Hl end;
          discriminate.
      * intros H. apply Qeq_bool_iff in H. congruence.
  - intros [Hpos Hlt].
    assert (Hs : (0 <= s)%Q) by (apply Qlt_le_weak; exact Hpos).
    assert (H60 : (s < 60)%Q) by lra.
    rewrite (proj1 (proj2 (format_time_units_aux s Hs)) (conj Hpos H60)).
    change 1%Q with (inject_Z 1) in Hlt. apply Qfloor_lt_iff in Hlt.
    pose proof (Qfloor_resp_le 0 s Hs) as H0. change (Qfloor 0) with 0 in H0.
    replace (Qfloor s) with 0 by lia. reflexivity.
Qed.

Lemma format_time_sentinel_only_zero_witness :
  format_time (1 # 2) = "0s" /\ format_time (1 # 2) <> "N/A".
Proof.
  destruct (format_time_sentinel_only_zero (1 # 2)) as [Hiff Hsmall]. split.
  - apply Hsmall. split; reflexivity.
  - intros H. apply Hiff in H. discriminate H.
Defined.

Lemma Qltb_lt (a b : Q) : Qltb a b = true <-> (a < b)%Q.
Proof.
  unfold Qltb. rewrite Qlt_alt. destruct (a ?= b)%Q; split; congruence.
Qed.

Lemma scaled_shift (b : Q) (i : nat) : scaled (b / 1024)%Q i = scaled b (S i).
Proof.
  unfold scaled. induction i as [| i IH]; [reflexivity |].
  simpl in *. rewrite IH. reflexivity.
Qed.

Lemma format_bytes_from_spec (us : list string) (b : Q) :
  exists i, (i <= length us)%nat /\
    format_bytes_from us b = fmt2 (scaled b i) ++ " " ++ nth i us "PB" /\
    (forall j, (j < i)%nat -> ~ (scaled b j < 1024)%Q) /\
    ((i < length us)%nat -> (scaled b i < 1024)%Q).
Proof.
  revert b. induction us as [| u us IH]; intros b.
  - exists 0%nat. simpl. repeat split; lia.
  - simpl. destruct (Qltb b 1024) eqn:E.
    + exists 0%nat. simpl. repeat split; try lia.
      intros _. apply Qltb_lt. exact E.
    + destruct (IH (b / 1024)%Q) as (i & Hi & Heq & Hlo & Hhi).
      exists (S i). rewrite scaled_shift in Heq. simpl nth. repeat split.
      * lia.
      * exact Heq.
      * intros [| j] Hj.
        -- simpl. intro C. apply Qltb_lt in C. congruence.
        -- rewrite <- scaled_shift. apply Hlo. lia.
      * intros Hl. rewrite <- scaled_shift. apply Hhi. lia.
Qed.

Lemma round_half_even_near (q : Q) :
  (Qabs (inject_Z (round_half_even q) - q) <= 1 # 2)%Q.
Proof.
  unfold round_half_even.
  pose proof (Qfloor_le q) as Hlo. pose proof (Qlt_floor q) as Hhi.
  rewrite inject_Z_plus in Hhi. change (inject_Z 1) with 1%Q in Hhi.
  destruct (Qcompare_spec (q - inject_Z (Qfloor q)) (1 # 2)) as [E | E | E].
  - destruct (Z.even (Qfloor q));
      [| rewrite inject_Z_plus; change (inject_Z 1) with 1%Q];
      apply Qabs_case; intros; lra.
  - apply Qabs_case; intros; lra.
  - rewrite inject_Z_plus. change (inject_Z 1) with 1%Q.
    apply Qabs_case; intros; lra.
Qed.

Lemma round_half_even_nonneg (q : Q) : (0 <= q)%Q -> 0 <= round_half_even q.
Proof.
  intros H. pose proof (Qfloor_resp_le 0 q H) as H0. change (Qfloor 0) with 0 in H0.
  unfold round_half_even.
  destruct (_ ?= _)%Q; [destruct (Z.even _) | |]; lia.
Qed.

Lemma two_digits_length (d : Z) : 0 <= d < 100 -> String.length (two_digits d) = 2%nat.
Proof.
  intros H.
  assert (A : forallb (fun n => Nat.eqb (String.length (two_digits (Z.of_nat n))) 2)
                (seq 0 100) = true) by (vm_compute; reflexivity).
  rewrite forallb_forall in A.
  specialize (A (Z.to_nat d)). rewrite Z2Nat.id in A by lia.
  apply Nat.eqb_eq, A, in_seq. lia.
Qed.

Lemma fmt2_two_decimals (q : Q) :
  (0 <= q)%Q ->
  exists n : Z,
    0 <= n /\
    fmt2 q = str_int (n / 100) ++ "." ++ two_digits (n mod 100) /\
    String.length (two_digits (n mod 100)) = 2%nat /\
    (Qabs (inject_Z n / 100 - q) <= 1 # 200)%Q.
Proof.
  intros Hq. exists (round_half_even (Qabs q * 100)).
  assert (Ha : Qabs q == q) by (apply Qabs_pos; exact Hq).
  assert (Hn : 0 <= round_half_even (Qabs q * 100)).
  { apply round_half_even_nonneg. rewrite Ha. lra. }
  repeat split.
  - exact Hn.
  - unfold fmt2. destruct (Qltb q 0) eqn:E; [| reflexivity].
    apply Qltb_lt in E. lra.
  - apply two_digits_length. apply Z.mod_pos_bound. lia.
  - pose proof (round_half_even_near (Qabs q * 100)) as H.
    revert H. set (n := round_half_even (Qabs q * 100)). rewrite Ha.
    intros H. apply Qabs_Qle_condition in H. apply Qabs_Qle_condition.
    assert (E : inject_Z n / 100 == inject_Z n * (1 # 100)) by (field).
    rewrite E. lra.
Qed.

Lemma scaled_nonneg (b : Q) (i : nat) : (0 <= b)%Q -> (0 <= scaled b i)%Q.
Proof.
  intros Hb. unfold scaled. induction i as [| i IH]; simpl; [exact Hb |].
  apply Qle_shift_div_l; [reflexivity | lra].
Qed.

Lemma format_bytes_unit_and_digits (b : Q) (Hb : (0 <= b)%Q) :
  exists (i : nat) (n : Z),
    (i <= 5)%nat /\
    (forall j, (j < i)%nat -> ~ (scaled b j < 1024)%Q) /\
    ((i < 5)%nat -> (scaled b i < 1024)%Q) /\
    format_bytes b = fmt2 (scaled b i) ++ " " ++ unit_name i /\
    fmt2 (scaled b i) = str_int (n / 100) ++ "." ++ two_digits (n mod 100) /\
    0 <= n /\
    String.length (two_digits (n mod 100)) = 2%nat /\
    (Qabs (inject_Z n / 100 - scaled b i) <= 1 # 200)%Q.
Proof.
  destruct (format_bytes_from_spec units b) as (i & Hi & Heq & Hlo & Hhi).
  destruct (fmt2_two_decimals (scaled b i) (scaled_nonneg b i Hb))
    as (n & Hn & Hfmt & Hlen & Hnear).
  exists i, n. simpl in Hi, Hhi. repeat split; auto.
Qed.

(** C8, as amended: for every byte count [b] with [0 <= b < 2^53] (the counts
    Python divides without rounding them first), [format_bytes] selects the
    smallest unit among B, KB, MB, GB, TB for which [b], scaled down by
    successive factors of 1024, is strictly less than 1024 (falling through to
    PB otherwise), and renders the scaled value, rounded to two decimal places,
    followed by that unit. *)
Theorem format_bytes_smallest_unit (b : Q)
        (Hb : (0 <= b)%Q) (Hexact : (b < 9007199254740992)%Q) :
  exists (i : nat) (n : Z),
    (i <= 5)%nat /\
    (forall j, (j < i)%nat -> ~ (scaled b j < 1024)%Q) /\
    ((i < 5)%nat -> (scaled b i < 1024)%Q) /\
    format_bytes b = fmt2 (scaled b i) ++ " " ++ unit_name i /\
    fmt2 (scaled b i) = str_int (n / 100) ++ "." ++ two_digits (n mod 100) /\
    0 <= n /\
    String.length (two_digits (n mod 100)) = 2%nat /\
    (Qabs (inject_Z n / 100 - scaled b i) <= 1 # 200)%Q.
Proof. exact (format_bytes_unit_and_digits b Hb). Qed.

Lemma format_bytes_smallest_unit_witness :
  exists (i : nat) (n : Z),
    (i <= 5)%nat /\
    (forall j, (j < i)%nat -> ~ (scaled 1536 j < 1024)%Q) /\
    ((i < 5)%nat -> (scaled 1536 i < 1024)%Q) /\
    format_bytes 1536 = fmt2 (scaled 1536 i) ++ " " ++ unit_name i /\
    fmt2 (scaled 1536 i) = str_int (n / 100) ++ "." ++ two_digits (n mod 100) /\
    0 <= n /\
    String.length (two_digits (n mod 100)) = 2%nat /\
    (Qabs (inject_Z n / 100 - scaled 1536 i) <= 1 # 200)%Q.
Proof.
  apply (format_bytes_smallest_unit 1536); [unfold Qle; simpl; lia | reflexivity].
Defined.

(** C8 as worded fails: 500 bytes are rendered "500.00 B", although 500 scaled
    down to any larger unit is below 1024 too; the largest such unit is PB. *)
Lemma format_bytes_not_largest_unit :
  format_bytes 500 = "500.00 B" /\
  largest_unit_below 500 = 5%nat /\
  ~ format_bytes_largest_unit_claim 500.
Proof.
  split; [vm_compute; reflexivity |].
  split; [vm_compute; reflexivity |].
  unfold format_bytes_largest_unit_claim. vm_compute. discriminate.
Qed.

(** * Logs only grow *)

Lemma appended_refl (P : event -> Prop) (w : World) : appended P w w.
Proof. exists []. split; [reflexivity | constructor]. Qed.

Lemma appended_trans (P : event -> Prop) (w1 w2 w3 : World) :
  appended P w1 w2 -> appended P w2 w3 -> appended P w1 w3.
Proof.
  intros (n1 & E1 & F1) (n2 & E2 & F2). exists (n2 ++ n1)%list. split.
  - rewrite E2, E1. apply app_assoc.
  - apply Forall_app. split; assumption.
Qed.

Lemma appended_events (P : event -> Prop) (new : list event) (w w' : World) :
  log w' = (new ++ log w)%list -> Forall P new -> appended P w w'.
Proof. intros E F. exists new. split; assumption. Qed.

Lemma appended_record (P : event -> Prop) (ev : event) (w w1 : World) :
  P ev -> appended P w w1 -> appended P w (record ev w1).
Proof.
  intros H (new & E & F). exists (ev :: new). split.
  - simpl. rewrite E. reflexivity.
  - constructor; assumption.
Qed.

Lemma appended_same_log (P : event -> Prop) (w w1 w2 : World) :
  log w2 = log w1 -> appended P w w1 -> appended P w w2.
Proof. intros E0 (new & E & F). exists new. rewrite E0. split; assumption. Qed.

Lemma appended_log_eq (P : event -> Prop) (w w' : World) :
  log w' = log w -> appended P w w'.
Proof. intros E. exists []. split; [exact E | constructor]. Qed.

Lemma appended_cons (P : event -> Prop) (ev : event) (w : World)
      c q s sg ts nh l hs :
  P ev -> appended P w (mk_world c q s sg ts nh l hs) ->
  appended P w (mk_world c q s sg ts nh (ev :: l) hs).
Proof. apply (appended_record P ev w (mk_world c q s sg ts nh l hs)). Qed.

Ltac appended_steps :=
  repeat first
    [ apply appended_refl
    | apply appended_log_eq; reflexivity
    | apply appended_cons; [try reflexivity; try exact I |]
    | apply appended_record; [try reflexivity; try exact I |]
    | apply (appended_same_log _ _ _ (answered _) eq_refl)
    | apply (appended_same_log _ _ _ (slept _ _) eq_refl)
    | apply (appended_same_log _ _ _ (set_sigint _ _) eq_refl)
    | apply (appended_same_log _ _ _ (set_torrents _ _ _) eq_refl)
    | apply (appended_same_log _ _ _ (set_info_hash _ _ _) eq_refl) ].

(** * Relational invariants of arbitrary runs (interrupts and faults included) *)

Section Respects.

Variable env : Env.
Variable R : World -> World -> Prop.
Variable ok : event -> Prop.
Hypothesis laws : Laws R ok.

Lemma respects_ret {A} (V : A -> Prop) (a : A) : V a -> respects R V (ret a).
Proof.
  intros Ha w r w' E. inversion E; subst. split; [apply (law_refl R ok laws) |].
  intros a' Ea. inversion Ea; subst. exact Ha.
Qed.

Lemma respects_raise {A} (V : A -> Prop) (e : exn) : respects R V (raise e).
Proof.
  intros w r w' E. inversion E; subst. split; [apply (law_refl R ok laws) | discriminate].
Qed.

Lemma respects_out_of_fuel {A} (V : A -> Prop) : respects R V (@out_of_fuel A).
Proof.
  intros w r w' E. inversion E; subst. split; [apply (law_refl R ok laws) | discriminate].
Qed.

Lemma respects_weaken {A} (V V' : A -> Prop) (m : M A) :
  (forall a, V a -> V' a) -> respects R V m -> respects R V' m.
Proof.
  intros HV Hm w r w' E. destruct (Hm w r w' E) as [HR Ha].
  split; [exact HR | intros a Ea; apply HV, Ha, Ea].
Qed.

Lemma respects_bind {A B} (V1 : A -> Prop) (V2 : B -> Prop)
      (m : M A) (k : A -> M B) :
  respects R V1 m -> (forall a, V1 a -> respects R V2 (k a)) ->
  respects R V2 (bind m k).
Proof.
  intros Hm Hk w r w' E. unfold bind in E.
  destruct (m w) as [[a | e |] w1] eqn:Em;
    destruct (Hm _ _ _ Em) as [HR Ha].
  - destruct (Hk a (Ha a eq_refl) _ _ _ E) as [HR' Hb].
    split; [eapply (law_trans R ok laws); eassumption | exact Hb].
  - inversion E; subst. split; [exact HR | discriminate].
  - inversion E; subst. split; [exact HR | discriminate].
Qed.

Lemma respects_time_time : respects R anything time_time.
Proof.
  intros w r w' E. inversion E; subst. split; [apply (law_refl R ok laws) | intros; exact I].
Qed.

Lemma respects_effect {A} (V : A -> Prop) (act : World -> res A * World) :
  respects R V act -> respects R V (effect act).
Proof.
  intros Hact w r w' E. unfold effect in E.
  destruct (sigint w) as [[| n] |].
  - inversion E; subst. split; [| discriminate].
    eapply (law_trans R ok laws); [apply (law_sigint R ok laws) | apply (law_record R ok laws), (law_struck R ok laws)].
  - destruct (Hact _ _ _ E) as [HR Ha]. split; [| exact Ha].
    eapply (law_trans R ok laws); [apply (law_sigint R ok laws) | exact HR].
  - exact (Hact _ _ _ E).
Qed.

Lemma respects_emit (ev : event) : ok ev -> respects R anything (emit ev).
Proof.
  intros Hev. apply respects_effect. intros w r w' E. inversion E; subst.
  split; [apply (law_record R ok laws), Hev | intros; exact I].
Qed.

Lemma respects_print (m : message) : ok (EvPrint m) -> respects R anything (print m).
Proof. apply respects_emit. Qed.

Lemma respects_sleep (secs : Q) :
  ok (EvSleep secs) -> respects R anything (time_sleep env secs).
Proof.
  intros Hev. apply respects_effect. intros w r w' E. inversion E; subst.
  split; [| intros; exact I].
  eapply (law_trans R ok laws); [apply (law_slept R ok laws) | apply (law_record R ok laws), Hev].
Qed.

Lemma respects_status (h : handle) :
  ok EvEngineFault ->
  (forall t s, (from_engine env) s -> ok (EvStatus h t s)) ->
  respects R (from_engine env) (handle_status env h).
Proof.
  intros Hf Hs. apply respects_effect. intros w r w' E.
  destruct (engine env (queries w)) as [s |] eqn:Eq; inversion E; subst.
  - split.
    + eapply (law_trans R ok laws); [apply (law_answered R ok laws) | apply (law_record R ok laws), Hs]. exists (queries w).
      exact Eq.
    + intros a Ea. inversion Ea; subst. exists (queries w). exact Eq.
  - split; [| discriminate].
    eapply (law_trans R ok laws); [apply (law_answered R ok laws) | apply (law_record R ok laws), Hf].
Qed.

Lemma respects_is_seed (h : handle) :
  ok EvEngineFault ->
  (forall t b, ok (EvIsSeed h t b)) ->
  respects R anything (handle_is_seed env h).
Proof.
  intros Hf Hs. apply respects_effect. intros w r w' E.
  destruct (engine env (queries w)) as [s |] eqn:Eq; inversion E; subst.
  - split; [| intros; exact I].
    eapply (law_trans R ok laws); [apply (law_answered R ok laws) | apply (law_record R ok laws), Hs].
  - split; [| discriminate].
    eapply (law_trans R ok laws); [apply (law_answered R ok laws) | apply (law_record R ok laws), Hf].
Qed.

Lemma respects_try_except {A} (V : A -> Prop) (body : M A)
      (handler : exn -> option (M A)) :
  respects R V body ->
  (forall e h, handler e = Some h -> respects R V h) ->
  respects R V (try_except body handler).
Proof.
  intros Hb Hh w r w' E. unfold try_except in E.
  destruct (body w) as [[a | e |] w1] eqn:Eb;
    destruct (Hb _ _ _ Eb) as [HR Ha].
  - inversion E; subst. split; [exact HR | exact Ha].
  - destruct (handler e) as [h |] eqn:Eh.
    + destruct (Hh e h Eh _ _ _ E) as [HR' Ha'].
      split; [eapply (law_trans R ok laws); eassumption | exact Ha'].
    + inversion E; subst. split; [exact HR | discriminate].
  - inversion E; subst. split; [exact HR | discriminate].
Qed.

Lemma respects_try_finally {A} (V : A -> Prop) (body : M A) (final : M unit) :
  respects R V body -> respects R anything final ->
  respects R V (try_finally body final).
Proof.
  intros Hb Hf w r w' E. unfold try_finally in E.
  destruct (body w) as [[a | e |] w1] eqn:Eb;
    destruct (Hb _ _ _ Eb) as [HR Ha].
  - destruct (final w1) as [[u | e' |] w2] eqn:Ef;
      destruct (Hf _ _ _ Ef) as [HR' _]; inversion E; subst;
      (split; [eapply (law_trans R ok laws); eassumption |]); try discriminate.
    exact Ha.
  - destruct (final w1) as [[u | e' |] w2] eqn:Ef;
      destruct (Hf _ _ _ Ef) as [HR' _]; inversion E; subst;
      (split; [eapply (law_trans R ok laws); eassumption |]); discriminate.
  - inversion E; subst. split; [exact HR | discriminate].
Qed.

Lemma respects_for_each {A} (xs : list A) (body : A -> M unit) :
  (forall x, respects R anything (body x)) ->
  respects R anything (for_each xs body).
Proof.
  intros Hb. induction xs as [| x xs IH]; simpl.
  - apply respects_ret. exact I.
  - eapply respects_bind; [apply Hb | intros _ _; exact IH].
Qed.

Lemma respects_parse (magnet_link : string) :
  respects R anything (lt_parse_magnet_uri env magnet_link).
Proof.
  unfold lt_parse_magnet_uri. destruct (parse_magnet_uri env magnet_link).
  - apply respects_ret. exact I.
  - apply respects_raise.
Qed.

End Respects.

Section RespectsLoops.

Variable env : Env.
Variable R : World -> World -> Prop.
Variable ok : event -> Prop.
Hypothesis laws : Laws R ok.
Hypothesis ok_honest : forall e, honest env e -> ok e.

Ltac honest_event := apply ok_honest; simpl; auto.

Lemma respects_status_any (h : handle) :
  respects R (from_engine env) (handle_status env h).
Proof.
  apply (respects_status env R ok laws); [honest_event | intros; honest_event].
Qed.

Lemma respects_is_seed_any (h : handle) :
  respects R anything (handle_is_seed env h).
Proof.
  apply (respects_is_seed env R ok laws); [honest_event | intros; honest_event].
Qed.

Lemma respects_sleep_any (secs : Q) : respects R anything (time_sleep env secs).
Proof. apply (respects_sleep env R ok laws). honest_event. Qed.

Lemma respects_print_any (m : message) : respects R anything (print m).
Proof. apply (respects_print R ok laws). honest_event. Qed.

Lemma respects_download_wait_metadata (fuel : nat) (h : handle) (timeout start : Q) :
  respects R anything (download_wait_metadata env fuel h timeout start).
Proof.
  induction fuel as [| fuel IH]; simpl.
  - apply (respects_out_of_fuel R ok laws).
  - eapply (respects_bind R ok laws); [apply respects_status_any |].
    intros st _. destruct (has_metadata st); [apply (respects_ret R ok laws); exact I |].
    eapply (respects_bind R ok laws); [apply (respects_time_time R ok laws) |].
    intros now _. destruct (Qltb timeout (now - start));
      [apply (respects_raise R ok laws) |].
    eapply (respects_bind R ok laws); [apply respects_status_any |].
    intros status _.
    eapply (respects_bind R ok laws).
    { destruct (0 <? num_peers status);
        [apply respects_print_any | apply (respects_ret R ok laws); exact I]. }
    intros _ _.
    eapply (respects_bind R ok laws); [apply respects_sleep_any |].
    intros _ _. exact IH.
Qed.

Lemma respects_get_info_wait_metadata (fuel : nat) (h : handle) (timeout start : Q) :
  respects R anything (get_info_wait_metadata env fuel h timeout start).
Proof.
  induction fuel as [| fuel IH]; simpl.
  - apply (respects_out_of_fuel R ok laws).
  - eapply (respects_bind R ok laws); [apply respects_status_any |].
    intros st _. destruct (has_metadata st); [apply (respects_ret R ok laws); exact I |].
    eapply (respects_bind R ok laws); [apply (respects_time_time R ok laws) |].
    intros now _. destruct (Qltb timeout (now - start));
      [apply (respects_raise R ok laws) |].
    eapply (respects_bind R ok laws); [apply respects_sleep_any |].
    intros _ _. exact IH.
Qed.

Lemma respects_download_loop (fuel : nat) (h : handle) (on_progress : bool) :
  respects R anything (download_loop env fuel h on_progress).
Proof.
  induction fuel as [| fuel IH]; simpl.
  - apply (respects_out_of_fuel R ok laws).
  - eapply (respects_bind R ok laws); [apply respects_is_seed_any |].
    intros seed _. destruct seed; [apply (respects_ret R ok laws); exact I |].
    eapply (respects_bind R ok laws); [apply respects_status_any |].
    intros status Hstatus.
    eapply (respects_bind R ok laws).
    { destruct on_progress;
        [apply (respects_emit R ok laws), ok_honest; exists status; auto
        | apply (respects_ret R ok laws); exact I]. }
    intros _ _.
    eapply (respects_bind R ok laws); [apply respects_sleep_any |].
    intros _ _. exact IH.
Qed.

Lemma respects_cli_wait_metadata (fuel : nat) (h : handle) (timeout start : Q) :
  forall last_peer_count,
    respects R anything
             (cli_wait_metadata env fuel h timeout start last_peer_count).
Proof.
  induction fuel as [| fuel IH]; intros lpc; simpl.
  - apply (respects_out_of_fuel R ok laws).
  - eapply (respects_bind R ok laws); [apply respects_status_any |].
    intros st _. destruct (has_metadata st); [apply (respects_ret R ok laws); exact I |].
    eapply (respects_bind R ok laws); [apply (respects_time_time R ok laws) |].
    intros now _. destruct (Qltb timeout (now - start)).
    { eapply (respects_bind R ok laws); [apply respects_print_any |]. intros _ _.
      eapply (respects_bind R ok laws); [apply respects_print_any |]. intros _ _.
      apply (respects_ret R ok laws). exact I. }
    eapply (respects_bind R ok laws); [apply respects_status_any |].
    intros status _.
    eapply (respects_bind R ok laws) with (V1 := anything).
    { destruct (negb (num_peers status =? lpc) && (0 <? num_peers status)).
      - eapply (respects_bind R ok laws); [apply respects_print_any |]. intros _ _.
        apply (respects_ret R ok laws). exact I.
      - apply (respects_ret R ok laws). exact I. }
    intros lpc' _.
    eapply (respects_bind R ok laws); [apply respects_sleep_any |].
    intros _ _. apply IH.
Qed.

Lemma respects_cli_download_loop (fuel : nat) (h : handle) :
  forall last_progress pbar_n,
    respects R anything (cli_download_loop env fuel h last_progress pbar_n).
Proof.
  induction fuel as [| fuel IH]; intros last_progress pbar_n; simpl.
  - apply (respects_out_of_fuel R ok laws).
  - eapply (respects_bind R ok laws); [apply respects_is_seed_any |].
    intros seed _. destruct seed; [apply (respects_ret R ok laws); exact I |].
    eapply (respects_bind R ok laws); [apply respects_status_any |].
    intros status _.
    eapply (respects_bind R ok laws) with (V1 := anything).
    { destruct (Qltb last_progress (progress status * 100)).
      - eapply (respects_bind R ok laws);
          [apply (respects_emit R ok laws); honest_event |].
        intros _ _. apply (respects_ret R ok laws). exact I.
      - apply (respects_ret R ok laws). exact I. }
    intros [last' n'] _.
    eapply (respects_bind R ok laws);
      [apply (respects_emit R ok laws); honest_event |].
    intros _ _.
    eapply (respects_bind R ok laws); [apply respects_sleep_any |].
    intros _ _. apply IH.
Qed.

End RespectsLoops.

(** * The progress monitor *)

Section Monitor.

Variable env : Env.

Lemma download_loop_counts (k : nat) :
  forall (fuel : nat) (h : handle) (w : World),
    sigint w = None ->
    (forall j, (j < k)%nat ->
       exists s, engine env (queries w + 2 * j) = Reply s /\ is_seeding s = false) ->
    (forall j, (j < k)%nat ->
       exists s, engine env (queries w + 2 * j + 1) = Reply s) ->
    (exists s, engine env (queries w + 2 * k) = Reply s /\ is_seeding s = true) ->
    (k < fuel)%nat ->
    exists w',
      download_loop env fuel h true w = (Val tt, w') /\
      count_on_progress (log w') = (count_on_progress (log w) + k)%nat /\
      queries w' = (queries w + 2 * k + 1)%nat /\
      sleeps w' = (sleeps w + k)%nat /\
      sigint w' = None.
Proof.
  induction k as [| k IH]; intros fuel h w Hsig Hseed Hstat Hend Hfuel.
  - destruct fuel as [| fuel]; [lia |].
    destruct Hend as (s & Hs & Hseeding).
    rewrite Nat.mul_0_r, Nat.add_0_r in Hs.
    destruct w as [c q sl sg ts nh lg]. simpl in *. subst sg.
    unfold bind, handle_is_seed, effect. simpl. rewrite Hs, Hseeding. simpl.
    eexists. split; [reflexivity |]. simpl. repeat split; lia.
  - destruct fuel as [| fuel]; [lia |].
    destruct (Hseed 0%nat ltac:(lia)) as (s0 & Hs0 & Hns0).
    destruct (Hstat 0%nat ltac:(lia)) as (s1 & Hs1).
    rewrite Nat.mul_0_r, Nat.add_0_r in Hs0.
    rewrite Nat.mul_0_r, Nat.add_0_r in Hs1.
    destruct w as [c q sl sg ts nh lg]. simpl in *. subst sg.
    unfold bind, handle_is_seed, handle_status, emit, time_sleep, effect. simpl.
    rewrite Hs0, Hns0. simpl. rewrite Nat.add_1_r in Hs1. rewrite Hs1. simpl.
    fold (download_loop env fuel h true).
    match goal with |- context [download_loop env fuel h true ?w1] =>
      destruct (IH fuel h w1) as (w' & Hrun & Hcount & Hq & Hsl & Hsg)
    end; simpl.
    + reflexivity.
    + intros j Hj. destruct (Hseed (S j) ltac:(lia)) as (s & Hs & Hn).
      exists s. split; [| exact Hn]. rewrite <- Hs. f_equal. lia.
    + intros j Hj. destruct (Hstat (S j) ltac:(lia)) as (s & Hs).
      exists s. rewrite <- Hs. f_equal. lia.
    + destruct Hend as (s & Hs & Hn). exists s. split; [| exact Hn].
      rewrite <- Hs. f_equal. lia.
    + lia.
    + exists w'. split; [exact Hrun |]. simpl in *.
      rewrite Hcount, Hq, Hsl. repeat split; try lia. exact Hsg.
Qed.

End Monitor.

(** * The metadata deadline *)

Lemma Qltb_false (a b : Q) : Qltb a b = false <-> ~ (a < b)%Q.
Proof.
  rewrite <- Qltb_lt. destruct (Qltb a b); split; congruence.
Qed.

Section Resolver.

Variable env : Env.

Lemma download_wait_times_out (n : nat) :
  forall (fuel : nat) (h : handle) (start : Q) (w : World),
    sigint w = None ->
    (forall i, (i <= n)%nat ->
       exists s, engine env (queries w + 2 * i) = Reply s /\ has_metadata s = false) ->
    (forall i, (i < n)%nat ->
       exists s, engine env (queries w + 2 * i + 1) = Reply s) ->
    (forall i, (i < n)%nat ->
       ~ (60 < clock_after (lap env) (clock w) (sleeps w) i - start)%Q) ->
    (60 < clock_after (lap env) (clock w) (sleeps w) n - start)%Q ->
    (n < fuel)%nat ->
    exists w',
      download_wait_metadata env fuel h 60 start w = (Raise TimeoutError, w') /\
      resolving_only w w' /\
      sleeps w' = (sleeps w + n)%nat /\
      queries w' = (queries w + 2 * n + 1)%nat /\
      torrents w' = torrents w /\
      sigint w' = None.
Proof.
  induction n as [| n IH]; intros fuel h start w Hsig Hcond Hstat Hearly Hlate Hfuel;
    (destruct fuel as [| fuel]; [lia |]);
    destruct (Hcond 0%nat ltac:(lia)) as (s0 & Hs0 & Hm0);
    rewrite Nat.mul_0_r, Nat.add_0_r in Hs0;
    destruct w as [c q sl sg ts nh lg];
    cbn [clock queries sleeps sigint torrents next_handle log] in *; subst sg.
  - cbn [download_wait_metadata].
    unfold bind, handle_status, time_time, effect. simpl. rewrite Hs0, Hm0. simpl.
    cbn [clock_after] in Hlate. apply Qltb_lt in Hlate. rewrite Hlate.
    eexists. split; [reflexivity |]. simpl.
    repeat split; try lia.
    appended_steps.
  - destruct (Hstat 0%nat ltac:(lia)) as (s1 & Hs1).
    rewrite Nat.mul_0_r, Nat.add_0_r, Nat.add_1_r in Hs1.
    pose proof (Hearly 0%nat ltac:(lia)) as Hnow. cbn [clock_after] in Hnow.
    apply Qltb_false in Hnow.
    cbn [download_wait_metadata].
    unfold bind, handle_status, time_time, print, emit, time_sleep, effect. simpl.
    rewrite Hs0, Hm0. simpl. rewrite Hnow. simpl. rewrite Hs1. simpl.
    fold (download_wait_metadata env fuel h 60 start).
    assert (Hrest :
      forall w1, sigint w1 = None -> clock w1 = (c + lap env sl)%Q ->
        sleeps w1 = S sl -> queries w1 = S (S q) ->
        exists w',
          download_wait_metadata env fuel h 60 start w1 = (Raise TimeoutError, w') /\
          resolving_only w1 w' /\
          sleeps w' = (sleeps w1 + n)%nat /\
          queries w' = (queries w1 + 2 * n + 1)%nat /\
          torrents w' = torrents w1 /\ sigint w' = None).
    { intros w1 Hsg Hc Hsl Hq. apply IH; try assumption.
      - intros i Hi. rewrite Hq. destruct (Hcond (S i) ltac:(lia)) as (s & Hs & Hm).
        exists s. split; [| exact Hm]. rewrite <- Hs. f_equal. lia.
      - intros i Hi. rewrite Hq. destruct (Hstat (S i) ltac:(lia)) as (s & Hs).
        exists s. rewrite <- Hs. f_equal. lia.
      - intros i Hi. rewrite Hc, Hsl. apply (Hearly (S i)). lia.
      - rewrite Hc, Hsl. exact Hlate.
      - lia. }
    destruct (0 <? num_peers s1); simpl;
      match goal with |- context [download_wait_metadata env fuel h 60 start ?w1] =>
        destruct (Hrest w1) as (w' & Hrun & Hres & Hsl & Hq & Hts & Hsg);
          try reflexivity;
          exists w'; (split; [exact Hrun |]);
          (split; [eapply appended_trans; [| exact Hres]; appended_steps |])
      end; simpl in *; rewrite Hsl, Hq; repeat split; try lia; assumption.
Qed.

Lemma download_times_out
        (download_path magnet_link : string) (on_progress on_metadata : bool)
        (fuel n : nat) (w : World) :
  sigint w = None ->
  parse_magnet_uri env magnet_link <> None ->
  no_metadata_through env w n ->
  deadline_cycle env w 60 n ->
  (n < fuel)%nat ->
  exists w',
    download env download_path magnet_link on_progress on_metadata fuel w
      = (Raise TimeoutError, w') /\
    resolving_only w w' /\
    sleeps w' = (sleeps w + n)%nat.
Proof.
  intros Hsig Hparse [Hcond Hstat] [Hearly Hlate] Hfuel.
  destruct (parse_magnet_uri env magnet_link) as [p |] eqn:Ep; [| congruence].
  unfold download, download_resolve, lt_parse_magnet_uri. rewrite Ep.
  destruct (find_torrent (info_hash p) w) as [h0 |] eqn:Efind; quiet;
    match goal with
    | |- context [bind (download_wait_metadata env fuel ?h 60 ?st) _ ?w1] =>
      destruct (download_wait_times_out n fuel h st w1)
        as (w' & Hrun & Hres & Hsl & _); try assumption
    end;
    rewrite (bind_fail _ _ _ _ _ Hrun);
    exists w'; (split; [reflexivity |]); (split; [| exact Hsl]);
    (eapply appended_trans; [| exact Hres]); appended_steps.
Qed.

Lemma cli_wait_times_out (n : nat) :
  forall (fuel : nat) (h : handle) (start : Q) (last_peer_count : Z) (w : World),
    sigint w = None ->
    (forall i, (i <= n)%nat ->
       exists s, engine env (queries w + 2 * i) = Reply s /\ has_metadata s = false) ->
    (forall i, (i < n)%nat ->
       exists s, engine env (queries w + 2 * i + 1) = Reply s) ->
    (forall i, (i < n)%nat ->
       ~ (60 < clock_after (lap env) (clock w) (sleeps w) i - start)%Q) ->
    (60 < clock_after (lap env) (clock w) (sleeps w) n - start)%Q ->
    (n < fuel)%nat ->
    exists w',
      cli_wait_metadata env fuel h 60 start last_peer_count w = (Val false, w') /\
      resolving_only w w' /\
      sleeps w' = (sleeps w + n)%nat /\
      queries w' = (queries w + 2 * n + 1)%nat /\
      torrents w' = torrents w /\
      sigint w' = None /\
      (exists l, log w' = EvPrint MsgDeadHint :: EvPrint MsgTimeout :: l).
Proof.
  induction n as [| n IH];
    intros fuel h start lpc w Hsig Hcond Hstat Hearly Hlate Hfuel;
    (destruct fuel as [| fuel]; [lia |]);
    destruct (Hcond 0%nat ltac:(lia)) as (s0 & Hs0 & Hm0);
    rewrite Nat.mul_0_r, Nat.add_0_r in Hs0;
    destruct w as [c q sl sg ts nh lg];
    cbn [clock queries sleeps sigint torrents next_handle log] in *; subst sg.
  - cbn [cli_wait_metadata].
    unfold bind, handle_status, time_time, print, emit, effect. simpl.
    rewrite Hs0, Hm0. simpl.
    cbn [clock_after] in Hlate. apply Qltb_lt in Hlate. rewrite Hlate.
    eexists. split; [reflexivity |]. simpl.
    split; [appended_steps |].
    split; [lia |]. split; [lia |]. split; [reflexivity |]. split; [reflexivity |].
    eexists; reflexivity.
  - destruct (Hstat 0%nat ltac:(lia)) as (s1 & Hs1).
    rewrite Nat.mul_0_r, Nat.add_0_r, Nat.add_1_r in Hs1.
    pose proof (Hearly 0%nat ltac:(lia)) as Hnow. cbn [clock_after] in Hnow.
    apply Qltb_false in Hnow.
    cbn [cli_wait_metadata].
    unfold bind, handle_status, time_time, print, emit, time_sleep, effect. simpl.
    rewrite Hs0, Hm0. simpl. rewrite Hnow. simpl. rewrite Hs1. simpl.
    fold (cli_wait_metadata env fuel h 60 start).
    assert (Hrest :
      forall lpc' w1, sigint w1 = None -> clock w1 = (c + lap env sl)%Q ->
        sleeps w1 = S sl -> queries w1 = S (S q) ->
        exists w',
          cli_wait_metadata env fuel h 60 start lpc' w1 = (Val false, w') /\
          resolving_only w1 w' /\
          sleeps w' = (sleeps w1 + n)%nat /\
          queries w' = (queries w1 + 2 * n + 1)%nat /\
          torrents w' = torrents w1 /\ sigint w' = None /\
          (exists l, log w' = EvPrint MsgDeadHint :: EvPrint MsgTimeout :: l)).
    { intros lpc' w1 Hsg Hc Hsl Hq. apply IH; try assumption.
      - intros i Hi. rewrite Hq. destruct (Hcond (S i) ltac:(lia)) as (s & Hs & Hm).
        exists s. split; [| exact Hm]. rewrite <- Hs. f_equal. lia.
      - intros i Hi. rewrite Hq. destruct (Hstat (S i) ltac:(lia)) as (s & Hs).
        exists s. rewrite <- Hs. f_equal. lia.
      - intros i Hi. rewrite Hc, Hsl. apply (Hearly (S i)). lia.
      - rewrite Hc, Hsl. exact Hlate.
      - lia. }
    destruct (negb (num_peers s1 =? lpc) && (0 <? num_peers s1)); simpl;
      match goal with |- context [cli_wait_metadata env fuel h 60 start ?l ?w1] =>
        destruct (Hrest l w1) as (w' & Hrun & Hres & Hsl & Hq & Hts & Hsg & Hmsg);
          try reflexivity;
          exists w'; (split; [exact Hrun |]);
          (split; [eapply appended_trans; [| exact Hres]; appended_steps |])
      end; simpl in *; rewrite Hsl, Hq;
      (split; [lia |]); (split; [lia |]); (split; [assumption |]);
      (split; assumption).
Qed.

Lemma try_except_Val {A} (body : M A) (handler : exn -> option (M A))
      (w w1 : World) (a : A) :
  body w = (Val a, w1) -> try_except body handler w = (Val a, w1).
Proof. unfold try_except. intros ->. reflexivity. Qed.

Lemma download_torrent_times_out
      (magnet_link download_path : string) (fuel n : nat) (w : World) :
  sigint w = None ->
  parse_magnet_uri env magnet_link <> None ->
  no_metadata_through env w n ->
  deadline_cycle env w 60 n ->
  (n < fuel)%nat ->
  exists w',
    download_torrent env magnet_link download_path fuel w = (Val tt, w') /\
    resolving_only w w' /\
    sleeps w' = (sleeps w + n)%nat /\
    In (EvPrint MsgTimeout) (log w').
Proof.
  intros Hsig Hparse [Hcond Hstat] [Hearly Hlate] Hfuel.
  destruct (parse_magnet_uri env magnet_link) as [p |] eqn:Ep; [| congruence].
  unfold download_torrent, cli_resolve, ensure_directory, start_services,
    lt_parse_magnet_uri.
  rewrite Ep.
  destruct (find_torrent (info_hash p) w) as [h0 |] eqn:Efind;
    destruct (path_exists env download_path); quiet;
    (erewrite (bind_run (try_except _ _));
       [| apply try_except_Val; quiet; reflexivity]); world_simpl; quiet;
    match goal with
    | |- context [bind (cli_wait_metadata env fuel ?h 60 ?st ?l) _ ?w1] =>
      destruct (cli_wait_times_out n fuel h st l w1)
        as (w' & Hrun & Hres & Hsl & _ & _ & _ & (l0 & Hmsg));
        [assumption | assumption | assumption | assumption | assumption
        | assumption |]
    end;
    rewrite (bind_run _ _ _ _ _ Hrun); cbn [negb]; world_simpl; quiet;
    exists w'; (split; [reflexivity |]);
    (split; [eapply appended_trans; [| exact Hres]; appended_steps |]);
    (split; [exact Hsl |]);
    rewrite Hmsg; right; left; reflexivity.
Qed.

End Resolver.

Lemma below_checked (P : nat -> bool) (n : nat) :
  forallb P (seq 0 n) = true -> forall i, (i < n)%nat -> P i = true.
Proof.
  intros H i Hi. rewrite forallb_forall in H. apply H, in_seq. lia.
Qed.

(** C2, as amended: if every status poll of the resolution loop, up to and
    including the first poll made after more than 60 seconds have elapsed,
    reports no metadata, then [download] raises [TimeoutError] and
    [download_torrent] prints the timeout and returns; in both the download
    phase is never entered. *)
Theorem metadata_timeout_fails
        (env : Env) (download_path magnet_link : string)
        (on_progress on_metadata : bool) (fuel n : nat) (w : World) :
  sigint w = None ->
  parse_magnet_uri env magnet_link <> None ->
  no_metadata_through env w n ->
  deadline_cycle env w 60 n ->
  (n < fuel)%nat ->
  (exists w',
     download env download_path magnet_link on_progress on_metadata fuel w
       = (Raise TimeoutError, w') /\
     resolving_only w w' /\
     sleeps w' = (sleeps w + n)%nat) /\
  (exists w',
     download_torrent env magnet_link download_path fuel w = (Val tt, w') /\
     resolving_only w w' /\
     sleeps w' = (sleeps w + n)%nat /\
     In (EvPrint MsgTimeout) (log w')).
Proof.
  intros Hsig Hparse Hquiet Hdead Hfuel. split.
  - apply download_times_out; assumption.
  - apply download_torrent_times_out; assumption.
Qed.

Lemma dead_engine_silent (w : World) (n : nat) :
  no_metadata_through (sample_env dead_engine) w n.
Proof.
  split; intros i Hi; exists st_waiting; [split |]; reflexivity.
Qed.

Lemma dead_engine_deadline :
  deadline_cycle (sample_env dead_engine) (initial_world 0 None) 60 61.
Proof.
  split.
  - intros i Hi. apply Qltb_false.
    apply negb_true_iff.
    apply (below_checked
             (fun i => negb (Qltb 60 (clock_after (fun _ => 1%Q) 0 0 i - 0))) 61);
      [vm_compute; reflexivity | exact Hi].
  - apply Qltb_lt. vm_compute. reflexivity.
Qed.

Lemma metadata_timeout_fails_witness :
  (exists w',
     download (sample_env dead_engine) default_download_path sample_magnet true true 62
              (initial_world 0 None)
       = (Raise TimeoutError, w') /\
     resolving_only (initial_world 0 None) w' /\
     sleeps w' = (0 + 61)%nat) /\
  (exists w',
     download_torrent (sample_env dead_engine) sample_magnet default_download_path 62
                      (initial_world 0 None) = (Val tt, w') /\
     resolving_only (initial_world 0 None) w' /\
     sleeps w' = (0 + 61)%nat /\
     In (EvPrint MsgTimeout) (log w')).
Proof.
  refine (metadata_timeout_fails (sample_env dead_engine) default_download_path
            sample_magnet true true 62 61 (initial_world 0 None)
            eq_refl _ (dead_engine_silent _ _) dead_engine_deadline _).
  - vm_compute. discriminate.
  - lia.
Defined.

(** C2 as worded fails: the loop tests [has_metadata] before it tests the
    clock, so metadata first reported at the poll that follows the deadline is
    accepted and the download phase is entered. *)
Lemma metadata_after_deadline_accepted :
  ~ metadata_timeout_claim (sample_env late_engine) default_download_path
      sample_magnet 100 (initial_world 0 None).
Proof.
  unfold metadata_timeout_claim. intros H.
  assert (Hseen : metadata_seen_by
                    (clock (initial_world 0 None) + 60)
                    (log (snd (download (sample_env late_engine) default_download_path
                                        sample_magnet true true 100
                                        (initial_world 0 None)))) = false)
    by (vm_compute; reflexivity).
  destruct (H Hseen) as [Hr _]. vm_compute in Hr. discriminate.
Qed.

Lemma appended_laws (P : event -> Prop) : P EvSigint -> Laws (appended P) P.
Proof.
  intros HP. constructor.
  - apply appended_refl.
  - apply appended_trans.
  - intros s w. apply appended_log_eq. reflexivity.
  - intros ev w H. apply appended_record; [exact H | apply appended_refl].
  - intros w. apply appended_log_eq. reflexivity.
  - intros d w. apply appended_log_eq. reflexivity.
  - exact HP.
Qed.

Lemma respects_add_torrent (P : event -> Prop) (p : add_torrent_params) :
  P EvSigint -> (forall h, P (EvAddTorrent h p)) ->
  respects (appended P) anything (session_add_torrent p).
Proof.
  intros HP Hp. apply (respects_effect _ _ (appended_laws P HP)).
  intros w r w' E. destruct (find_torrent (info_hash p) w); inversion E; subst;
    (split; [| intros; exact I]);
    (apply appended_record; [apply Hp |]); apply appended_log_eq; reflexivity.
Qed.

Lemma respects_remove_torrent (P : event -> Prop) (h : handle) :
  P EvSigint -> P (EvRemoveTorrent h) ->
  respects (appended P) anything (session_remove_torrent h).
Proof.
  intros HP Hp. apply (respects_effect _ _ (appended_laws P HP)).
  intros w r w' E. inversion E; subst. split; [| intros; exact I].
  apply appended_record; [apply Hp |]. apply appended_log_eq. reflexivity.
Qed.

Section LoopEvents.

Variable env : Env.
Variable R : World -> World -> Prop.
Variable ok : event -> Prop.
Hypothesis laws : Laws R ok.
Hypothesis ok_fault : ok EvEngineFault.
Hypothesis ok_status : forall h t s, ok (EvStatus h t s).
Hypothesis ok_is_seed : forall h t b, ok (EvIsSeed h t b).
Hypothesis ok_sleep : forall secs, ok (EvSleep secs).
Hypothesis ok_print : forall m, ok (EvPrint m).

Lemma loop_status (h : handle) : respects R (from_engine env) (handle_status env h).
Proof. apply (respects_status env _ _ laws); [exact ok_fault | intros; apply ok_status]. Qed.

Lemma loop_is_seed (h : handle) : respects R anything (handle_is_seed env h).
Proof. apply (respects_is_seed env _ _ laws); [exact ok_fault | intros; apply ok_is_seed]. Qed.

Lemma loop_download_wait_metadata (fuel : nat) (h : handle) (timeout start : Q) :
  respects R anything (download_wait_metadata env fuel h timeout start).
Proof.
  induction fuel as [| fuel IH]; cbn [download_wait_metadata].
  - apply (respects_out_of_fuel _ _ laws).
  - eapply (respects_bind _ _ laws); [apply loop_status |]. intros st _.
    destruct (has_metadata st); [apply (respects_ret _ _ laws); exact I |].
    eapply (respects_bind _ _ laws); [apply (respects_time_time _ _ laws) |].
    intros now _.
    destruct (Qltb timeout (now - start)); [apply (respects_raise _ _ laws) |].
    eapply (respects_bind _ _ laws); [apply loop_status |]. intros status _.
    eapply (respects_bind _ _ laws anything).
    + destruct (0 <? num_peers status);
        [apply (respects_print _ _ laws); apply ok_print
        | apply (respects_ret _ _ laws); exact I].
    + intros _ _.
      eapply (respects_bind _ _ laws anything);
        [apply (respects_sleep env _ _ laws); apply ok_sleep |].
      intros _ _. exact IH.
Qed.

Lemma loop_download_loop (fuel : nat) (h : handle) (on_progress : bool) :
  (on_progress = true -> forall p, ok (EvOnProgress p)) ->
  respects R anything (download_loop env fuel h on_progress).
Proof.
  intros Hop.
  induction fuel as [| fuel IH]; cbn [download_loop].
  - apply (respects_out_of_fuel _ _ laws).
  - eapply (respects_bind _ _ laws); [apply loop_is_seed |]. intros seed _.
    destruct seed; [apply (respects_ret _ _ laws); exact I |].
    eapply (respects_bind _ _ laws); [apply loop_status |]. intros status _.
    eapply (respects_bind _ _ laws anything).
    + destruct on_progress;
        [apply (respects_emit _ _ laws); apply Hop; reflexivity
        | apply (respects_ret _ _ laws); exact I].
    + intros _ _.
      eapply (respects_bind _ _ laws anything);
        [apply (respects_sleep env _ _ laws); apply ok_sleep |].
      intros _ _. exact IH.
Qed.

End LoopEvents.

Lemma download_honest (env : Env) (download_path magnet_link : string)
      (on_progress on_metadata : bool) (fuel : nat) :
  respects (appended (honest env)) anything
           (download env download_path magnet_link on_progress on_metadata fuel).
Proof.
  pose proof (appended_laws (honest env) I) as L.
  assert (Hh : forall e, honest env e -> honest env e) by auto.
  unfold download, download_resolve.
  eapply (respects_bind _ _ L).
  { eapply (respects_bind _ _ L); [apply (respects_parse env _ _ L) |].
    intros params _.
    eapply (respects_bind _ _ L);
      [apply respects_add_torrent; [exact I | intros; exact I] |].
    intros h _.
    eapply (respects_bind _ _ L); [apply (respects_print _ _ L); exact I |].
    intros _ _.
    eapply (respects_bind _ _ L); [apply (respects_print _ _ L); exact I |].
    intros _ _.
    eapply (respects_bind _ _ L); [apply (respects_time_time _ _ L) |].
    intros start _.
    eapply (respects_bind _ _ L);
      [apply (respects_download_wait_metadata env _ _ L Hh) |].
    intros _ _.
    eapply (respects_bind _ _ L);
      [apply (respects_ret _ _ L anything); exact I |].
    intros ti _.
    eapply (respects_bind _ _ L).
    { destruct on_metadata;
        [apply (respects_emit _ _ L); exact I | apply (respects_ret _ _ L); exact I]. }
    intros _ _.
    eapply (respects_bind _ _ L); [apply (respects_print _ _ L); exact I |].
    intros _ _. apply (respects_ret _ _ L anything). exact I. }
  intros [h ti] _.
  eapply (respects_bind _ _ L); [apply (respects_download_loop env _ _ L Hh) |].
  intros _ _. apply (respects_ret _ _ L). exact I.
Qed.

Lemma snapshots_of_polls_app (l2 l1 : list event) :
  snapshots_of_polls l2 -> snapshots_of_polls l1 -> snapshots_of_polls (l2 ++ l1).
Proof.
  induction l2 as [| e l2 IH]; intros H2 H1; [exact H1 |].
  destruct e; cbn [app snapshots_of_polls] in *; try (apply IH; assumption).
  destruct H2 as [Hp H2]. split; [| apply IH; assumption].
  destruct l2 as [| e2 l2]; [contradiction |]. exact Hp.
Qed.

Lemma snapshots_of_polls_at (newer older : list event) (p : progress_info) :
  snapshots_of_polls (newer ++ EvOnProgress p :: older) ->
  exists h t s older', older = EvStatus h t s :: older' /\ p = progress_info_of s.
Proof.
  induction newer as [| e newer IH]; intros H.
  - cbn [app snapshots_of_polls] in H. destruct H as [Hp _].
    destruct older as [| e older]; [contradiction |].
    destruct e; try contradiction.
    do 4 eexists. split; [reflexivity | exact Hp].
  - apply IH. destruct e; cbn [app snapshots_of_polls] in H; try exact H.
    exact (proj2 H).
Qed.

Lemma polls_snapshotted_laws : Laws polls_snapshotted no_progress.
Proof.
  split.
  - intros w. exists []. split; [reflexivity | exact I].
  - intros w1 w2 w3 (n1 & H1 & S1) (n2 & H2 & S2). exists (n2 ++ n1)%list.
    split; [rewrite H2, H1, app_assoc; reflexivity |].
    apply snapshots_of_polls_app; assumption.
  - intros s w. exists []. split; [reflexivity | exact I].
  - intros ev w Hev. exists [ev]. split; [reflexivity |].
    destruct ev; cbn; try exact I. contradiction.
  - intros w. exists []. split; [reflexivity | exact I].
  - intros d w. exists []. split; [reflexivity | exact I].
  - exact I.
Qed.

Section Snapshots.

Variable env : Env.

(** One poll of the download loop and the callback that follows it. *)
Lemma poll_then_report (h : handle) (on_progress : bool) (k : M unit) :
  respects polls_snapshotted anything k ->
  respects polls_snapshotted anything
           (status <- handle_status env h ;;
            (if on_progress then emit (EvOnProgress (progress_info_of status))
             else ret tt) ;;
            k).
Proof.
  pose proof polls_snapshotted_laws as L.
  intros Hk w r w' E.
  split; [| intros; exact I].
  apply bind_inv in E.
  destruct E as [(status & w1 & E1 & E) | [(e & E1 & _) | [E1 _]]];
    try exact (proj1 (respects_status env _ _ L h I (fun _ _ _ => I) _ _ _ E1)).
  assert (H1 : exists l, log w1 = EvStatus h (clock w) status :: l /\ l = log w).
  { apply effect_cases in E1. destruct E1 as [[C _] | [s E1]]; [discriminate |].
    cbn in E1. destruct (engine env (queries w)); inversion E1; subst.
    eexists. split; reflexivity. }
  destruct H1 as (l & Hl1 & ->).
  apply bind_inv in E.
  destruct on_progress.
  - destruct E as [(u & w2 & E2 & E) | [(e & E2 & _) | [E2 _]]].
    + apply emit_val in E2.
      eapply (law_trans _ _ L); [| exact (proj1 (Hk _ _ _ E))].
      exists [EvOnProgress (progress_info_of status); EvStatus h (clock w) status].
      split; [rewrite E2, Hl1; reflexivity |]. cbn. auto.
    + apply effect_cases in E2. destruct E2 as [[_ ->] | [s C]]; [| discriminate C].
      exists [EvSigint; EvStatus h (clock w) status].
      split; [cbn [log record set_sigint]; rewrite Hl1; reflexivity | exact I].
    + apply effect_cases in E2. destruct E2 as [[C _] | [s C]]; discriminate C.
  - destruct E as [(u & w2 & E2 & E) | [(e & E2 & _) | [E2 _]]];
      try discriminate E2.
    inversion E2; subst.
    eapply (law_trans _ _ L); [| exact (proj1 (Hk _ _ _ E))].
    exists [EvStatus h (clock w) status]. split; [exact Hl1 | exact I].
Qed.

Lemma download_loop_snapshots (fuel : nat) (h : handle) (on_progress : bool) :
  respects polls_snapshotted anything (download_loop env fuel h on_progress).
Proof.
  pose proof polls_snapshotted_laws as L.
  induction fuel as [| fuel IH]; cbn [download_loop].
  - apply (respects_out_of_fuel _ _ L).
  - eapply (respects_bind _ _ L);
      [apply (respects_is_seed env _ _ L); [exact I | intros; exact I] |].
    intros seed _. destruct seed; [apply (respects_ret _ _ L); exact I |].
    apply (poll_then_report h on_progress
             (time_sleep env 1 ;; download_loop env fuel h on_progress)).
    eapply (respects_bind _ _ L anything);
      [apply (respects_sleep env _ _ L); exact I |].
    intros _ _. exact IH.
Qed.

Lemma download_snapshots (download_path magnet_link : string)
      (on_progress on_metadata : bool) (fuel : nat) :
  respects polls_snapshotted anything
           (download env download_path magnet_link on_progress on_metadata fuel).
Proof.
  pose proof polls_snapshotted_laws as L.
  unfold download, download_resolve.
  eapply (respects_bind _ _ L).
  { eapply (respects_bind _ _ L); [apply (respects_parse env _ _ L) |].
    intros params _.
    eapply (respects_bind _ _ L anything).
    { apply (respects_effect _ _ L). intros w r w' E.
      split; [| intros; exact I].
      assert (H : exists ev, log w' = ev :: log w /\ no_progress ev).
      { cbn in E. destruct (find_torrent _ w); inversion E; subst;
          (eexists; split; [reflexivity | exact I]). }
      destruct H as (ev & Hl & Hev). exists [ev]. split; [exact Hl |].
      destruct ev; try exact I. contradiction. }
    intros h _.
    do 2 (eapply (respects_bind _ _ L anything);
          [apply (respects_print _ _ L); exact I | intros _ _]).
    eapply (respects_bind _ _ L); [apply (respects_time_time _ _ L) |].
    intros start _.
    eapply (respects_bind _ _ L anything).
    { apply (loop_download_wait_metadata env _ _ L); intros; exact I. }
    intros _ _.
    eapply (respects_bind _ _ L anything);
      [apply (respects_ret _ _ L anything); exact I |].
    intros ti _.
    eapply (respects_bind _ _ L anything).
    { destruct on_metadata;
        [apply (respects_emit _ _ L); exact I | apply (respects_ret _ _ L); exact I]. }
    intros _ _.
    eapply (respects_bind _ _ L anything); [apply (respects_print _ _ L); exact I |].
    intros _ _. apply (respects_ret _ _ L anything). exact I. }
  intros [h ti] _.
  eapply (respects_bind _ _ L anything); [apply download_loop_snapshots |].
  intros _ _. apply (respects_ret _ _ L). exact I.
Qed.

End Snapshots.

(** C1, as amended: every snapshot that [download] passes to [on_progress] is
    built from the status polled in the same cycle (the poll is the event
    directly before the callback, and its answer is one of the engine's) and
    carries that status's fraction multiplied by 100; for engine fractions in
    [0,1] its 'progress' field lies in [0,100]. *)
Theorem on_progress_reports_percent
        (env : Env) (download_path magnet_link : string)
        (on_progress on_metadata : bool) (fuel : nat) (w w' : World)
        (r : res download_result) :
  fractions_in_range env ->
  download env download_path magnet_link on_progress on_metadata fuel w = (r, w') ->
  exists new,
    log w' = (new ++ log w)%list /\
    forall newer p older, new = (newer ++ EvOnProgress p :: older)%list ->
      exists h t s older',
        older = EvStatus h t s :: older' /\
        (exists n, engine env n = Reply s) /\
        p = progress_info_of s /\
        pi_progress p = (progress s * 100)%Q /\
        (0 <= pi_progress p)%Q /\ (pi_progress p <= 100)%Q.
Proof.
  intros Hrange Hrun.
  destruct (download_honest env download_path magnet_link on_progress on_metadata
                            fuel w r w' Hrun) as [(new & Hlog & Hall) _].
  destruct (download_snapshots env download_path magnet_link on_progress on_metadata
                               fuel w r w' Hrun) as [(new' & Hlog' & Hsnap) _].
  assert (new' = new) as -> by (apply (app_inv_tail (log w)); congruence).
  exists new. split; [exact Hlog |].
  intros newer p older ->.
  destruct (snapshots_of_polls_at _ _ _ Hsnap) as (h & t & s & older' & -> & ->).
  rewrite Forall_forall in Hall.
  assert (Hs : honest env (EvStatus h t s)).
  { apply Hall. apply in_or_app. right. right. left. reflexivity. }
  destruct Hs as [n Hn].
  destruct (Hrange n s Hn) as [H0 H1].
  exists h, t, s, older'. split; [reflexivity |]. split; [exists n; exact Hn |].
  split; [reflexivity |]. simpl. repeat split; lra.
Qed.

Lemma sample_fractions : fractions_in_range (sample_env live_engine).
Proof.
  intros n s Hs. unfold sample_env, live_engine, scripted in Hs. simpl in Hs.
  inversion Hs; subst. clear Hs.
  do 6 (destruct n as [| n]; [vm_compute; split; discriminate |]).
  vm_compute; split; discriminate.
Qed.

Lemma on_progress_reports_percent_witness :
  exists new,
    log (snd half_way_run) = (new ++ [])%list /\
    forall newer p older, new = (newer ++ EvOnProgress p :: older)%list ->
      exists h t s older',
        older = EvStatus h t s :: older' /\
        (exists n, engine (sample_env live_engine) n = Reply s) /\
        p = progress_info_of s /\
        pi_progress p = (progress s * 100)%Q /\
        (0 <= pi_progress p)%Q /\ (pi_progress p <= 100)%Q.
Proof.
  refine (on_progress_reports_percent (sample_env live_engine) default_download_path
           sample_magnet true true 100 (initial_world 0 None) (snd half_way_run)
           (fst half_way_run) sample_fractions _).
  unfold half_way_run. apply surjective_pairing.
Defined.

(** C1 as worded fails: for the engine fraction 1/2 the callback receives
    50. *)
Lemma on_progress_not_a_fraction :
  fractions_in_range (sample_env live_engine) /\
  exists p, In (EvOnProgress p) (log (snd half_way_run)) /\
            ~ fraction_event (EvOnProgress p).
Proof.
  split; [exact sample_fractions |].
  exists (progress_info_of st_half). split.
  - vm_compute. right. right. left. reflexivity.
  - simpl. intros [_ H]. revert H. vm_compute. intros H. apply H. reflexivity.
Qed.

(** * The session's torrents *)

Lemma same_session_laws : Laws same_session (fun _ => True).
Proof.
  constructor; unfold same_session; simpl; auto.
  intros w1 w2 w3 [H1 H2] [H3 H4]. split; congruence.
Qed.

Lemma remove_fresh (h : handle) (ts : list handle) :
  Forall (fun x => (x < h)%nat) ts -> remove Nat.eq_dec h (ts ++ [h]) = ts.
Proof.
  intros H. rewrite remove_app. simpl.
  destruct (Nat.eq_dec h h) as [_ | C]; [| congruence].
  rewrite app_nil_r. apply notin_remove. intros Hin.
  rewrite Forall_forall in H. specialize (H h Hin). lia.
Qed.

Section GetInfo.

Variable env : Env.

Lemma add_torrent_inv (p : add_torrent_params) (w w' : World) (r : res handle) :
  session_add_torrent p w = (r, w') ->
  (r = Raise KeyboardInterrupt /\ same_session w w') \/
  (find_torrent (info_hash p) w = None /\
   r = Val (next_handle w) /\
   torrents w' = (torrents w ++ [next_handle w])%list /\
   next_handle w' = S (next_handle w)) \/
  (exists h,
     find_torrent (info_hash p) w = Some h /\ In h (torrents w) /\
     r = Val h /\ same_session w w').
Proof.
  intros E. apply effect_inv in E. destruct E as [E | [s E]]; [left; exact E |].
  right.
  assert (Hfind : find_torrent (info_hash p) (set_sigint s w)
                  = find_torrent (info_hash p) w) by reflexivity.
  rewrite Hfind in E.
  destruct (find_torrent (info_hash p) w) as [h |] eqn:Efind.
  - right. exists h. inversion E; subst. split; [reflexivity |].
    split; [| split; [reflexivity | split; reflexivity]].
    unfold find_torrent in Efind. apply find_some in Efind. exact (proj1 Efind).
  - left. inversion E; subst. simpl. auto.
Qed.

Lemma add_torrent_info_hash (p : add_torrent_params) (w w' : World) (h : handle) :
  session_add_torrent p w = (Val h, w') -> hash_of w' h = Some (info_hash p).
Proof.
  intros E. apply effect_inv in E.
  destruct E as [[C _] | [s E]]; [discriminate C |].
  assert (Hfind : find_torrent (info_hash p) (set_sigint s w)
                  = find_torrent (info_hash p) w) by reflexivity.
  rewrite Hfind in E. clear Hfind.
  destruct (find_torrent (info_hash p) w) as [h0 |] eqn:Efind;
    inversion E; subst; clear E.
  - unfold find_torrent in Efind. apply find_some in Efind.
    destruct Efind as [_ Hfound].
    assert (Hh : match hash_of w h with
                 | Some ih => String.eqb ih (info_hash p)
                 | None => false
                 end = true) by exact Hfound.
    change (hash_of (record (EvAddTorrent h p) (set_sigint s w)) h) with (hash_of w h).
    destruct (hash_of w h) as [ih |]; [| discriminate Hh].
    apply String.eqb_eq in Hh. rewrite Hh. reflexivity.
  - unfold hash_of. cbn. rewrite Nat.eqb_refl. reflexivity.
Qed.

Lemma remove_torrent_inv (h : handle) (w w' : World) (r : res unit) :
  session_remove_torrent h w = (r, w') ->
  (r = Raise KeyboardInterrupt /\ same_session w w') \/
  (r = Val tt /\ torrents w' = remove Nat.eq_dec h (torrents w)).
Proof.
  intros E. apply effect_inv in E. destruct E as [E | [s E]]; [left; exact E |].
  right. inversion E; subst. simpl. auto.
Qed.

(** C9, amended: on a link whose torrent the session does not hold yet, a call
    of [get_info] that returns normally leaves the session with the torrents it
    had before the call (the handle it added has been removed), and a call that
    raises the metadata timeout leaves the added handle in the session; on a
    link whose torrent the session holds already, a call that returns normally
    has removed that torrent, and a call that times out leaves the session as
    it was. *)
Theorem get_info_restores_session
      (download_path magnet_link : string) (fuel : nat) (w w' : World)
      (r : res torrent_summary) (p : add_torrent_params) :
  handles_allocated w ->
  parse_magnet_uri env magnet_link = Some p ->
  get_info env download_path magnet_link fuel w = (r, w') ->
  match find_torrent (info_hash p) w with
  | None =>
      ((exists info, r = Val info) -> torrents w' = torrents w) /\
      (r = Raise TimeoutError ->
       torrents w' = (torrents w ++ [next_handle w])%list)
  | Some h =>
      ((exists info, r = Val info) ->
       torrents w' = remove Nat.eq_dec h (torrents w)) /\
      (r = Raise TimeoutError -> torrents w' = torrents w)
  end.
Proof.
  intros Hfresh Hp Hrun. unfold get_info, lt_parse_magnet_uri in Hrun.
  rewrite Hp in Hrun. rewrite bind_ret in Hrun.
  assert (Hout : forall P Q : Prop,
            (forall info, r <> Val info) -> r <> Raise TimeoutError ->
            ((exists info, r = Val info) -> P) /\ (r = Raise TimeoutError -> Q)).
  { intros P Q H1 H2. split; [intros [info C]; destruct (H1 info C) | intros C].
    contradiction. }
  apply bind_inv in Hrun.
  destruct Hrun as [(h & w2 & Hadd & Hrun) | [(e & Hadd & ->) | [Hadd ->]]];
    apply add_torrent_inv in Hadd; cbn [info_hash with_save_path] in Hadd;
    destruct Hadd as [[Hr Hs] | [(Hfind & Hr & Hts & Hnh)
                                | (h0 & Hfind & Hin & Hr & Hts & Hnh)]];
    try discriminate;
    try (inversion Hr; subst;
         destruct (find_torrent (info_hash p) w); apply Hout; intros; discriminate).
  - (* a new handle *)
    inversion Hr; subst h. clear Hr. rewrite Hfind.
    rewrite bind_time in Hrun.
    apply bind_inv in Hrun.
    destruct Hrun as [(u & w3 & Hwait & Hrun) | [(e & Hwait & ->) | [Hwait ->]]];
      destruct (respects_get_info_wait_metadata env same_session (fun _ => True)
                  same_session_laws (fun _ _ => I) _ _ _ _ _ _ _ Hwait)
        as [[Hts3 Hnh3] _].
    + rewrite bind_get_torrent_info in Hrun.
      apply bind_inv in Hrun.
      destruct Hrun as [(u' & w4 & Hrem & Hrun) | [(e & Hrem & ->) | [Hrem ->]]];
        apply remove_torrent_inv in Hrem;
        destruct Hrem as [[Hr Hs] | (Hr & Hts4)]; try discriminate;
        try (inversion Hr; subst; apply Hout; intros; discriminate).
      inversion Hrun; subst. split; [| discriminate].
      intros _. rewrite Hts4, Hts3, Hts. apply remove_fresh. exact Hfresh.
    + split; [intros [info C]; discriminate |].
      intros _. rewrite Hts3. exact Hts.
    + apply Hout; intros; discriminate.
  - (* the handle of the torrent already there *)
    inversion Hr; subst h. clear Hr. rewrite Hfind.
    rewrite bind_time in Hrun.
    apply bind_inv in Hrun.
    destruct Hrun as [(u & w3 & Hwait & Hrun) | [(e & Hwait & ->) | [Hwait ->]]];
      destruct (respects_get_info_wait_metadata env same_session (fun _ => True)
                  same_session_laws (fun _ _ => I) _ _ _ _ _ _ _ Hwait)
        as [[Hts3 Hnh3] _].
    + rewrite bind_get_torrent_info in Hrun.
      apply bind_inv in Hrun.
      destruct Hrun as [(u' & w4 & Hrem & Hrun) | [(e & Hrem & ->) | [Hrem ->]]];
        apply remove_torrent_inv in Hrem;
        destruct Hrem as [[Hr Hs] | (Hr & Hts4)]; try discriminate;
        try (inversion Hr; subst; apply Hout; intros; discriminate).
      inversion Hrun; subst. split; [| discriminate].
      intros _. rewrite Hts4, Hts3, Hts. reflexivity.
    + split; [intros [info C]; discriminate |].
      intros _. rewrite Hts3. exact Hts.
    + apply Hout; intros; discriminate.
Qed.

End GetInfo.

(** * Interruption *)



Lemma struck_time : struck_last time_time.
Proof. intros w w' E. discriminate. Qed.




Section Interruption.

Variable env : Env.






Lemma try_except_caught {A} (body : M A) (handler : exn -> option (M A))
      (w w1 : World) (e : exn) (h : M A) :
  body w = (Raise e, w1) -> handler e = Some h ->
  try_except body handler w = h w1.
Proof. unfold try_except. intros -> ->. reflexivity. Qed.

Lemma try_finally_Val {A} (body : M A) (final : M unit) (w w1 w2 : World)
      (a : A) (u : unit) :
  body w = (Val a, w1) -> final w1 = (Val u, w2) ->
  try_finally body final w = (Val a, w2).
Proof. unfold try_finally. intros -> ->. reflexivity. Qed.


Lemma pause_all_log (ts : list handle) :
  forall w,
    log (pause_all ts w) = (List.rev (map EvPauseTorrent ts) ++ log w)%list /\
    sigint (pause_all ts w) = sigint w /\
    sleeps (pause_all ts w) = sleeps w.
Proof.
  induction ts as [| h ts IH]; intros w; simpl; [auto |].
  destruct (IH (record (EvPauseTorrent h) w)) as (Hl & Hs & Hsl).
  rewrite Hl, Hs, Hsl. simpl. rewrite <- app_assoc. simpl. auto.
Qed.

Lemma for_each_pause_quiet (ts : list handle) :
  forall w, sigint w = None ->
    for_each ts handle_pause w = (Val tt, pause_all ts w).
Proof.
  induction ts as [| h ts IH]; intros w Hsig; simpl; [reflexivity |].
  rewrite bind_pause_quiet by exact Hsig. apply IH. exact Hsig.
Qed.



End Interruption.

(** * Whole runs *)



(** C6: the monitoring loop of [download] invokes [on_progress] once per
    polling cycle while the engine is not a seed, and polls no more once it
    is: if [is_seed] first answers true at cycle [k], the loop returns after [k]
    callbacks, [k] sleeps and [2 * k + 1] engine queries. *)
Theorem progress_callback_once_per_cycle
        (env : Env) (k fuel : nat) (h : handle) (w : World) :
  sigint w = None ->
  (forall j, (j < k)%nat ->
     exists s, engine env (queries w + 2 * j) = Reply s /\ is_seeding s = false) ->
  (forall j, (j < k)%nat ->
     exists s, engine env (queries w + 2 * j + 1) = Reply s) ->
  (exists s, engine env (queries w + 2 * k) = Reply s /\ is_seeding s = true) ->
  (k < fuel)%nat ->
  exists w',
    download_loop env fuel h true w = (Val tt, w') /\
    count_on_progress (log w') = (count_on_progress (log w) + k)%nat /\
    queries w' = (queries w + 2 * k + 1)%nat /\
    sleeps w' = (sleeps w + k)%nat /\
    sigint w' = None.
Proof. intros. apply download_loop_counts; assumption. Qed.

Lemma progress_callback_once_per_cycle_witness :
  exists w',
    download_loop (sample_env live_engine) 10 0%nat true (initial_world 0 None)
      = (Val tt, w') /\
    count_on_progress (log w') = (0 + 3)%nat /\
    queries w' = (0 + 2 * 3 + 1)%nat /\
    sleeps w' = (0 + 3)%nat /\
    sigint w' = None.
Proof.
  refine (progress_callback_once_per_cycle (sample_env live_engine) 3 10 0%nat
            (initial_world 0 None) eq_refl _ _ _ _).
  - intros j Hj. exists st_half.
    do 3 (destruct j as [| j]; [split; reflexivity |]). lia.
  - intros j Hj.
    do 2 (destruct j as [| j]; [exists st_half; reflexivity |]).
    destruct j as [| j]; [exists st_seeding; reflexivity | lia].
  - exists st_seeding. split; reflexivity.
  - lia.
Defined.

(** C4, as amended: for every magnet URI the parser rejects, [download] raises
    the parser's error at once and [download_torrent] prints it and returns;
    neither polls the engine, sleeps or adds a torrent to the session.  The
    engine session itself exists by then: the command-line tool has created and
    started it before it parses the URI. *)
Theorem malformed_magnet_fails_early
        (env : Env) (download_path magnet_link : string)
        (on_progress on_metadata : bool) (fuel : nat) (w : World) :
  sigint w = None ->
  parse_magnet_uri env magnet_link = None ->
  download env download_path magnet_link on_progress on_metadata fuel w
    = (Raise MagnetError, w) /\
  exists w',
    download_torrent env magnet_link download_path fuel w = (Val tt, w') /\
    queries w' = queries w /\
    sleeps w' = sleeps w /\
    torrents w' = torrents w /\
    (exists l, log w' = EvPrint (MsgParseError MagnetError) :: l) /\
    In EvSession (log w').
Proof.
  intros Hsig Hparse. split.
  - unfold download, download_resolve, lt_parse_magnet_uri. rewrite Hparse.
    reflexivity.
  - unfold download_torrent, cli_resolve, ensure_directory, start_services,
      lt_parse_magnet_uri.
    rewrite Hparse.
    destruct (path_exists env download_path); quiet;
      (erewrite (bind_run (try_except _ _));
         [| erewrite try_except_caught;
            [| rewrite bind_raise; reflexivity | reflexivity];
            quiet; reflexivity]);
      world_simpl; quiet;
      (eexists; split; [reflexivity |]);
      cbn [queries sleeps torrents log record];
      (split; [reflexivity |]); (split; [reflexivity |]); (split; [reflexivity |]);
      (split; [eexists; reflexivity |]);
      cbn; tauto.
Qed.

Lemma malformed_magnet_fails_early_witness :
  download (sample_env dead_engine) default_download_path malformed_magnet true true 10
           (initial_world 0 None)
    = (Raise MagnetError, initial_world 0 None) /\
  exists w',
    download_torrent (sample_env dead_engine) malformed_magnet default_download_path 10
                     (initial_world 0 None) = (Val tt, w') /\
    queries w' = 0%nat /\
    sleeps w' = 0%nat /\
    torrents w' = [] /\
    (exists l, log w' = EvPrint (MsgParseError MagnetError) :: l) /\
    In EvSession (log w').
Proof.
  refine (malformed_magnet_fails_early (sample_env dead_engine) default_download_path
            malformed_magnet true true 10 (initial_world 0 None) eq_refl _).
  vm_compute. reflexivity.
Defined.

(** C4 as worded fails: the session has been created, and its services
    started, before the URI is parsed. *)
Lemma session_created_before_parsing :
  parse_magnet_uri (sample_env dead_engine) malformed_magnet = None /\
  ~ no_session_claim (sample_env dead_engine) malformed_magnet default_download_path
      10 (initial_world 0 None).
Proof.
  split; [vm_compute; reflexivity |].
  unfold no_session_claim. intros H. apply H; [vm_compute; reflexivity |].
  vm_compute. tauto.
Qed.

(** C3, at its failing input: on a torrent whose metadata never arrives the
    command-line tool prints the timeout and returns without pausing either the
    torrent or the session, the torrent still being in the session; on the same
    input the script of downloader.py pauses the torrent and the session and
    exits with code 1. *)
Theorem cli_timeout_skips_shutdown :
  let cli := download_torrent (sample_env dead_engine) sample_magnet
                              default_download_path 100 (initial_world 0 None) in
  let script := downloader_main (sample_env dead_engine)
                                ["downloader.py"; sample_magnet] 100
                                (initial_world 0 None) in
  fst cli = Val tt /\
  existsb shutdown_event (log (snd cli)) = false /\
  torrents (snd cli) = [0%nat] /\
  fst script = Exited 1 /\
  firstn 4 (log (snd script))
    = [EvSleep 1; EvPauseSession; EvPauseTorrent 0%nat;
       EvPrint (MsgError TimeoutError)].
Proof. vm_compute. repeat split; reflexivity. Qed.

(** C9 as worded fails: a first [get_info] on a dead torrent times out and
    leaves the torrent it added in the session; a second [get_info] on the same
    link, once the torrent has come alive, is handed the handle of that torrent,
    returns normally and removes it: the session that held one torrent before
    the call holds none after it. *)
Lemma get_info_removes_existing_torrent :
  let env := sample_env revived_engine in
  let first := get_info env default_download_path sample_magnet 100
                        (initial_world 0 None) in
  let second := get_info env default_download_path sample_magnet 100 (snd first) in
  fst first = Raise TimeoutError /\
  torrents (snd first) = [0%nat] /\
  handles_allocated (snd first) /\
  (exists info, fst second = Val info) /\
  torrents (snd second) = [] /\
  ~ get_info_restores_claim env default_download_path sample_magnet 100 (snd first).
Proof.
  cbv zeta.
  split; [vm_compute; reflexivity |].
  split; [vm_compute; reflexivity |].
  split; [vm_compute; repeat constructor |].
  split; [vm_compute; eexists; reflexivity |].
  split; [vm_compute; reflexivity |].
  intros Hclaim.
  assert (E : exists info w',
            get_info (sample_env revived_engine) default_download_path sample_magnet
                     100
                     (snd (get_info (sample_env revived_engine) default_download_path
                                    sample_magnet 100 (initial_world 0 None)))
              = (Val info, w') /\ torrents w' = []).
  { vm_compute. do 2 eexists. split; reflexivity. }
  destruct E as (info & w' & E & Hts).
  apply Hclaim in E. rewrite Hts in E. vm_compute in E. discriminate E.
Qed.

(** Both outcomes of [get_info] occur on a new link: a normal return on a live
    torrent, the timeout on a dead one. *)
Lemma get_info_outcomes :
  (exists info,
     fst (get_info (sample_env live_engine) default_download_path sample_magnet 10
                   (initial_world 0 None)) = Val info) /\
  fst (get_info (sample_env dead_engine) default_download_path sample_magnet 100
                (initial_world 0 None)) = Raise TimeoutError.
Proof.
  split; [eexists; vm_compute; reflexivity | vm_compute; reflexivity].
Qed.

Lemma get_info_restores_session_witness :
  torrents (snd (get_info (sample_env live_engine) default_download_path sample_magnet
                          10 (initial_world 0 None))) = [] /\
  torrents (snd (get_info (sample_env dead_engine) default_download_path sample_magnet
                          100 (initial_world 0 None))) = [0%nat].
Proof.
  destruct get_info_outcomes as [Hlive Hdead]. split.
  - refine (proj1 (get_info_restores_session (sample_env live_engine)
                     default_download_path sample_magnet 10 (initial_world 0 None)
                     _ _ (mk_params sample_hash "") _ eq_refl _) Hlive).
    + constructor.
    + apply surjective_pairing.
  - refine (proj2 (get_info_restores_session (sample_env dead_engine)
                     default_download_path sample_magnet 100 (initial_world 0 None)
                     _ _ (mk_params sample_hash "") _ eq_refl _) Hdead).
    + constructor.
    + apply surjective_pairing.
Defined.

(** * Further properties of the two programs *)

(** ** The formatting helpers *)

Lemma format_time_parts_any (s : Q) :
  py_int (py_floordiv s 3600) = Qfloor s / 3600 /\
  py_int (py_floordiv (py_mod s 3600) 60) = (Qfloor s mod 3600) / 60 /\
  py_int (py_mod s 60) = Qfloor s mod 60.
Proof.
  unfold py_floordiv. rewrite !py_int_inject.
  change 3600%Q with (inject_Z (Zpos 3600)). change 60%Q with (inject_Z (Zpos 60)).
  rewrite !Qfloor_div_pos, !py_mod_floor.
  rewrite py_int_nonneg by apply py_mod_nonneg.
  rewrite py_mod_floor. auto.
Qed.

Lemma Qeq_bool_floor_nonzero (s : Q) : Qfloor s <> 0 -> Qeq_bool s 0 = false.
Proof.
  intros H. destruct (Qeq_bool s 0) eqn:E; [| reflexivity].
  apply Qeq_bool_iff in E. apply Qfloor_comp in E. contradiction.
Qed.

Lemma format_time_floor (s : Q) :
  Qfloor s <> 0 -> format_time s = format_time (inject_Z (Qfloor s)).
Proof.
  intros H. unfold format_time.
  destruct (format_time_parts_any s) as (Eh & Em & Es).
  destruct (format_time_parts_any (inject_Z (Qfloor s))) as (Eh' & Em' & Es').
  rewrite Qfloor_Z in Eh', Em', Es'.
  rewrite Eh, Em, Es, Eh', Em', Es'.
  rewrite (Qeq_bool_floor_nonzero s H).
  rewrite (Qeq_bool_floor_nonzero (inject_Z (Qfloor s))) by (rewrite Qfloor_Z; exact H).
  reflexivity.
Qed.



Lemma format_time_negative (s : Q) :
  (s < 0)%Q ->
  format_time s =
    if Qeq_bool (py_mod s 3600) 0 then "0s" else format_time (py_mod s 3600).
Proof.
  intros Hneg.
  assert (HF : Qfloor s < 0).
  { apply Qfloor_lt_iff. exact Hneg. }
  set (r := py_mod s 3600).
  assert (Hr : Qfloor r = Qfloor s mod 3600).
  { unfold r. change 3600%Q with (inject_Z (Zpos 3600)). apply py_mod_floor. }
  assert (Hr0 : (0 <= r)%Q).
  { unfold r. change 3600%Q with (inject_Z (Zpos 3600)). apply py_mod_nonneg. }
  pose proof (Z.mod_pos_bound (Qfloor s) 3600 ltac:(lia)) as Hb.
  assert (Hsecs : (Qfloor s mod 3600) mod 60 = Qfloor s mod 60).
  { apply Z.mod_mod_divide. exists 60. reflexivity. }
  assert (Hs0 : Qeq_bool s 0 = false).
  { apply Qeq_bool_floor_nonzero. lia. }
  assert (Hh : Qfloor s / 3600 < 0).
  { apply Z.div_lt_upper_bound; lia. }
  destruct (format_time_parts_any s) as (Eh & Em & Es).
  destruct (format_time_parts_any r) as (Eh' & Em' & Es').
  rewrite Hr in Eh', Em', Es'.
  rewrite Z.mod_mod in Em' by lia. rewrite Hsecs in Es'.
  rewrite (Z.div_small (Qfloor s mod 3600) 3600) in Eh' by lia.
  unfold format_time at 1. rewrite Hs0, Eh, Em, Es.
  destruct (0 <? Qfloor s / 3600) eqn:E1; [apply Z.ltb_lt in E1; lia |].
  destruct (Qeq_bool r 0) eqn:E0.
  - apply Qeq_bool_iff in E0. apply Qfloor_comp in E0. change (Qfloor 0) with 0 in E0.
    rewrite Hr in E0. rewrite E0.
    assert (E60 : Qfloor s mod 60 = 0) by (rewrite <- Hsecs, E0; reflexivity).
    rewrite E60. reflexivity.
  - unfold format_time. rewrite E0, Eh', Em', Es'. reflexivity.
Qed.

(** X2: [format_time] does not reject a negative whole number of seconds: the
    hours test fails and what is shown is the number modulo 3600, as a time
    between "0s" and "59m 59s", without a sign. *)
Theorem format_time_negative_wraps (z : Z) :
  z < 0 ->
  format_time (inject_Z z) =
    if z mod 3600 =? 0 then "0s" else format_time (inject_Z (z mod 3600)).
Proof.
  intros Hz.
  assert (Hneg : (inject_Z z < 0)%Q).
  { change 0%Q with (inject_Z 0). rewrite <- Zlt_Qlt. exact Hz. }
  rewrite (format_time_negative (inject_Z z) Hneg).
  assert (Hr : Qfloor (py_mod (inject_Z z) 3600) = z mod 3600).
  { change 3600%Q with (inject_Z (Zpos 3600)). rewrite py_mod_floor, Qfloor_Z.
    reflexivity. }
  assert (Hq : py_mod (inject_Z z) 3600 == inject_Z (z mod 3600)).
  { unfold py_mod. change 3600%Q with (inject_Z (Zpos 3600)).
    rewrite Qfloor_div_pos, Qfloor_Z. unfold Qminus.
    rewrite <- inject_Z_mult, <- inject_Z_opp, <- inject_Z_plus.
    apply inject_Z_injective. rewrite (Z.mod_eq z 3600) by lia. lia. }
  destruct (z mod 3600 =? 0) eqn:E.
  - apply Z.eqb_eq in E.
    assert (E0 : Qeq_bool (py_mod (inject_Z z) 3600) 0 = true).
    { apply Qeq_bool_iff. rewrite Hq, E. reflexivity. }
    rewrite E0. reflexivity.
  - apply Z.eqb_neq in E.
    rewrite (Qeq_bool_floor_nonzero (py_mod (inject_Z z) 3600))
      by (rewrite Hr; exact E).
    rewrite (format_time_floor (py_mod (inject_Z z) 3600)) by (rewrite Hr; exact E).
    rewrite Hr. reflexivity.
Qed.

Lemma format_time_negative_wraps_witness :
  format_time (-1) = "59m 59s" /\ format_time (-3600) = "0s".
Proof.
  split.
  - exact (format_time_negative_wraps (-1) eq_refl).
  - exact (format_time_negative_wraps (-3600) eq_refl).
Defined.

Lemma scaled_succ (b : Q) (i : nat) : scaled b (S i) == scaled b i * (1 # 1024).
Proof. unfold scaled. simpl. field. Qed.

Lemma scaled_0 (b : Q) : scaled b 0 = b.
Proof. reflexivity. Qed.

(** X3: for a byte count from 1 up to (not including) 1024^5, [format_bytes]
    picks one of B, KB, MB, GB, TB, and the value it renders in that unit is at
    least 1 and below 1024. *)
Theorem format_bytes_human_range (b : Q) :
  (1 <= b)%Q -> (b < 1125899906842624)%Q ->
  exists i,
    (i < 5)%nat /\
    format_bytes b = fmt2 (scaled b i) ++ " " ++ unit_name i /\
    (1 <= scaled b i)%Q /\ (scaled b i < 1024)%Q.
Proof.
  intros Hlo Hhi.
  destruct (format_bytes_from_spec units b) as (i & Hi & Heq & Hleast & Hlt).
  simpl in Hi, Hlt.
  assert (Hi5 : (i < 5)%nat).
  { destruct (Nat.eq_dec i 5) as [-> | Hne]; [| lia].
    exfalso. apply (Hleast 4%nat); [lia |].
    pose proof (scaled_succ b 3) as E4. pose proof (scaled_succ b 2) as E3.
    pose proof (scaled_succ b 1) as E2. pose proof (scaled_succ b 0) as E1.
    rewrite scaled_0 in E1. lra. }
  exists i. split; [exact Hi5 |]. split; [exact Heq |].
  split; [| apply Hlt; exact Hi5].
  destruct i as [| j]; [rewrite scaled_0; exact Hlo |].
  pose proof (Hleast j ltac:(lia)) as Hge.
  pose proof (scaled_succ b j) as E. lra.
Qed.

Lemma format_bytes_human_range_witness :
  exists i,
    (i < 5)%nat /\
    format_bytes 5242880 = fmt2 (scaled 5242880 i) ++ " " ++ unit_name i /\
    (1 <= scaled 5242880 i)%Q /\ (scaled 5242880 i < 1024)%Q.
Proof.
  refine (format_bytes_human_range 5242880 _ _).
  - unfold Qle. simpl. lia.
  - reflexivity.
Defined.

(** X4: from 1024^5 bytes on, [format_bytes] renders a count that a float holds
    exactly in PB, the value being the count divided by 1024^5, however large:
    there is no unit beyond PB. *)
Theorem format_bytes_petabytes (b : Q) :
  exact_as_float b ->
  (1125899906842624 <= b)%Q ->
  format_bytes b = fmt2 (scaled b 5) ++ " PB" /\ (1 <= scaled b 5)%Q.
Proof.
  intros _ Hb.
  pose proof (scaled_succ b 4) as E5. pose proof (scaled_succ b 3) as E4.
  pose proof (scaled_succ b 2) as E3. pose proof (scaled_succ b 1) as E2.
  pose proof (scaled_succ b 0) as E1. rewrite scaled_0 in E1.
  destruct (format_bytes_from_spec units b) as (i & Hi & Heq & Hleast & Hlt).
  simpl in Hi, Hlt.
  assert (Hi5 : i = 5%nat).
  { destruct (Nat.eq_dec i 5) as [E | Hne]; [exact E |].
    exfalso. specialize (Hlt ltac:(lia)).
    do 5 (destruct i as [| i]; [rewrite ?scaled_0 in Hlt; lra |]). lia. }
  subst i. split; [exact Heq | lra].
Qed.

Lemma format_bytes_petabytes_witness :
  format_bytes 1152921504606846976
    = fmt2 (scaled 1152921504606846976 5) ++ " PB" /\
  (1 <= scaled 1152921504606846976 5)%Q /\
  format_bytes 1152921504606846976 = "1024.00 PB".
Proof.
  destruct (format_bytes_petabytes 1152921504606846976) as [E H].
  - exists 1, 60. split; [reflexivity |]. split; [lia |]. reflexivity.
  - unfold Qle. simpl. lia.
  - split; [exact E |]. split; [exact H | reflexivity].
Defined.

Lemma Qltb_true_of_lt (a b : Q) : (a < b)%Q -> Qltb a b = true.
Proof. apply Qltb_lt. Qed.



Lemma round_half_even_comp (q q' : Q) :
  q == q' -> round_half_even q = round_half_even q'.
Proof.
  intros E. unfold round_half_even.
  rewrite (Qfloor_comp _ _ E).
  assert (E' : q - inject_Z (Qfloor q') == q' - inject_Z (Qfloor q'))
    by (rewrite E; reflexivity).
  rewrite (Qcompare_comp _ _ E' (1 # 2) (1 # 2) (Qeq_refl _)). reflexivity.
Qed.

(** X6: the unit is chosen before the value is rounded to two decimals: a count
    above 1023.995 and below 1024 is shown as "1024.00 B", not as
    "1.00 KB". *)
Theorem format_bytes_rounds_to_1024 (b : Q) :
  (1023995 # 1000 < b)%Q -> (b < 1024)%Q ->
  format_bytes b = "1024.00 B".
Proof.
  intros Hlo Hhi.
  unfold format_bytes. simpl. rewrite (Qltb_true_of_lt b 1024 Hhi).
  unfold fmt2.
  assert (E0 : Qltb b 0 = false) by (apply Qltb_false; lra).
  rewrite E0.
  assert (Ea : Qabs b * 100 == b * 100).
  { rewrite Qabs_pos by lra. reflexivity. }
  rewrite (round_half_even_comp _ _ Ea).
  assert (Hf : Qfloor (b * 100) = 102399).
  { apply Qfloor_unique.
    - change (inject_Z 102399) with (102399 # 1). lra.
    - change (inject_Z (102399 + 1)) with (102400 # 1). lra. }
  assert (Hr : round_half_even (b * 100) = 102400).
  { unfold round_half_even. rewrite Hf.
    change (inject_Z 102399) with (102399 # 1).
    destruct (Qcompare_spec (b * 100 - (102399 # 1)) (1 # 2)) as [E | E | E].
    - exfalso. lra.
    - exfalso. lra.
    - reflexivity. }
  rewrite Hr. reflexivity.
Qed.

Lemma format_bytes_rounds_to_1024_witness :
  format_bytes (1023999 # 1000) = "1024.00 B".
Proof.
  refine (format_bytes_rounds_to_1024 (1023999 # 1000) _ _).
  - reflexivity.
  - reflexivity.
Defined.

(** ** Shutdown, usage and failed runs *)

Lemma pause_all_frame (ts : list handle) :
  forall w,
    torrents (pause_all ts w) = torrents w /\
    next_handle (pause_all ts w) = next_handle w /\
    clock (pause_all ts w) = clock w /\
    queries (pause_all ts w) = queries w.
Proof.
  induction ts as [| h ts IH]; intros w; simpl; [auto |].
  destruct (IH (record (EvPauseTorrent h) w)) as (H1 & H2 & H3 & H4).
  rewrite H1, H2, H3, H4. auto.
Qed.

Lemma shutdown_quiet (env : Env) (w : World) :
  sigint w = None ->
  shutdown env w
    = (Val tt,
       record (EvSleep 1)
         (slept (lap env (sleeps w))
            (record EvPauseSession (pause_all (torrents w) w)))).
Proof.
  intros Hsig. unfold shutdown.
  destruct (pause_all_log (torrents w) w) as (_ & Hs & Hsl).
  rewrite bind_get_torrents. cbv beta.
  rewrite (bind_run _ _ _ _ _ (for_each_pause_quiet (torrents w) w Hsig)). cbv beta.
  rewrite bind_session_pause_quiet by (rewrite Hs; exact Hsig).
  rewrite sleep_quiet by (simpl; rewrite Hs; exact Hsig).
  simpl. rewrite Hsl. reflexivity.
Qed.

(** X7: when no interrupt is pending, [shutdown] returns after pausing every
    torrent of the session, in the order of [get_torrents], then the session,
    then sleeping once; it removes no torrent and queries the engine never. *)
Theorem shutdown_pauses_everything (env : Env) (w : World) :
  sigint w = None ->
  exists w',
    shutdown env w = (Val tt, w') /\
    log w' = (EvSleep 1 :: EvPauseSession
                :: List.rev (map EvPauseTorrent (torrents w)) ++ log w)%list /\
    torrents w' = torrents w /\
    clock w' = (clock w + lap env (sleeps w))%Q /\
    queries w' = queries w.
Proof.
  intros Hsig. eexists. split; [apply shutdown_quiet; exact Hsig |].
  destruct (pause_all_log (torrents w) w) as (Hl & _ & _).
  destruct (pause_all_frame (torrents w) w) as (Ht & _ & Hc & Hq).
  simpl. rewrite Hl, Ht, Hc, Hq. auto.
Qed.

Lemma shutdown_pauses_everything_witness :
  exists w',
    shutdown (sample_env dead_engine) (mk_world 5 0 0 None [3%nat; 7%nat] 8%nat [] [])
      = (Val tt, w') /\
    log w' = [EvSleep 1; EvPauseSession; EvPauseTorrent 7%nat; EvPauseTorrent 3%nat] /\
    torrents w' = [3%nat; 7%nat] /\
    clock w' = (5 + 1)%Q /\
    queries w' = 0%nat.
Proof.
  exact (shutdown_pauses_everything (sample_env dead_engine)
           (mk_world 5 0 0 None [3%nat; 7%nat] 8%nat [] []) eq_refl).
Defined.

(** X8: run without a magnet link, the command-line tool prints its three usage
    lines and the script of downloader.py its one, and both exit with code 1
    before anything else happens. *)
Theorem missing_argument_exits_one (env : Env) (argv : list string) (fuel : nat)
        (w : World) :
  (length argv < 2)%nat ->
  sigint w = None ->
  main env argv fuel w
    = (Exited 1,
       record (EvPrint MsgExample)
         (record (EvPrint MsgUsage) (record (EvPrint MsgMissingArgument) w))) /\
  downloader_main env argv fuel w = (Exited 1, record (EvPrint MsgUsage) w).
Proof.
  intros Hlen Hsig.
  assert (Hargv : argv = [] \/ exists prog, argv = [prog]).
  { destruct argv as [| prog [| a rest]]; [left; reflexivity | right; eauto |].
    simpl in Hlen. lia. }
  unfold main, downloader_main, run_script, sys_exit.
  destruct Hargv as [-> | [prog ->]]; quiet; split; reflexivity.
Qed.

Lemma missing_argument_exits_one_witness :
  main (sample_env live_engine) ["cli_downloader.py"] 10 (initial_world 0 None)
    = (Exited 1,
       record (EvPrint MsgExample)
         (record (EvPrint MsgUsage)
            (record (EvPrint MsgMissingArgument) (initial_world 0 None)))) /\
  downloader_main (sample_env live_engine) ["downloader.py"] 10 (initial_world 0 None)
    = (Exited 1, record (EvPrint MsgUsage) (initial_world 0 None)).
Proof.
  refine (missing_argument_exits_one (sample_env live_engine) ["cli_downloader.py"] 10
            (initial_world 0 None) _ eq_refl).
  simpl. lia.
Defined.

Section Failures.

Variable env : Env.

Lemma download_torrent_rejects
      (magnet_link download_path : string) (fuel : nat) (w : World) :
  sigint w = None ->
  parse_magnet_uri env magnet_link = None ->
  exists w',
    download_torrent env magnet_link download_path fuel w = (Val tt, w') /\
    sigint w' = None /\
    queries w' = queries w /\
    sleeps w' = sleeps w /\
    torrents w' = torrents w /\
    appended (fun e => shutdown_event e = false) w w' /\
    exists l, log w' = EvPrint (MsgParseError MagnetError) :: l.
Proof.
  intros Hsig Hparse.
  unfold download_torrent, cli_resolve, ensure_directory, start_services,
    lt_parse_magnet_uri.
  rewrite Hparse.
  destruct (path_exists env download_path); quiet;
    (erewrite (bind_run (try_except _ _));
       [| erewrite try_except_caught;
          [| rewrite bind_raise; reflexivity | reflexivity];
          quiet; reflexivity]);
    world_simpl; quiet;
    (eexists; split; [reflexivity |]);
    (split; [exact Hsig |]);
    (split; [reflexivity |]); (split; [reflexivity |]); (split; [reflexivity |]);
    (split; [appended_steps | eexists; reflexivity]).
Qed.

Lemma download_rejects
      (download_path magnet_link : string) (on_progress on_metadata : bool)
      (fuel : nat) (w : World) :
  parse_magnet_uri env magnet_link = None ->
  download env download_path magnet_link on_progress on_metadata fuel w
    = (Raise MagnetError, w).
Proof.
  intros Hparse. unfold download, download_resolve, lt_parse_magnet_uri.
  rewrite Hparse. reflexivity.
Qed.

Lemma download_times_out_full
      (download_path magnet_link : string) (on_progress on_metadata : bool)
      (fuel n : nat) (w : World) :
  sigint w = None ->
  torrents w = [] ->
  parse_magnet_uri env magnet_link <> None ->
  no_metadata_through env w n ->
  deadline_cycle env w 60 n ->
  (n < fuel)%nat ->
  exists w',
    download env download_path magnet_link on_progress on_metadata fuel w
      = (Raise TimeoutError, w') /\
    resolving_only w w' /\
    sleeps w' = (sleeps w + n)%nat /\
    torrents w' = (torrents w ++ [next_handle w])%list /\
    sigint w' = None.
Proof.
  intros Hsig Hempty Hparse [Hcond Hstat] [Hearly Hlate] Hfuel.
  destruct (parse_magnet_uri env magnet_link) as [p |] eqn:Ep; [| congruence].
  pose proof (find_torrent_empty (info_hash p) w Hempty) as Efind.
  unfold download, download_resolve, lt_parse_magnet_uri. rewrite Ep.
  rewrite bind_assoc. quiet.
  match goal with
  | |- context [bind (download_wait_metadata env fuel ?h 60 ?st) _ ?w1] =>
      destruct (download_wait_times_out env n fuel h st w1)
        as (w' & Hrun & Hres & Hsl & _ & Hts & Hsg);
        [assumption | assumption | assumption | assumption | assumption
        | assumption |]
  end.
  rewrite (bind_fail _ _ _ _ _ Hrun).
  exists w'. split; [reflexivity |].
  split; [eapply appended_trans; [| exact Hres]; appended_steps |].
  split; [exact Hsl |]. split; [exact Hts | exact Hsg].
Qed.

End Failures.

Lemma appended_weaken (P Q : event -> Prop) (w w' : World) :
  (forall e, P e -> Q e) -> appended P w w' -> appended Q w w'.
Proof.
  intros HPQ (new & E & F). exists new. split; [exact E |].
  eapply Forall_impl; [exact HPQ | exact F].
Qed.

Lemma resolving_not_shutdown (e : event) :
  resolving_event e = true -> shutdown_event e = false.
Proof.
  unfold resolving_event. intros H. apply andb_true_iff in H. destruct H as [_ H].
  apply negb_true_iff in H. exact H.
Qed.

(** X9: the command-line tool exits with code 0 both when the parser rejects
    the link and when the wait for metadata times out, and pauses neither a
    torrent nor the session. *)
Theorem cli_failures_exit_zero
        (env : Env) (prog magnet_link : string) (rest : list string)
        (fuel n : nat) (w : World) :
  sigint w = None ->
  parse_magnet_uri env magnet_link = None \/
  (parse_magnet_uri env magnet_link <> None /\
   no_metadata_through env w n /\ deadline_cycle env w 60 n /\ (n < fuel)%nat) ->
  exists w',
    main env (prog :: magnet_link :: rest) fuel w = (Exited 0, w') /\
    appended (fun e => shutdown_event e = false) w w'.
Proof.
  intros Hsig [Hparse | (Hparse & Hquiet & Hdead & Hfuel)];
    unfold main, run_script.
  - destruct (download_torrent_rejects env magnet_link (path_argument rest) fuel w
                Hsig Hparse) as (w' & Hrun & _ & _ & _ & _ & Happ & _).
    rewrite Hrun. exists w'. split; [reflexivity | exact Happ].
  - destruct (download_torrent_times_out env magnet_link (path_argument rest) fuel n w
                Hsig Hparse Hquiet Hdead Hfuel) as (w' & Hrun & Hres & _).
    rewrite Hrun. exists w'. split; [reflexivity |].
    eapply appended_weaken; [| exact Hres]. exact resolving_not_shutdown.
Qed.

Lemma cli_failures_exit_zero_witness :
  (exists w',
     main (sample_env dead_engine) ["cli_downloader.py"; malformed_magnet] 62
          (initial_world 0 None) = (Exited 0, w') /\
     appended (fun e => shutdown_event e = false) (initial_world 0 None) w') /\
  (exists w',
     main (sample_env dead_engine) ["cli_downloader.py"; sample_magnet] 62
          (initial_world 0 None) = (Exited 0, w') /\
     appended (fun e => shutdown_event e = false) (initial_world 0 None) w').
Proof.
  split.
  - refine (cli_failures_exit_zero (sample_env dead_engine) "cli_downloader.py"
              malformed_magnet [] 62 0 (initial_world 0 None) eq_refl _).
    left. vm_compute. reflexivity.
  - refine (cli_failures_exit_zero (sample_env dead_engine) "cli_downloader.py"
              sample_magnet [] 62 61 (initial_world 0 None) eq_refl _).
    right. split; [vm_compute; discriminate |].
    split; [apply dead_engine_silent |].
    split; [exact dead_engine_deadline | lia].
Defined.

(** X10: started on an empty session, the script of downloader.py answers a
    rejected link and a metadata timeout alike: it prints the error, shuts down
    and exits with code 1; after a timeout the torrent it added has been paused
    and is still in the session. *)
Theorem script_failures_shut_down
        (env : Env) (prog magnet_link : string) (rest : list string)
        (fuel n : nat) (w : World) :
  sigint w = None ->
  torrents w = [] ->
  (parse_magnet_uri env magnet_link = None ->
   exists w' l,
     downloader_main env (prog :: magnet_link :: rest) fuel w = (Exited 1, w') /\
     log w' = EvSleep 1 :: EvPauseSession :: EvPrint (MsgError MagnetError) :: l /\
     torrents w' = []) /\
  (parse_magnet_uri env magnet_link <> None ->
   no_metadata_through env w n -> deadline_cycle env w 60 n -> (n < fuel)%nat ->
   exists w' l,
     downloader_main env (prog :: magnet_link :: rest) fuel w = (Exited 1, w') /\
     log w' = EvSleep 1 :: EvPauseSession :: EvPauseTorrent (next_handle w)
                :: EvPrint (MsgError TimeoutError) :: l /\
     torrents w' = [next_handle w]).
Proof.
  intros Hsig Hempty. split.
  - intros Hparse.
    unfold downloader_main, run_script, TorrentDownloader_init, start_services,
      ensure_directory.
    destruct (path_exists env (path_argument rest)); quiet;
      (erewrite try_except_caught;
         [| apply bind_fail; apply download_rejects; exact Hparse | reflexivity]);
      quiet;
      (erewrite (bind_run (shutdown env)); [| apply shutdown_quiet; exact Hsig]);
      cbv beta; unfold sys_exit, raise;
      (eexists; eexists; split; [reflexivity |]);
      cbn [log torrents record slept pause_all]; rewrite Hempty;
      cbn [log torrents record slept pause_all]; rewrite ?Hempty;
      (split; reflexivity).
  - intros Hparse Hquiet Hdead Hfuel.
    unfold downloader_main, run_script, TorrentDownloader_init, start_services,
      ensure_directory.
    destruct (path_exists env (path_argument rest)); quiet;
      match goal with
      | |- context [try_except _ _ ?w1] =>
          destruct (download_times_out_full env (path_argument rest) magnet_link
                      true true fuel n w1)
            as (w' & Hrun & _ & _ & Hts & Hsg);
            [exact Hsig | exact Hempty | exact Hparse | exact Hquiet | exact Hdead
            | exact Hfuel |]
      end;
      (erewrite try_except_caught;
         [| apply bind_fail; exact Hrun | reflexivity]);
      rewrite bind_print_quiet by exact Hsg;
      (erewrite (bind_run (shutdown env)); [| apply shutdown_quiet; exact Hsg]);
      cbv beta; unfold sys_exit, raise;
      (eexists; eexists; split; [reflexivity |]);
      cbn [log torrents next_handle record slept set_torrents] in *;
      rewrite Hts, Hempty; simpl;
      (split; [reflexivity |]);
      rewrite Hts, Hempty; reflexivity.
Qed.

Lemma script_failures_shut_down_witness :
  (exists w' l,
     downloader_main (sample_env dead_engine) ["downloader.py"; malformed_magnet] 62
                     (initial_world 0 None) = (Exited 1, w') /\
     log w' = EvSleep 1 :: EvPauseSession :: EvPrint (MsgError MagnetError) :: l /\
     torrents w' = []) /\
  (exists w' l,
     downloader_main (sample_env dead_engine) ["downloader.py"; sample_magnet] 62
                     (initial_world 0 None) = (Exited 1, w') /\
     log w' = EvSleep 1 :: EvPauseSession :: EvPauseTorrent 0%nat
                :: EvPrint (MsgError TimeoutError) :: l /\
     torrents w' = [0%nat]).
Proof.
  split.
  - refine (proj1 (script_failures_shut_down (sample_env dead_engine) "downloader.py"
                     malformed_magnet [] 62 0 (initial_world 0 None) eq_refl eq_refl)
                  _).
    vm_compute. reflexivity.
  - refine (proj2 (script_failures_shut_down (sample_env dead_engine) "downloader.py"
                     sample_magnet [] 62 61 (initial_world 0 None) eq_refl eq_refl)
                  _ (dead_engine_silent _ _) dead_engine_deadline _).
    + vm_compute. discriminate.
    + lia.
Defined.

(** ** The wait for metadata is bounded *)

Lemma emit_time (ev : event) (w w' : World) (r : res unit) :
  emit ev w = (r, w') -> same_time w w' /\ r <> OutOfFuel.
Proof.
  intros E. apply effect_cases in E.
  destruct E as [[-> ->] | [s E]]; [| inversion E; subst];
    (split; [split; reflexivity | discriminate]).
Qed.

Section Waiting.

Variable env : Env.

Lemma status_time (h : handle) (w w' : World) (r : res torrent_status) :
  handle_status env h w = (r, w') -> same_time w w' /\ r <> OutOfFuel.
Proof.
  intros E. apply effect_cases in E.
  destruct E as [[-> ->] | [s E]].
  - split; [split; reflexivity | discriminate].
  - simpl in E. destruct (engine env (queries w)); inversion E; subst;
      (split; [split; reflexivity | discriminate]).
Qed.

Lemma sleep_time (secs : Q) (w w' : World) (r : res unit) :
  time_sleep env secs w = (r, w') ->
  (r = Raise KeyboardInterrupt /\ same_time w w') \/
  (r = Val tt /\ clock w' = (clock w + lap env (sleeps w))%Q /\
   sleeps w' = S (sleeps w)).
Proof.
  intros E. apply effect_cases in E.
  destruct E as [[-> ->] | [s E]].
  - left. split; [reflexivity | split; reflexivity].
  - right. inversion E; subst. simpl. auto.
Qed.

Lemma bounded_wait_now {A} (start : Q) (fuel : nat) (w w' : World) (r : res A) :
  same_time w w' -> r <> OutOfFuel -> bounded_wait start fuel w (r, w').
Proof.
  intros [_ Hs] Hr. split; [intros _ _; exact Hr |].
  left. unfold elapsed_sleeps. simpl. rewrite Hs. lia.
Qed.

Lemma same_time_trans (w1 w2 w3 : World) :
  same_time w1 w2 -> same_time w2 w3 -> same_time w1 w3.
Proof. intros [A B] [C D]. split; congruence. Qed.

Hypothesis Hlap : sleeps_at_least_one_second env.

(** After a sleep taken when the deadline had not passed, the rest of the
    loop is bounded from the new world. *)
Lemma bounded_wait_after_sleep {A} (start : Q) (fuel : nat) (w w1 w2 : World)
      (run : res A * World) :
  same_time w w1 ->
  ~ (60 < clock w - start)%Q ->
  clock w2 = (clock w1 + lap env (sleeps w1))%Q ->
  sleeps w2 = S (sleeps w1) ->
  bounded_wait start fuel w2 run ->
  bounded_wait start (S fuel) w run.
Proof.
  intros [Hc Hs] Hearly Hc2 Hs2 [Hfuel Hsl].
  pose proof (Hlap (sleeps w1)) as Hone.
  assert (Hclock : clock w2 - start == clock w - start + lap env (sleeps w1)).
  { rewrite Hc2, Hc. ring. }
  assert (He : elapsed_sleeps w (snd run) = 1 + elapsed_sleeps w2 (snd run)).
  { unfold elapsed_sleeps. rewrite Hs2, Hs. lia. }
  split.
  - intros Hbig _. apply Hfuel.
    + rewrite Hclock. rewrite Nat2Z.inj_succ in Hbig. unfold Z.succ in Hbig.
      rewrite inject_Z_plus in Hbig. change (inject_Z 1) with 1%Q in Hbig. lra.
    + destruct fuel as [| fuel]; [| lia]. exfalso.
      simpl in Hbig. change (inject_Z 1) with 1%Q in Hbig. lra.
  - right. rewrite He. rewrite inject_Z_plus. change (inject_Z 1) with 1%Q.
    destruct Hsl as [-> | Hsl].
    + change (inject_Z 0) with 0%Q. lra.
    + rewrite Hclock in Hsl. lra.
Qed.

Lemma print_or_skip_time (b : bool) (m : message) (w w' : World) (r : res unit) :
  (if b then print m else ret tt) w = (r, w') -> same_time w w' /\ r <> OutOfFuel.
Proof.
  destruct b; intros E.
  - apply emit_time in E. exact E.
  - inversion E; subst. split; [split; reflexivity | discriminate].
Qed.

Lemma download_wait_bounded (fuel : nat) (h : handle) (start : Q) :
  forall w, bounded_wait start fuel w (download_wait_metadata env fuel h 60 start w).
Proof.
  induction fuel as [| fuel IH]; intros w.
  - split; [intros _ C; lia | left; unfold elapsed_sleeps; simpl; lia].
  - destruct (download_wait_metadata env (S fuel) h 60 start w) as [r w'] eqn:E.
    cbn [download_wait_metadata] in E.
    apply bind_inv in E.
    destruct E as [(st & w1 & E1 & E) | [(e & E1 & ->) | [E1 ->]]];
      destruct (status_time _ _ _ _ E1) as [T1 N1];
      [| apply bounded_wait_now; [exact T1 | discriminate] | congruence].
    destruct (has_metadata st).
    { inversion E; subst. apply bounded_wait_now; [exact T1 | discriminate]. }
    rewrite bind_time in E.
    destruct (Qltb 60 (clock w1 - start)) eqn:Elate.
    { inversion E; subst. apply bounded_wait_now; [exact T1 | discriminate]. }
    apply Qltb_false in Elate.
    apply bind_inv in E.
    destruct E as [(status & w2 & E2 & E) | [(e & E2 & ->) | [E2 ->]]];
      destruct (status_time _ _ _ _ E2) as [T2 N2];
      [| apply bounded_wait_now; [eapply same_time_trans; eassumption | discriminate]
       | congruence].
    apply bind_inv in E.
    destruct E as [(u & w3 & E3 & E) | [(e & E3 & ->) | [E3 ->]]];
      destruct (print_or_skip_time _ _ _ _ _ E3) as [T3 N3];
      [| apply bounded_wait_now;
         [eapply same_time_trans; [| exact T3]; eapply same_time_trans; eassumption
         | discriminate]
       | congruence].
    assert (T : same_time w w3).
    { eapply same_time_trans; [| exact T3]. eapply same_time_trans; eassumption. }
    apply bind_inv in E.
    destruct E as [(u' & w4 & E4 & E) | [(e & E4 & ->) | [E4 ->]]];
      destruct (sleep_time _ _ _ _ E4) as [[Hr T4] | (Hr & Hc4 & Hs4)];
      try discriminate;
      try (apply bounded_wait_now;
           [eapply same_time_trans; eassumption | discriminate]).
    apply (bounded_wait_after_sleep start fuel w w3 w4 (r, w') T).
    + destruct T1 as [Hc1 _]. rewrite <- Hc1. exact Elate.
    + exact Hc4.
    + exact Hs4.
    + rewrite <- E. apply IH.
Qed.

Lemma get_info_wait_bounded (fuel : nat) (h : handle) (start : Q) :
  forall w, bounded_wait start fuel w (get_info_wait_metadata env fuel h 60 start w).
Proof.
  induction fuel as [| fuel IH]; intros w.
  - split; [intros _ C; lia | left; unfold elapsed_sleeps; simpl; lia].
  - destruct (get_info_wait_metadata env (S fuel) h 60 start w) as [r w'] eqn:E.
    cbn [get_info_wait_metadata] in E.
    apply bind_inv in E.
    destruct E as [(st & w1 & E1 & E) | [(e & E1 & ->) | [E1 ->]]];
      destruct (status_time _ _ _ _ E1) as [T1 N1];
      [| apply bounded_wait_now; [exact T1 | discriminate] | congruence].
    destruct (has_metadata st).
    { inversion E; subst. apply bounded_wait_now; [exact T1 | discriminate]. }
    rewrite bind_time in E.
    destruct (Qltb 60 (clock w1 - start)) eqn:Elate.
    { inversion E; subst. apply bounded_wait_now; [exact T1 | discriminate]. }
    apply Qltb_false in Elate.
    apply bind_inv in E.
    destruct E as [(u' & w4 & E4 & E) | [(e & E4 & ->) | [E4 ->]]];
      destruct (sleep_time _ _ _ _ E4) as [[Hr T4] | (Hr & Hc4 & Hs4)];
      try discriminate;
      try (apply bounded_wait_now;
           [eapply same_time_trans; eassumption | discriminate]).
    apply (bounded_wait_after_sleep start fuel w w1 w4 (r, w') T1).
    + destruct T1 as [Hc1 _]. rewrite <- Hc1. exact Elate.
    + exact Hc4.
    + exact Hs4.
    + rewrite <- E. apply IH.
Qed.

Lemma timeout_lines_time (w w' : World) (r : res bool) :
  (print MsgTimeout;; print MsgDeadHint;; ret false) w = (r, w') ->
  same_time w w' /\ r <> OutOfFuel.
Proof.
  intros E. apply bind_inv in E.
  destruct E as [(u & w1 & E1 & E) | [(e & E1 & ->) | [E1 ->]]];
    destruct (emit_time _ _ _ _ E1) as [T1 N1];
    [| split; [exact T1 | discriminate] | congruence].
  apply bind_inv in E.
  destruct E as [(u2 & w2 & E2 & E) | [(e & E2 & ->) | [E2 ->]]];
    destruct (emit_time _ _ _ _ E2) as [T2 N2];
    [| split; [eapply same_time_trans; eassumption | discriminate] | congruence].
  inversion E; subst.
  split; [eapply same_time_trans; eassumption | discriminate].
Qed.

Lemma peer_line_time (b : bool) (n last : Z) (w w' : World) (r : res Z) :
  (if b then print (MsgPeers n);; ret n else ret last) w = (r, w') ->
  same_time w w' /\ r <> OutOfFuel.
Proof.
  destruct b; intros E.
  - apply bind_inv in E.
    destruct E as [(u & w1 & E1 & E) | [(e & E1 & ->) | [E1 ->]]];
      destruct (emit_time _ _ _ _ E1) as [T1 N1];
      [| split; [exact T1 | discriminate] | congruence].
    inversion E; subst. split; [exact T1 | discriminate].
  - inversion E; subst. split; [split; reflexivity | discriminate].
Qed.

Lemma cli_wait_bounded (fuel : nat) (h : handle) (start : Q) :
  forall last_peer_count w,
    bounded_wait start fuel w
                 (cli_wait_metadata env fuel h 60 start last_peer_count w).
Proof.
  induction fuel as [| fuel IH]; intros lpc w.
  - split; [intros _ C; lia | left; unfold elapsed_sleeps; simpl; lia].
  - destruct (cli_wait_metadata env (S fuel) h 60 start lpc w) as [r w'] eqn:E.
    cbn [cli_wait_metadata] in E.
    apply bind_inv in E.
    destruct E as [(st & w1 & E1 & E) | [(e & E1 & ->) | [E1 ->]]];
      destruct (status_time _ _ _ _ E1) as [T1 N1];
      [| apply bounded_wait_now; [exact T1 | discriminate] | congruence].
    destruct (has_metadata st).
    { inversion E; subst. apply bounded_wait_now; [exact T1 | discriminate]. }
    rewrite bind_time in E.
    destruct (Qltb 60 (clock w1 - start)) eqn:Elate.
    { destruct (timeout_lines_time _ _ _ E) as [T N].
      apply bounded_wait_now; [eapply same_time_trans; eassumption | exact N]. }
    apply Qltb_false in Elate.
    apply bind_inv in E.
    destruct E as [(status & w2 & E2 & E) | [(e & E2 & ->) | [E2 ->]]];
      destruct (status_time _ _ _ _ E2) as [T2 N2];
      [| apply bounded_wait_now; [eapply same_time_trans; eassumption | discriminate]
       | congruence].
    apply bind_inv in E.
    destruct E as [(lpc' & w3 & E3 & E) | [(e & E3 & ->) | [E3 ->]]];
      destruct (peer_line_time _ _ _ _ _ _ E3) as [T3 N3];
      [| apply bounded_wait_now;
         [eapply same_time_trans; [| exact T3]; eapply same_time_trans; eassumption
         | discriminate]
       | congruence].
    assert (T : same_time w w3).
    { eapply same_time_trans; [| exact T3]. eapply same_time_trans; eassumption. }
    apply bind_inv in E.
    destruct E as [(u' & w4 & E4 & E) | [(e & E4 & ->) | [E4 ->]]];
      destruct (sleep_time _ _ _ _ E4) as [[Hr T4] | (Hr & Hc4 & Hs4)];
      try discriminate;
      try (apply bounded_wait_now;
           [eapply same_time_trans; eassumption | discriminate]).
    apply (bounded_wait_after_sleep start fuel w w3 w4 (r, w') T).
    + destruct T1 as [Hc1 _]. rewrite <- Hc1. exact Elate.
    + exact Hc4.
    + exact Hs4.
    + rewrite <- E. apply IH.
Qed.

End Waiting.

(** X11: if every sleep lasts at least one second, each of the three waits for
    metadata ends within 62 cycles and after at most 61 sleeps, whatever the
    engine answers and whether or not an interrupt arrives. *)
Theorem metadata_wait_is_bounded
        (env : Env) (fuel : nat) (h : handle) (last_peer_count : Z) (w : World) :
  sleeps_at_least_one_second env ->
  (62 <= fuel)%nat ->
  let script := download_wait_metadata env fuel h 60 (clock w) w in
  let info := get_info_wait_metadata env fuel h 60 (clock w) w in
  let cli := cli_wait_metadata env fuel h 60 (clock w) last_peer_count w in
  (fst script <> OutOfFuel /\ (sleeps (snd script) <= sleeps w + 61)%nat) /\
  (fst info <> OutOfFuel /\ (sleeps (snd info) <= sleeps w + 61)%nat) /\
  (fst cli <> OutOfFuel /\ (sleeps (snd cli) <= sleeps w + 61)%nat).
Proof.
  intros Hlap Hfuel script info cli.
  assert (Hbig : (61 < clock w - clock w + inject_Z (Z.of_nat fuel))%Q).
  { assert (H : (inject_Z 62 <= inject_Z (Z.of_nat fuel))%Q)
      by (rewrite <- Zle_Qle; lia).
    change (inject_Z 62) with 62%Q in H. lra. }
  assert (Hsl : forall w', elapsed_sleeps w w' = 0 \/
                  (inject_Z (elapsed_sleeps w w') <= 61 - (clock w - clock w))%Q ->
                  (sleeps w' <= sleeps w + 61)%nat).
  { intros w' [H | H]; unfold elapsed_sleeps in *; [lia |].
    assert (H' : (inject_Z (Z.of_nat (sleeps w') - Z.of_nat (sleeps w)) <= inject_Z 61)%Q).
    { change (inject_Z 61) with 61%Q. lra. }
    rewrite <- Zle_Qle in H'. lia. }
  split; [| split].
  - destruct (download_wait_bounded env Hlap fuel h (clock w) w) as [H1 H2].
    split; [apply H1; [exact Hbig | lia] | apply Hsl, H2].
  - destruct (get_info_wait_bounded env Hlap fuel h (clock w) w) as [H1 H2].
    split; [apply H1; [exact Hbig | lia] | apply Hsl, H2].
  - destruct (cli_wait_bounded env Hlap fuel h (clock w) last_peer_count w) as [H1 H2].
    split; [apply H1; [exact Hbig | lia] | apply Hsl, H2].
Qed.

Lemma metadata_wait_is_bounded_witness :
  let env := sample_env dead_engine in
  let w := initial_world 0 None in
  (fst (download_wait_metadata env 62 0%nat 60 (clock w) w) <> OutOfFuel /\
   (sleeps (snd (download_wait_metadata env 62 0%nat 60 (clock w) w)) <= sleeps w + 61)%nat) /\
  (fst (get_info_wait_metadata env 62 0%nat 60 (clock w) w) <> OutOfFuel /\
   (sleeps (snd (get_info_wait_metadata env 62 0%nat 60 (clock w) w)) <= sleeps w + 61)%nat) /\
  (fst (cli_wait_metadata env 62 0%nat 60 (clock w) 0 w) <> OutOfFuel /\
   (sleeps (snd (cli_wait_metadata env 62 0%nat 60 (clock w) 0 w)) <= sleeps w + 61)%nat).
Proof.
  refine (metadata_wait_is_bounded (sample_env dead_engine) 62 0%nat 0
                                   (initial_world 0 None) _ _).
  - intros k. simpl. unfold Qle. simpl. lia.
  - lia.
Defined.

(** ** The download phase has no deadline *)

Section Stalled.

Variable env : Env.

Lemma download_loop_runs_on (fuel : nat) (h : handle) (on_progress : bool) :
  forall w,
    sigint w = None ->
    never_seeding env (queries w) ->
    exists w',
      download_loop env fuel h on_progress w = (OutOfFuel, w') /\
      sleeps w' = (sleeps w + fuel)%nat /\
      queries w' = (queries w + 2 * fuel)%nat /\
      clock w' = clock_after (lap env) (clock w) (sleeps w) fuel /\
      count_on_progress (log w')
        = (count_on_progress (log w) + if on_progress then fuel else 0)%nat.
Proof.
  induction fuel as [| fuel IH]; intros w Hsig Hnever.
  - exists w. split; [reflexivity |]. cbn [clock_after].
    destruct on_progress; repeat split; lia.
  - destruct (Hnever (queries w) ltac:(lia)) as (s0 & Hs0 & Hn0).
    destruct (Hnever (S (queries w)) ltac:(lia)) as (s1 & Hs1 & _).
    cbn [download_loop].
    erewrite bind_is_seed_quiet by quiet_side. rewrite Hn0. world_simpl.
    erewrite bind_status_quiet by quiet_side. world_simpl.
    assert (Hnext : forall w1, sigint w1 = None -> queries w1 = S (S (queries w)) ->
              never_seeding env (queries w1)).
    { intros w1 _ Hq n Hn. apply Hnever. lia. }
    destruct on_progress; quiet;
      match goal with |- context [download_loop env fuel h _ ?w1] =>
        destruct (IH w1 Hsig (Hnext w1 Hsig eq_refl)) as (w' & Hrun & Hsl & Hq & Hc & Hn)
      end; exists w'; (split; [exact Hrun |]);
      cbn [clock queries sleeps log record slept answered count_on_progress] in *;
      rewrite Hsl, Hq, Hc, Hn; cbn [clock_after]; repeat split; lia.
Qed.

Lemma cli_download_loop_runs_on (fuel : nat) (h : handle) :
  forall last_progress pbar_n w,
    sigint w = None ->
    never_seeding env (queries w) ->
    exists w',
      cli_download_loop env fuel h last_progress pbar_n w = (OutOfFuel, w') /\
      sleeps w' = (sleeps w + fuel)%nat /\
      queries w' = (queries w + 2 * fuel)%nat /\
      clock w' = clock_after (lap env) (clock w) (sleeps w) fuel.
Proof.
  induction fuel as [| fuel IH]; intros lp pn w Hsig Hnever.
  - exists w. split; [reflexivity |]. cbn [clock_after]. repeat split; lia.
  - destruct (Hnever (queries w) ltac:(lia)) as (s0 & Hs0 & Hn0).
    destruct (Hnever (S (queries w)) ltac:(lia)) as (s1 & Hs1 & _).
    cbn [cli_download_loop].
    erewrite bind_is_seed_quiet by quiet_side. rewrite Hn0. world_simpl.
    erewrite bind_status_quiet by quiet_side. world_simpl.
    assert (Hnext : forall w1, sigint w1 = None -> queries w1 = S (S (queries w)) ->
              never_seeding env (queries w1)).
    { intros w1 _ Hq n Hn. apply Hnever. lia. }
    destruct (Qltb lp (progress s1 * 100)); quiet;
      match goal with |- context [cli_download_loop env fuel h ?a ?b ?w1] =>
        destruct (IH a b w1 Hsig (Hnext w1 Hsig eq_refl)) as (w' & Hrun & Hsl & Hq & Hc)
      end; exists w'; (split; [exact Hrun |]);
      cbn [clock queries sleeps log record slept answered] in *;
      rewrite Hsl, Hq, Hc; cbn [clock_after]; repeat split; lia.
Qed.

End Stalled.

(** X12: the download loops have no deadline: while the engine keeps answering
    that the torrent is not a seed and no interrupt arrives, both loops are
    still running after any number of cycles, having slept once per cycle. *)
Theorem download_phase_has_no_deadline
        (env : Env) (fuel : nat) (h : handle) (on_progress : bool)
        (last_progress pbar_n : Q) (w : World) :
  sigint w = None ->
  never_seeding env (queries w) ->
  (exists w',
     download_loop env fuel h on_progress w = (OutOfFuel, w') /\
     sleeps w' = (sleeps w + fuel)%nat /\
     clock w' = clock_after (lap env) (clock w) (sleeps w) fuel) /\
  (exists w',
     cli_download_loop env fuel h last_progress pbar_n w = (OutOfFuel, w') /\
     sleeps w' = (sleeps w + fuel)%nat /\
     clock w' = clock_after (lap env) (clock w) (sleeps w) fuel).
Proof.
  intros Hsig Hnever. split.
  - destruct (download_loop_runs_on env fuel h on_progress w Hsig Hnever)
      as (w' & Hrun & Hsl & _ & Hc & _).
    exists w'. auto.
  - destruct (cli_download_loop_runs_on env fuel h last_progress pbar_n w Hsig Hnever)
      as (w' & Hrun & Hsl & _ & Hc).
    exists w'. auto.
Qed.

Lemma download_phase_has_no_deadline_witness :
  (exists w',
     download_loop (sample_env stalled_engine) 1000 0%nat true (initial_world 0 None)
       = (OutOfFuel, w') /\
     sleeps w' = (0 + 1000)%nat /\
     clock w' = clock_after (fun _ => 1%Q) 0 0 1000) /\
  (exists w',
     cli_download_loop (sample_env stalled_engine) 1000 0%nat 0 0 (initial_world 0 None)
       = (OutOfFuel, w') /\
     sleeps w' = (0 + 1000)%nat /\
     clock w' = clock_after (fun _ => 1%Q) 0 0 1000).
Proof.
  refine (download_phase_has_no_deadline (sample_env stalled_engine) 1000 0%nat true 0 0
            (initial_world 0 None) eq_refl _).
  intros n _. exists st_half. split; reflexivity.
Defined.

(** ** Successful runs *)

Lemma file_list_files (ti : torrent_info) : file_list ti = files ti.
Proof.
  unfold file_list, num_files, file_at.
  apply (nth_ext _ _ (mk_file "" 0) (mk_file "" 0)).
  - rewrite length_map, length_seq. reflexivity.
  - intros n Hn. rewrite length_map, length_seq in Hn.
    rewrite (nth_indep _ _ ((fun i => mk_file (path (nth i (files ti) (mk_file "" 0)))
                                              (size (nth i (files ti) (mk_file "" 0)))) 0%nat))
      by (rewrite length_map, length_seq; exact Hn).
    rewrite (map_nth (fun i => mk_file (path (nth i (files ti) (mk_file "" 0)))
                                       (size (nth i (files ti) (mk_file "" 0))))).
    rewrite seq_nth by exact Hn. simpl.
    destruct (nth n (files ti) (mk_file "" 0)). reflexivity.
Qed.

Lemma count_on_metadata_app (l1 l2 : list event) :
  count_on_metadata (l1 ++ l2) = (count_on_metadata l1 + count_on_metadata l2)%nat.
Proof.
  induction l1 as [| e l1 IH]; [reflexivity |].
  destruct e; simpl; rewrite IH; reflexivity.
Qed.

Lemma count_on_progress_app (l1 l2 : list event) :
  count_on_progress (l1 ++ l2) = (count_on_progress l1 + count_on_progress l2)%nat.
Proof.
  induction l1 as [| e l1 IH]; [reflexivity |].
  destruct e; simpl; rewrite IH; reflexivity.
Qed.

Lemma waiting_no_callbacks (w w' : World) :
  appended (fun e => waiting_event e = true) w w' ->
  count_on_metadata (log w') = count_on_metadata (log w) /\
  count_on_progress (log w') = count_on_progress (log w).
Proof.
  intros (new & -> & Hall).
  rewrite count_on_metadata_app, count_on_progress_app.
  assert (H : count_on_metadata new = 0%nat /\ count_on_progress new = 0%nat).
  { induction Hall as [| e l He _ IH]; [auto |].
    destruct e; try discriminate; simpl; exact IH. }
  destruct H as [-> ->]. auto.
Qed.

Lemma record_all_log (evs : list event) :
  forall w,
    log (record_all evs w) = (List.rev evs ++ log w)%list /\
    sigint (record_all evs w) = sigint w /\
    sleeps (record_all evs w) = sleeps w /\
    queries (record_all evs w) = queries w /\
    clock (record_all evs w) = clock w /\
    torrents (record_all evs w) = torrents w /\
    next_handle (record_all evs w) = next_handle w.
Proof.
  induction evs as [| ev evs IH]; intros w; simpl; [repeat split; reflexivity |].
  destruct (IH (record ev w)) as (H1 & H2 & H3 & H4 & H5 & H6 & H7).
  rewrite H1, H2, H3, H4, H5, H6, H7. simpl.
  rewrite <- app_assoc. repeat split; reflexivity.
Qed.

Lemma for_each_emit_quiet {A} (f : A -> event) (xs : list A) :
  forall w, sigint w = None ->
    for_each xs (fun x => emit (f x)) w = (Val tt, record_all (map f xs) w).
Proof.
  induction xs as [| x xs IH]; intros w Hsig; [reflexivity |].
  cbn [for_each map record_all].
  rewrite bind_emit_quiet by exact Hsig. apply IH. exact Hsig.
Qed.

Section Success.

Variable env : Env.

Lemma download_wait_finds (k : nat) :
  forall (fuel : nat) (h : handle) (start : Q) (w : World),
    sigint w = None ->
    metadata_at_cycle env (queries w) k ->
    (forall i, (i < k)%nat ->
       ~ (60 < clock_after (lap env) (clock w) (sleeps w) i - start)%Q) ->
    (k < fuel)%nat ->
    exists w',
      download_wait_metadata env fuel h 60 start w = (Val tt, w') /\
      appended (fun e => waiting_event e = true) w w' /\
      sleeps w' = (sleeps w + k)%nat /\
      queries w' = (queries w + 2 * k + 1)%nat /\
      clock w' = clock_after (lap env) (clock w) (sleeps w) k /\
      torrents w' = torrents w /\
      next_handle w' = next_handle w /\
      sigint w' = None.
Proof.
  induction k as [| k IH]; intros fuel h start w Hsig (Hno & Hstat & Hyes) Hearly Hfuel;
    (destruct fuel as [| fuel]; [lia |]); cbn [download_wait_metadata].
  - destruct Hyes as (s & Hs & Hm). rewrite Nat.mul_0_r, Nat.add_0_r in Hs.
    erewrite bind_status_quiet by quiet_side. rewrite Hm.
    eexists. split; [reflexivity |]. world_simpl. cbn [clock_after].
    split; [appended_steps |]. repeat split; try lia. exact Hsig.
  - destruct (Hno 0%nat ltac:(lia)) as (s0 & Hs0 & Hm0).
    destruct (Hstat 0%nat ltac:(lia)) as (s1 & Hs1).
    rewrite Nat.mul_0_r, Nat.add_0_r in Hs0.
    rewrite Nat.mul_0_r, Nat.add_0_r, Nat.add_1_r in Hs1.
    pose proof (Hearly 0%nat ltac:(lia)) as Hnow. cbn [clock_after] in Hnow.
    apply Qltb_false in Hnow.
    erewrite bind_status_quiet by quiet_side. rewrite Hm0. world_simpl.
    rewrite bind_time. world_simpl. rewrite Hnow.
    erewrite bind_status_quiet by quiet_side. world_simpl.
    assert (Hrest :
      forall w1, sigint w1 = None -> clock w1 = (clock w + lap env (sleeps w))%Q ->
        sleeps w1 = S (sleeps w) -> queries w1 = S (S (queries w)) ->
        exists w',
          download_wait_metadata env fuel h 60 start w1 = (Val tt, w') /\
          appended (fun e => waiting_event e = true) w1 w' /\
          sleeps w' = (sleeps w1 + k)%nat /\
          queries w' = (queries w1 + 2 * k + 1)%nat /\
          clock w' = clock_after (lap env) (clock w1) (sleeps w1) k /\
          torrents w' = torrents w1 /\ next_handle w' = next_handle w1 /\
          sigint w' = None).
    { intros w1 Hsg Hc Hsl Hq. apply IH; try assumption; [| | lia].
      - rewrite Hq. repeat split.
        + intros i Hi. destruct (Hno (S i) ltac:(lia)) as (s & Hs & Hm).
          exists s. split; [| exact Hm]. rewrite <- Hs. f_equal. lia.
        + intros i Hi. destruct (Hstat (S i) ltac:(lia)) as (s & Hs).
          exists s. rewrite <- Hs. f_equal. lia.
        + destruct Hyes as (s & Hs & Hm). exists s. split; [| exact Hm].
          rewrite <- Hs. f_equal. lia.
      - intros i Hi. rewrite Hc, Hsl. apply (Hearly (S i)). lia. }
    destruct (0 <? num_peers s1); quiet;
      match goal with |- context [download_wait_metadata env fuel h 60 start ?w1] =>
        destruct (Hrest w1 Hsig eq_refl eq_refl eq_refl)
          as (w' & Hrun & Hres & Hsl & Hq & Hc & Hts & Hnh & Hsg);
          exists w'; (split; [exact Hrun |]);
          (split; [eapply appended_trans; [| exact Hres]; appended_steps |])
      end; cbn [clock queries sleeps torrents next_handle record slept answered] in *;
      rewrite Hsl, Hq, Hc; cbn [clock_after]; repeat split; try lia; assumption.
Qed.

Lemma download_loop_completes (j : nat) :
  forall (fuel : nat) (h : handle) (on_progress : bool) (w : World),
    sigint w = None ->
    seeding_at_cycle env (queries w) j ->
    (j < fuel)%nat ->
    exists w',
      download_loop env fuel h on_progress w = (Val tt, w') /\
      count_on_progress (log w')
        = (count_on_progress (log w) + if on_progress then j else 0)%nat /\
      count_on_metadata (log w') = count_on_metadata (log w) /\
      sleeps w' = (sleeps w + j)%nat /\
      queries w' = (queries w + 2 * j + 1)%nat /\
      torrents w' = torrents w /\
      sigint w' = None /\
      appended (fun e => shutdown_event e = false) w w'.
Proof.
  induction j as [| j IH]; intros fuel h op w Hsig (Hno & Hstat & Hyes) Hfuel;
    (destruct fuel as [| fuel]; [lia |]); cbn [download_loop].
  - destruct Hyes as (s & Hs & Hm). rewrite Nat.mul_0_r, Nat.add_0_r in Hs.
    erewrite bind_is_seed_quiet by quiet_side. rewrite Hm.
    eexists. split; [reflexivity |]. world_simpl. cbn [count_on_progress count_on_metadata].
    destruct op; repeat split; try lia; try exact Hsig; appended_steps.
  - destruct (Hno 0%nat ltac:(lia)) as (s0 & Hs0 & Hm0).
    destruct (Hstat 0%nat ltac:(lia)) as (s1 & Hs1).
    rewrite Nat.mul_0_r, Nat.add_0_r in Hs0.
    rewrite Nat.mul_0_r, Nat.add_0_r, Nat.add_1_r in Hs1.
    erewrite bind_is_seed_quiet by quiet_side. rewrite Hm0. world_simpl.
    erewrite bind_status_quiet by quiet_side. world_simpl.
    assert (Hnext : forall w1, queries w1 = S (S (queries w)) ->
              seeding_at_cycle env (queries w1) j).
    { intros w1 Hq. rewrite Hq. repeat split.
      - intros i Hi. destruct (Hno (S i) ltac:(lia)) as (s & Hs & Hm).
        exists s. split; [| exact Hm]. rewrite <- Hs. f_equal. lia.
      - intros i Hi. destruct (Hstat (S i) ltac:(lia)) as (s & Hs).
        exists s. rewrite <- Hs. f_equal. lia.
      - destruct Hyes as (s & Hs & Hm). exists s. split; [| exact Hm].
        rewrite <- Hs. f_equal. lia. }
    destruct op; quiet;
      match goal with |- context [download_loop env fuel h ?b ?w1] =>
        destruct (IH fuel h b w1 Hsig (Hnext w1 eq_refl) ltac:(lia))
          as (w' & Hrun & Hn & Hmd & Hsl & Hq & Hts & Hsg & Happ)
      end; exists w'; (split; [exact Hrun |]);
      cbn [clock queries sleeps torrents log record slept answered
           count_on_progress count_on_metadata] in *;
      rewrite Hsl, Hq, Hn, Hmd;
      (repeat split; try lia; try assumption);
      (eapply appended_trans; [| exact Happ]); appended_steps.
Qed.

End Success.

Section Completion.

Variable env : Env.

Lemma download_completes_full
      (download_path magnet_link : string) (on_progress on_metadata : bool)
      (fuel k j : nat) (p : add_torrent_params) (w : World) :
  sigint w = None ->
  parse_magnet_uri env magnet_link = Some p ->
  metadata_at_cycle env (queries w) k ->
  within_deadline env w 60 k ->
  seeding_at_cycle env (queries w + 2 * k + 1) j ->
  (k < fuel)%nat ->
  (j < fuel)%nat ->
  exists w',
    download env download_path magnet_link on_progress on_metadata fuel w
      = (Val (mk_result (name (the_info env)) (files (the_info env))
                        (abspath env download_path)), w') /\
    torrents w' = torrents_after_add p w /\
    sleeps w' = (sleeps w + k + j)%nat /\
    queries w' = (queries w + 2 * k + 1 + 2 * j + 1)%nat /\
    count_on_metadata (log w')
      = (count_on_metadata (log w) + if on_metadata then 1 else 0)%nat /\
    count_on_progress (log w')
      = (count_on_progress (log w) + if on_progress then j else 0)%nat /\
    sigint w' = None /\
    appended (fun e => shutdown_event e = false) w w'.
Proof.
  intros Hsig Hp Hmeta Hearly Hseed Hk Hj.
  unfold download, download_resolve, lt_parse_magnet_uri, torrents_after_add.
  rewrite Hp.
  destruct (find_torrent (info_hash p) w) as [h0 |] eqn:Efind; quiet;
  match goal with
  | |- context [bind (download_wait_metadata env fuel ?h 60 ?st) _ ?w1] =>
    destruct (download_wait_finds env k fuel h st w1 Hsig Hmeta Hearly Hk)
      as (w1' & Hrun & Hres & Hsl & Hq & _ & Hts & _ & Hsg)
  end;
  rewrite (bind_run _ _ _ _ _ Hrun); cbv beta;
  destruct (waiting_no_callbacks _ _ Hres) as [Hmd Hpr];
  (assert (Hquiet : appended (fun e => shutdown_event e = false) w w1')
     by (eapply appended_trans; [| eapply appended_weaken; [| exact Hres]];
         [appended_steps
         | intros e He; destruct e; try discriminate; reflexivity]));
  cbn [clock queries sleeps torrents next_handle log record set_torrents
       set_info_hash count_on_metadata count_on_progress] in Hsl, Hq, Hts, Hmd, Hpr;
  (assert (Hloop : forall w2, sigint w2 = None -> queries w2 = queries w1' ->
             seeding_at_cycle env (queries w2) j)
     by (intros w2 _ ->; rewrite Hq; exact Hseed));
  destruct on_metadata; quiet;
    match goal with
    | |- context [bind (download_loop env fuel ?h ?b) _ ?w2] =>
      destruct (download_loop_completes env j fuel h b w2 Hsg (Hloop w2 Hsg eq_refl) Hj)
        as (w' & Hrun2 & Hpr2 & Hmd2 & Hsl2 & Hq2 & Hts2 & Hsg2 & Happ2)
    end;
    rewrite (bind_run _ _ _ _ _ Hrun2); cbv beta zeta; rewrite file_list_files;
    exists w'; (split; [reflexivity |]);
    cbn [clock queries sleeps torrents next_handle log record
         count_on_metadata count_on_progress] in *;
    rewrite Hts2, Hts, Hsl2, Hsl, Hq2, Hq, Hmd2, Hmd, Hpr2, Hpr;
    (repeat split; try lia; try assumption);
    (eapply appended_trans; [exact Hquiet |]);
    (eapply appended_trans; [| exact Happ2]); appended_steps.
Qed.

End Completion.

(** X13: a download whose metadata arrives in time and which then completes
    returns the torrent's name, its whole file list and the absolute download
    path, after [k + j] sleeps; the torrent stays in the session (added as a
    new one unless the session already held it), [on_metadata] has been called
    once and [on_progress] once per download cycle. *)
Theorem download_completes
        (env : Env) (download_path magnet_link : string)
        (on_progress on_metadata : bool)
        (fuel k j : nat) (p : add_torrent_params) (w : World) :
  sigint w = None ->
  parse_magnet_uri env magnet_link = Some p ->
  metadata_at_cycle env (queries w) k ->
  within_deadline env w 60 k ->
  seeding_at_cycle env (queries w + 2 * k + 1) j ->
  (k < fuel)%nat ->
  (j < fuel)%nat ->
  exists w',
    download env download_path magnet_link on_progress on_metadata fuel w
      = (Val (mk_result (name (the_info env)) (files (the_info env))
                        (abspath env download_path)), w') /\
    torrents w' = torrents_after_add p w /\
    sleeps w' = (sleeps w + k + j)%nat /\
    count_on_metadata (log w')
      = (count_on_metadata (log w) + if on_metadata then 1 else 0)%nat /\
    count_on_progress (log w')
      = (count_on_progress (log w) + if on_progress then j else 0)%nat.
Proof.
  intros Hsig Hp Hmeta Hearly Hseed Hk Hj.
  destruct (download_completes_full env download_path magnet_link on_progress
              on_metadata fuel k j p w Hsig Hp Hmeta Hearly Hseed Hk Hj)
    as (w' & Hrun & Hts & Hsl & _ & Hmd & Hpr & _ & _).
  exists w'. auto.
Qed.

Lemma slow_engine_metadata : metadata_at_cycle (sample_env slow_engine) 0 1.
Proof.
  repeat split.
  - intros i Hi. assert (i = 0%nat) as -> by lia. exists st_waiting. split; reflexivity.
  - intros i Hi. assert (i = 0%nat) as -> by lia. exists st_waiting. reflexivity.
  - exists st_half. split; reflexivity.
Qed.

Lemma slow_engine_in_time :
  within_deadline (sample_env slow_engine) (initial_world 0 None) 60 1.
Proof.
  intros i Hi. assert (i = 0%nat) as -> by lia. simpl. intros H. discriminate H.
Qed.

Lemma slow_engine_seeding : seeding_at_cycle (sample_env slow_engine) (0 + 2 * 1 + 1) 1.
Proof.
  repeat split.
  - intros i Hi. assert (i = 0%nat) as -> by lia. exists st_half. split; reflexivity.
  - intros i Hi. assert (i = 0%nat) as -> by lia. exists st_half. reflexivity.
  - exists st_seeding. split; reflexivity.
Qed.

Lemma download_completes_witness :
  exists w',
    download (sample_env slow_engine) default_download_path sample_magnet true true 10
             (initial_world 0 None)
      = (Val (mk_result "sample"
                [mk_file "sample/a.bin" 6291456; mk_file "sample/b.bin" 4194304]
                "/home/user/./downloads"), w') /\
    torrents w' = [0%nat] /\
    sleeps w' = 2%nat /\
    count_on_metadata (log w') = 1%nat /\
    count_on_progress (log w') = 1%nat.
Proof.
  refine (download_completes (sample_env slow_engine) default_download_path sample_magnet
            true true 10 1 1 (mk_params sample_hash "") (initial_world 0 None)
            eq_refl eq_refl slow_engine_metadata slow_engine_in_time
            slow_engine_seeding _ _); lia.
Defined.

Section Scripts.

Variable env : Env.

Lemma init_quiet (download_path : string) (w : World) :
  sigint w = None ->
  exists w1,
    TorrentDownloader_init env download_path w = (Val tt, w1) /\
    sigint w1 = None /\
    clock w1 = clock w /\ sleeps w1 = sleeps w /\ queries w1 = queries w /\
    torrents w1 = torrents w /\ next_handle w1 = next_handle w /\
    info_hashes w1 = info_hashes w /\
    count_on_metadata (log w1) = count_on_metadata (log w) /\
    count_on_progress (log w1) = count_on_progress (log w) /\
    appended (fun e => shutdown_event e = false) w w1.
Proof.
  intros Hsig.
  unfold TorrentDownloader_init, start_services, ensure_directory.
  destruct (path_exists env download_path); quiet;
    [| rewrite emit_quiet by quiet_side];
    (eexists; split; [reflexivity |]); world_simpl;
    (repeat split; try assumption); appended_steps.
Qed.

End Scripts.

(** X14: on a successful download the script of downloader.py prints the
    completion line, the absolute path and one line per file, and exits with
    code 0 without calling [shutdown]: nothing is paused and the torrent stays
    in the session (added as a new one unless the session already held it). *)
Theorem script_success_lists_files
        (env : Env) (prog magnet_link : string) (rest : list string)
        (fuel k j : nat) (p : add_torrent_params) (w : World) :
  sigint w = None ->
  parse_magnet_uri env magnet_link = Some p ->
  metadata_at_cycle env (queries w) k ->
  within_deadline env w 60 k ->
  seeding_at_cycle env (queries w + 2 * k + 1) j ->
  (k < fuel)%nat ->
  (j < fuel)%nat ->
  exists w' l,
    downloader_main env (prog :: magnet_link :: rest) fuel w = (Exited 0, w') /\
    log w' = (List.rev (map script_file_line (files (the_info env)))
                ++ EvPrint MsgListing
                :: EvPrint (MsgSavedTo (abspath env (path_argument rest)))
                :: EvPrint MsgComplete :: l)%list /\
    appended (fun e => shutdown_event e = false) w w' /\
    torrents w' = torrents_after_add p w /\
    count_on_metadata (log w') = S (count_on_metadata (log w)) /\
    count_on_progress (log w') = (count_on_progress (log w) + j)%nat.
Proof.
  intros Hsig Hp Hmeta Hearly Hseed Hk Hj.
  destruct (init_quiet env (path_argument rest) w Hsig)
    as (w1 & Hinit & Hsig1 & Hc1 & Hsl1 & Hq1 & Hts1 & Hnh1 & Hih1 & Hmd1 & Hpr1
        & Happ1).
  destruct (download_completes_full env (path_argument rest) magnet_link true true
              fuel k j p w1 Hsig1 Hp) as (wd & Hd & Hts & _ & _ & Hmd & Hpr & Hsgd & Happd);
    try assumption.
  { rewrite Hq1. exact Hmeta. }
  { unfold within_deadline. rewrite Hc1, Hsl1. exact Hearly. }
  { rewrite Hq1. exact Hseed. }
  set (wl := record (EvPrint MsgListing)
               (record (EvPrint (MsgSavedTo (abspath env (path_argument rest))))
                  (record (EvPrint MsgComplete) wd))).
  destruct (record_all_log (map script_file_line (files (the_info env))) wl)
    as (Hlog & _ & _ & _ & _ & Htsl & _).
  exists (record_all (map script_file_line (files (the_info env))) wl), (log wd).
  split.
  - unfold downloader_main, run_script.
    rewrite (bind_run _ _ _ _ _ Hinit). cbv beta.
    erewrite try_except_Val; [reflexivity |].
    rewrite (bind_run _ _ _ _ _ Hd). cbv beta. quiet.
    apply (for_each_emit_quiet script_file_line). exact Hsgd.
  - unfold appended. rewrite !Hlog, Htsl. subst wl. cbn [log torrents record].
    split; [reflexivity |].
    split.
    { destruct Happ1 as (n1 & Hn1 & Hall1). destruct Happd as (nd & Hnd & Halld).
      exists ((List.rev (map script_file_line (files (the_info env)))
                ++ [EvPrint MsgListing;
                    EvPrint (MsgSavedTo (abspath env (path_argument rest)));
                    EvPrint MsgComplete]) ++ nd ++ n1)%list.
      split.
      - rewrite Hnd, Hn1. rewrite <- !app_assoc. reflexivity.
      - apply Forall_app. split; [apply Forall_app; split |].
        + apply Forall_rev, Forall_map, Forall_forall. intros f _. reflexivity.
        + repeat constructor.
        + apply Forall_app. split; assumption. }
    split; [rewrite Hts; apply torrents_after_add_same; assumption |].
    rewrite !count_on_metadata_app, !count_on_progress_app.
    assert (Hlines : forall fs,
              count_on_metadata (List.rev (map script_file_line fs)) = 0%nat /\
              count_on_progress (List.rev (map script_file_line fs)) = 0%nat).
    { induction fs as [| f fs [IH1 IH2]]; [auto |]. simpl.
      rewrite count_on_metadata_app, count_on_progress_app, IH1, IH2. auto. }
    destruct (Hlines (files (the_info env))) as [-> ->].
    cbn [count_on_metadata count_on_progress]. rewrite Hmd, Hpr, Hmd1, Hpr1.
    split; lia.
Qed.

Lemma script_success_lists_files_witness :
  exists w' l,
    downloader_main (sample_env slow_engine) ["downloader.py"; sample_magnet] 10
                    (initial_world 0 None) = (Exited 0, w') /\
    log w' = (List.rev (map script_file_line (files sample_info))
                ++ EvPrint MsgListing
                :: EvPrint (MsgSavedTo "/home/user/./downloads")
                :: EvPrint MsgComplete :: l)%list /\
    appended (fun e => shutdown_event e = false) (initial_world 0 None) w' /\
    torrents w' = [0%nat] /\
    count_on_metadata (log w') = 1%nat /\
    count_on_progress (log w') = 1%nat.
Proof.
  refine (script_success_lists_files (sample_env slow_engine) "downloader.py"
            sample_magnet [] 10 1 1 (mk_params sample_hash "") (initial_world 0 None)
            eq_refl eq_refl slow_engine_metadata slow_engine_in_time
            slow_engine_seeding _ _); lia.
Defined.

Section Info.

Variable env : Env.

Lemma get_info_wait_finds (k : nat) :
  forall (fuel : nat) (h : handle) (start : Q) (w : World),
    sigint w = None ->
    metadata_at_poll env (queries w) k ->
    (forall i, (i < k)%nat ->
       ~ (60 < clock_after (lap env) (clock w) (sleeps w) i - start)%Q) ->
    (k < fuel)%nat ->
    exists w',
      get_info_wait_metadata env fuel h 60 start w = (Val tt, w') /\
      appended (fun e => waiting_event e = true) w w' /\
      sleeps w' = (sleeps w + k)%nat /\
      queries w' = (queries w + k + 1)%nat /\
      torrents w' = torrents w /\
      next_handle w' = next_handle w /\
      sigint w' = None.
Proof.
  induction k as [| k IH]; intros fuel h start w Hsig (Hno & Hyes) Hearly Hfuel;
    (destruct fuel as [| fuel]; [lia |]); cbn [get_info_wait_metadata].
  - destruct Hyes as (s & Hs & Hm). rewrite Nat.add_0_r in Hs.
    erewrite bind_status_quiet by quiet_side. rewrite Hm.
    eexists. split; [reflexivity |]. world_simpl.
    split; [appended_steps |]. repeat split; try lia. exact Hsig.
  - destruct (Hno 0%nat ltac:(lia)) as (s0 & Hs0 & Hm0).
    rewrite Nat.add_0_r in Hs0.
    pose proof (Hearly 0%nat ltac:(lia)) as Hnow. cbn [clock_after] in Hnow.
    apply Qltb_false in Hnow.
    erewrite bind_status_quiet by quiet_side. rewrite Hm0. world_simpl.
    rewrite bind_time. world_simpl. rewrite Hnow. quiet.
    match goal with |- context [get_info_wait_metadata env fuel h 60 start ?w1] =>
      destruct (IH fuel h start w1 Hsig) as (w' & Hrun & Hres & Hsl & Hq & Hts & Hnh & Hsg)
    end.
    + world_simpl. split.
      * intros i Hi. destruct (Hno (S i) ltac:(lia)) as (s & Hs & Hm).
        exists s. split; [| exact Hm]. rewrite <- Hs. f_equal. lia.
      * destruct Hyes as (s & Hs & Hm). exists s. split; [| exact Hm].
        rewrite <- Hs. f_equal. lia.
    + intros i Hi. world_simpl. apply (Hearly (S i)). lia.
    + lia.
    + exists w'. split; [exact Hrun |].
      split; [eapply appended_trans; [| exact Hres]; appended_steps |].
      cbn [clock queries sleeps torrents next_handle record slept answered] in *.
      rewrite Hsl, Hq. repeat split; try lia; assumption.
Qed.

End Info.

(** X15: [get_info] on a torrent that the session does not hold yet and whose
    metadata is first reported at poll [k], before the deadline, returns its
    name, files, size and the info hash of the magnet link after [k] sleeps, and
    leaves the session as it found it, the removal being the last thing it
    does. *)
Theorem get_info_returns_summary
        (env : Env) (download_path magnet_link : string) (fuel k : nat)
        (p : add_torrent_params) (w : World) :
  sigint w = None ->
  handles_allocated w ->
  parse_magnet_uri env magnet_link = Some p ->
  find_torrent (info_hash p) w = None ->
  metadata_at_poll env (queries w) k ->
  within_deadline env w 60 k ->
  (k < fuel)%nat ->
  exists w' l,
    get_info env download_path magnet_link fuel w
      = (Val (mk_summary (name (the_info env)) (files (the_info env))
                         (total_size (the_info env)) (info_hash p)), w') /\
    log w' = EvRemoveTorrent (next_handle w) :: l /\
    torrents w' = torrents w /\
    sleeps w' = (sleeps w + k)%nat /\
    queries w' = (queries w + k + 1)%nat.
Proof.
  intros Hsig Halloc Hp Hfresh Hmeta Hearly Hk.
  unfold get_info, lt_parse_magnet_uri. rewrite Hp. quiet.
  match goal with
  | |- context [bind (get_info_wait_metadata env fuel ?h 60 ?st) _ ?w1] =>
    destruct (get_info_wait_finds env k fuel h st w1 Hsig Hmeta Hearly Hk)
      as (w1' & Hrun & _ & Hsl & Hq & Hts & Hnh & Hsg)
  end.
  rewrite (bind_run _ _ _ _ _ Hrun). cbv beta. quiet.
  rewrite file_list_files.
  eexists. eexists. split; [reflexivity |].
  cbn [clock queries sleeps torrents next_handle log record set_torrents
       set_info_hash] in *.
  rewrite Hts, Hsl, Hq. split; [reflexivity |].
  split; [apply remove_fresh; exact Halloc |]. split; lia.
Qed.

Lemma get_info_returns_summary_witness :
  exists w' l,
    get_info (sample_env slow_engine) default_download_path sample_magnet 10
             (initial_world 0 None)
      = (Val (mk_summary "sample"
                [mk_file "sample/a.bin" 6291456; mk_file "sample/b.bin" 4194304]
                10485760 sample_hash), w') /\
    log w' = EvRemoveTorrent 0%nat :: l /\
    torrents w' = [] /\
    sleeps w' = 2%nat /\
    queries w' = 3%nat.
Proof.
  refine (get_info_returns_summary (sample_env slow_engine) default_download_path
            sample_magnet 10 2 (mk_params sample_hash "") (initial_world 0 None)
            eq_refl _ eq_refl eq_refl _ _ _).
  - constructor.
  - split.
    + intros i Hi. exists st_waiting.
      assert (i = 0 \/ i = 1)%nat as [-> | ->] by lia; split; reflexivity.
    + exists st_half. split; reflexivity.
  - intros i Hi.
    assert (i = 0 \/ i = 1)%nat as [-> | ->] by lia; simpl; intros H; discriminate H.
  - lia.
Defined.

(** ** The progress bar *)

Lemma same_bar_laws : Laws same_bar bar_untouched.
Proof.
  split; unfold same_bar; intros; simpl; try congruence; try exact I.
  destruct ev; simpl in *; try reflexivity. contradiction.
Qed.

Lemma bar_laws : Laws (appended bar_advances) bar_advances.
Proof. exact (appended_laws bar_advances I). Qed.

Section Bar.

Variable env : Env.

Lemma advances_status (h : handle) :
  respects (appended bar_advances) (from_engine env) (handle_status env h).
Proof.
  apply (respects_status env _ _ bar_laws); [exact I | intros; exact I].
Qed.

Lemma advances_is_seed (h : handle) :
  respects (appended bar_advances) anything (handle_is_seed env h).
Proof.
  apply (respects_is_seed env _ _ bar_laws); [exact I | intros; exact I].
Qed.

Lemma advances_cli_download_loop (fuel : nat) (h : handle) :
  forall last_progress pbar_n,
    respects (appended bar_advances) anything
             (cli_download_loop env fuel h last_progress pbar_n).
Proof.
  induction fuel as [| fuel IH]; intros lp pn; cbn [cli_download_loop].
  - apply (respects_out_of_fuel _ _ bar_laws).
  - eapply (respects_bind _ _ bar_laws); [apply advances_is_seed |].
    intros seed _. destruct seed; [apply (respects_ret _ _ bar_laws); exact I |].
    eapply (respects_bind _ _ bar_laws); [apply advances_status |].
    intros status _.
    eapply (respects_bind _ _ bar_laws anything).
    + destruct (Qltb lp (progress status * 100)) eqn:Elt.
      * eapply (respects_bind _ _ bar_laws anything).
        -- apply (respects_emit _ _ bar_laws). simpl.
           apply Qltb_lt in Elt. lra.
        -- intros _ _. apply (respects_ret _ _ bar_laws). exact I.
      * apply (respects_ret _ _ bar_laws). exact I.
    + intros [lp' pn'] _.
      eapply (respects_bind _ _ bar_laws anything);
        [apply (respects_emit _ _ bar_laws); exact I |].
      intros _ _.
      eapply (respects_bind _ _ bar_laws anything);
        [apply (respects_sleep env _ _ bar_laws); exact I |].
      intros _ _. apply IH.
Qed.

Lemma advances_cli_download_body
      (download_path : string) (h : handle) (ti : torrent_info) (fuel : nat) :
  respects (appended bar_advances) anything
           (cli_download_body env download_path h ti fuel).
Proof.
  unfold cli_download_body.
  eapply (respects_bind _ _ bar_laws anything); [apply advances_cli_download_loop |].
  intros pn _.
  eapply (respects_bind _ _ bar_laws anything).
  { destruct (Qltb pn 100) eqn:Elt.
    - apply (respects_emit _ _ bar_laws). simpl. apply Qltb_lt in Elt. lra.
    - apply (respects_ret _ _ bar_laws). exact I. }
  intros _ _.
  repeat (eapply (respects_bind _ _ bar_laws anything);
          [first [ apply (respects_emit _ _ bar_laws); exact I
                 | apply (respects_print _ _ bar_laws); exact I
                 | apply (respects_for_each _ _ bar_laws); intros i;
                   apply (respects_print _ _ bar_laws); exact I ]
          | intros _ _]).
  apply (respects_print _ _ bar_laws). exact I.
Qed.

Hypothesis Hfr : fractions_in_range env.

Lemma same_bar_is_seed (h : handle) (w w' : World) (r : res bool) :
  handle_is_seed env h w = (r, w') -> same_bar w w'.
Proof.
  intros E.
  apply (respects_is_seed env _ _ same_bar_laws h I (fun _ _ => I) _ _ _ E).
Qed.

Lemma same_bar_status (h : handle) (w w' : World) (r : res torrent_status) :
  handle_status env h w = (r, w') ->
  same_bar w w' /\ forall s, r = Val s -> from_engine env s.
Proof.
  intros E.
  apply (respects_status env _ _ same_bar_laws h I (fun _ _ _ => I) _ _ _ E).
Qed.

Lemma same_bar_emit (ev : event) (w w' : World) (r : res unit) :
  bar_untouched ev -> emit ev w = (r, w') -> same_bar w w'.
Proof.
  intros Hev E. apply (respects_emit _ _ same_bar_laws ev Hev _ _ _ E).
Qed.

Lemma same_bar_sleep (secs : Q) (w w' : World) (r : res unit) :
  time_sleep env secs w = (r, w') -> same_bar w w'.
Proof.
  intros E. apply (respects_sleep env _ _ same_bar_laws secs I _ _ _ E).
Qed.

Lemma cli_loop_bar (fuel : nat) (h : handle) :
  forall (lp pn : Q) (w w' : World) (pn' : Q),
    (lp <= 100)%Q ->
    cli_download_loop env fuel h lp pn w = (Val pn', w') ->
    exists d : Q,
      (0 <= d)%Q /\ (lp + d <= 100)%Q /\ (pn' == pn + d)%Q /\
      (pbar_total (log w') == pbar_total (log w) + d)%Q.
Proof.
  induction fuel as [| fuel IH]; intros lp pn w w' pn' Hlp E;
    cbn [cli_download_loop] in E; [discriminate |].
  apply bind_inv in E.
  destruct E as [(seed & w1 & E1 & E) | [(e & _ & C) | [_ C]]]; try discriminate.
  pose proof (same_bar_is_seed _ _ _ _ E1) as B1.
  destruct seed.
  { inversion E; subst. exists 0%Q. rewrite B1. repeat split; lra. }
  apply bind_inv in E.
  destruct E as [(status & w2 & E2 & E) | [(e & _ & C) | [_ C]]]; try discriminate.
  destruct (same_bar_status _ _ _ _ E2) as [B2 Hfrom].
  destruct (Hfrom status eq_refl) as [n Hn].
  destruct (Hfr n status Hn) as [_ Hle].
  apply bind_inv in E.
  destruct E as [([lp1 pn1] & w3 & E3 & E) | [(e & _ & C) | [_ C]]]; try discriminate.
  apply bind_inv in E.
  destruct E as [(u4 & w4 & E4 & E) | [(e & _ & C) | [_ C]]]; try discriminate.
  assert (B4 : same_bar w3 w4) by (eapply same_bar_emit; [| exact E4]; exact I).
  apply bind_inv in E.
  destruct E as [(u5 & w5 & E5 & E) | [(e & _ & C) | [_ C]]]; try discriminate.
  pose proof (same_bar_sleep _ _ _ _ E5) as B5.
  unfold same_bar in *.
  destruct (Qltb lp (progress status * 100)) eqn:Elt.
  - apply Qltb_lt in Elt.
    apply bind_inv in E3.
    destruct E3 as [(u3 & w3' & E3 & E3') | [(e & _ & C) | [_ C]]]; try discriminate.
    apply emit_val in E3. inversion E3'; subst lp1 pn1 w3'. clear E3'.
    assert (Hcur : (progress status * 100 <= 100)%Q) by lra.
    destruct (IH _ _ _ _ _ Hcur E) as (d & Hd0 & Hd1 & Hd2 & Hd3).
    exists (progress status * 100 - lp + d)%Q.
    rewrite Hd3, B5, B4, E3. cbn [pbar_total]. rewrite B2, B1.
    repeat split; lra.
  - inversion E3; subst lp1 pn1 w3. clear E3.
    destruct (IH _ _ _ _ _ Hlp E) as (d & Hd0 & Hd1 & Hd2 & Hd3).
    exists d. rewrite Hd3, B5, B4, B2, B1. repeat split; lra.
Qed.

End Bar.

(** X16: whenever the body of the download phase completes against an engine
    whose fractions lie in [0,1], the updates of the progress bar sum to exactly
    100 and each of them is strictly positive. *)
Theorem progress_bar_reaches_100
        (env : Env) (download_path : string) (h : handle) (ti : torrent_info)
        (fuel : nat) (w w' : World) :
  fractions_in_range env ->
  cli_download_body env download_path h ti fuel w = (Val tt, w') ->
  (pbar_total (log w') == pbar_total (log w) + 100)%Q /\
  appended bar_advances w w'.
Proof.
  intros Hfr E. split.
  2: { apply (advances_cli_download_body env download_path h ti fuel _ _ _ E). }
  unfold cli_download_body in E.
  apply bind_inv in E.
  destruct E as [(pn & w1 & E1 & E) | [(e & _ & C) | [_ C]]]; try discriminate.
  destruct (cli_loop_bar env Hfr fuel h 0 0 w w1 pn ltac:(lra) E1)
    as (d & Hd0 & Hd1 & Hd2 & Hd3).
  apply bind_inv in E.
  destruct E as [(u2 & w2 & E2 & E) | [(e & _ & C) | [_ C]]]; try discriminate.
  assert (Htail : same_bar w2 w').
  { apply (fun H : respects same_bar anything _ => proj1 (H w2 (Val tt) w' E)).
    repeat (eapply (respects_bind _ _ same_bar_laws anything);
            [first [ apply (respects_emit _ _ same_bar_laws); exact I
                   | apply (respects_print _ _ same_bar_laws); exact I
                   | apply (respects_for_each _ _ same_bar_laws); intros i;
                     apply (respects_print _ _ same_bar_laws); exact I ]
            | intros _ _]).
    apply (respects_print _ _ same_bar_laws). exact I. }
  unfold same_bar in Htail. rewrite Htail.
  destruct (Qltb pn 100) eqn:Elt.
  - apply emit_val in E2. rewrite E2. cbn [pbar_total]. rewrite Hd3. lra.
  - apply Qltb_false in Elt. inversion E2; subst w2. rewrite Hd3. lra.
Qed.

Lemma progress_bar_reaches_100_witness :
  let run := cli_download_body (sample_env live_engine) default_download_path 0%nat
                               sample_info 10 (initial_world 0 None) in
  (pbar_total (log (snd run)) == pbar_total [] + 100)%Q /\
  appended bar_advances (initial_world 0 None) (snd run).
Proof.
  refine (progress_bar_reaches_100 (sample_env live_engine) default_download_path 0%nat
            sample_info 10 (initial_world 0 None) _ sample_fractions _).
  vm_compute. reflexivity.
Defined.

(** ** The command-line tool on success *)

Lemma map_file_at {B} (g : file_entry -> B) (ti : torrent_info) :
  map (fun i => g (file_at ti i)) (seq 0 (num_files ti)) = map g (files ti).
Proof.
  unfold num_files, file_at.
  rewrite <- (map_map (fun i => nth i (files ti) (mk_file "" 0)) g).
  f_equal.
  apply (nth_ext _ _ (mk_file "" 0) (mk_file "" 0)).
  - rewrite length_map, length_seq. reflexivity.
  - intros n Hn. rewrite length_map, length_seq in Hn.
    rewrite (nth_indep _ _ (nth 0 (files ti) (mk_file "" 0)))
      by (rewrite length_map, length_seq; exact Hn).
    rewrite (map_nth (fun i => nth i (files ti) (mk_file "" 0))).
    rewrite seq_nth by exact Hn. reflexivity.
Qed.

Section CliSuccess.

Variable env : Env.

Lemma cli_wait_finds (k : nat) :
  forall (fuel : nat) (h : handle) (start : Q) (last_peer_count : Z) (w : World),
    sigint w = None ->
    metadata_at_cycle env (queries w) k ->
    (forall i, (i < k)%nat ->
       ~ (60 < clock_after (lap env) (clock w) (sleeps w) i - start)%Q) ->
    (k < fuel)%nat ->
    exists w',
      cli_wait_metadata env fuel h 60 start last_peer_count w = (Val true, w') /\
      appended (fun e => waiting_event e = true) w w' /\
      sleeps w' = (sleeps w + k)%nat /\
      queries w' = (queries w + 2 * k + 1)%nat /\
      torrents w' = torrents w /\
      next_handle w' = next_handle w /\
      sigint w' = None.
Proof.
  induction k as [| k IH];
    intros fuel h start lpc w Hsig (Hno & Hstat & Hyes) Hearly Hfuel;
    (destruct fuel as [| fuel]; [lia |]); cbn [cli_wait_metadata].
  - destruct Hyes as (s & Hs & Hm). rewrite Nat.mul_0_r, Nat.add_0_r in Hs.
    erewrite bind_status_quiet by quiet_side. rewrite Hm.
    eexists. split; [reflexivity |]. world_simpl.
    split; [appended_steps |]. repeat split; try lia. exact Hsig.
  - destruct (Hno 0%nat ltac:(lia)) as (s0 & Hs0 & Hm0).
    destruct (Hstat 0%nat ltac:(lia)) as (s1 & Hs1).
    rewrite Nat.mul_0_r, Nat.add_0_r in Hs0.
    rewrite Nat.mul_0_r, Nat.add_0_r, Nat.add_1_r in Hs1.
    pose proof (Hearly 0%nat ltac:(lia)) as Hnow. cbn [clock_after] in Hnow.
    apply Qltb_false in Hnow.
    erewrite bind_status_quiet by quiet_side. rewrite Hm0. world_simpl.
    rewrite bind_time. world_simpl. rewrite Hnow.
    erewrite bind_status_quiet by quiet_side. world_simpl.
    assert (Hrest :
      forall lpc' w1, sigint w1 = None -> clock w1 = (clock w + lap env (sleeps w))%Q ->
        sleeps w1 = S (sleeps w) -> queries w1 = S (S (queries w)) ->
        exists w',
          cli_wait_metadata env fuel h 60 start lpc' w1 = (Val true, w') /\
          appended (fun e => waiting_event e = true) w1 w' /\
          sleeps w' = (sleeps w1 + k)%nat /\
          queries w' = (queries w1 + 2 * k + 1)%nat /\
          torrents w' = torrents w1 /\ next_handle w' = next_handle w1 /\
          sigint w' = None).
    { intros lpc' w1 Hsg Hc Hsl Hq. apply IH; try assumption; [| | lia].
      - rewrite Hq. repeat split.
        + intros i Hi. destruct (Hno (S i) ltac:(lia)) as (s & Hs & Hm).
          exists s. split; [| exact Hm]. rewrite <- Hs. f_equal. lia.
        + intros i Hi. destruct (Hstat (S i) ltac:(lia)) as (s & Hs).
          exists s. rewrite <- Hs. f_equal. lia.
        + destruct Hyes as (s & Hs & Hm). exists s. split; [| exact Hm].
          rewrite <- Hs. f_equal. lia.
      - intros i Hi. rewrite Hc, Hsl. apply (Hearly (S i)). lia. }
    destruct (negb (num_peers s1 =? lpc) && (0 <? num_peers s1)); quiet;
      match goal with |- context [cli_wait_metadata env fuel h 60 start ?l ?w1] =>
        destruct (Hrest l w1 Hsig eq_refl eq_refl eq_refl)
          as (w' & Hrun & Hres & Hsl & Hq & Hts & Hnh & Hsg);
          exists w'; (split; [exact Hrun |]);
          (split; [eapply appended_trans; [| exact Hres]; appended_steps |])
      end; cbn [clock queries sleeps torrents next_handle record slept answered] in *;
      rewrite Hsl, Hq; repeat split; try lia; assumption.
Qed.

Lemma cli_download_loop_completes (j : nat) :
  forall (fuel : nat) (h : handle) (last_progress pbar_n : Q) (w : World),
    sigint w = None ->
    seeding_at_cycle env (queries w) j ->
    (j < fuel)%nat ->
    exists pbar_n' w',
      cli_download_loop env fuel h last_progress pbar_n w = (Val pbar_n', w') /\
      sleeps w' = (sleeps w + j)%nat /\
      queries w' = (queries w + 2 * j + 1)%nat /\
      torrents w' = torrents w /\
      sigint w' = None /\
      appended (fun e => shutdown_event e = false) w w'.
Proof.
  induction j as [| j IH]; intros fuel h lp pn w Hsig (Hno & Hstat & Hyes) Hfuel;
    (destruct fuel as [| fuel]; [lia |]); cbn [cli_download_loop].
  - destruct Hyes as (s & Hs & Hm). rewrite Nat.mul_0_r, Nat.add_0_r in Hs.
    erewrite bind_is_seed_quiet by quiet_side. rewrite Hm.
    eexists. eexists. split; [reflexivity |]. world_simpl.
    repeat split; try lia; try exact Hsig; appended_steps.
  - destruct (Hno 0%nat ltac:(lia)) as (s0 & Hs0 & Hm0).
    destruct (Hstat 0%nat ltac:(lia)) as (s1 & Hs1).
    rewrite Nat.mul_0_r, Nat.add_0_r in Hs0.
    rewrite Nat.mul_0_r, Nat.add_0_r, Nat.add_1_r in Hs1.
    erewrite bind_is_seed_quiet by quiet_side. rewrite Hm0. world_simpl.
    erewrite bind_status_quiet by quiet_side. world_simpl.
    assert (Hnext : forall w1, queries w1 = S (S (queries w)) ->
              seeding_at_cycle env (queries w1) j).
    { intros w1 Hq. rewrite Hq. repeat split.
      - intros i Hi. destruct (Hno (S i) ltac:(lia)) as (s & Hs & Hm).
        exists s. split; [| exact Hm]. rewrite <- Hs. f_equal. lia.
      - intros i Hi. destruct (Hstat (S i) ltac:(lia)) as (s & Hs).
        exists s. rewrite <- Hs. f_equal. lia.
      - destruct Hyes as (s & Hs & Hm). exists s. split; [| exact Hm].
        rewrite <- Hs. f_equal. lia. }
    destruct (Qltb lp (progress s1 * 100)); quiet;
      match goal with |- context [cli_download_loop env fuel h ?a ?b ?w1] =>
        destruct (IH fuel h a b w1 Hsig (Hnext w1 eq_refl) ltac:(lia))
          as (pn' & w' & Hrun & Hsl & Hq & Hts & Hsg & Happ)
      end; exists pn', w'; (split; [exact Hrun |]);
      cbn [clock queries sleeps torrents log record slept answered] in *;
      rewrite Hsl, Hq;
      (repeat split; try lia; try assumption);
      (eapply appended_trans; [| exact Happ]); appended_steps.
Qed.

Lemma cli_resolve_finds
      (magnet_link download_path : string) (fuel k : nat)
      (p : add_torrent_params) (w : World) :
  sigint w = None ->
  parse_magnet_uri env magnet_link = Some p ->
  metadata_at_cycle env (queries w) k ->
  within_deadline env w 60 k ->
  (k < fuel)%nat ->
  exists w',
    cli_resolve env magnet_link download_path fuel w
      = (Val (Some (added_handle p w, the_info env)), w') /\
    sleeps w' = (sleeps w + k)%nat /\
    queries w' = (queries w + 2 * k + 1)%nat /\
    torrents w' = torrents_after_add p w /\
    sigint w' = None /\
    appended (fun e => shutdown_event e = false) w w' /\
    exists l, log w' = EvPbarCreate :: l.
Proof.
  intros Hsig Hp Hmeta Hearly Hk.
  unfold cli_resolve, ensure_directory, start_services, lt_parse_magnet_uri,
    added_handle, torrents_after_add.
  rewrite Hp.
  destruct (find_torrent (info_hash p) w) as [h0 |] eqn:Efind;
  destruct (path_exists env download_path); quiet;
    (erewrite (bind_run (try_except _ _));
       [| apply try_except_Val; quiet; reflexivity]); world_simpl; quiet;
    match goal with
    | |- context [bind (cli_wait_metadata env fuel ?h 60 ?st ?l) _ ?w1] =>
      destruct (cli_wait_finds k fuel h st l w1 Hsig Hmeta Hearly Hk)
        as (w' & Hrun & Hres & Hsl & Hq & Hts & Hnh & Hsg)
    end;
    rewrite (bind_run _ _ _ _ _ Hrun); cbn [negb]; world_simpl; quiet;
    (eexists; split; [reflexivity |]);
    cbn [clock queries sleeps torrents next_handle log record set_torrents
         set_info_hash] in *;
    rewrite Hsl, Hq, Hts;
    (split; [reflexivity |]); (split; [reflexivity |]); (split; [reflexivity |]);
    (split; [exact Hsg |]);
    (split; [| eexists; reflexivity]);
    appended_steps;
    (eapply appended_trans;
       [| eapply appended_weaken; [| exact Hres];
          intros e He; destruct e; try discriminate; reflexivity]);
    appended_steps.
Qed.

End CliSuccess.

(** X17: on success the command-line tool closes the bar, lists the files,
    pauses the session once, as its last action, and exits with code 0; the
    torrent itself is never paused and stays in the session (added as a new
    one unless the session already held it). *)
Theorem cli_success_pauses_session_only
        (env : Env) (prog magnet_link : string) (rest : list string)
        (fuel k j : nat) (p : add_torrent_params) (w : World) :
  sigint w = None ->
  parse_magnet_uri env magnet_link = Some p ->
  metadata_at_cycle env (queries w) k ->
  within_deadline env w 60 k ->
  seeding_at_cycle env (queries w + 2 * k + 1) j ->
  (k < fuel)%nat ->
  (j < fuel)%nat ->
  exists w' new,
    main env (prog :: magnet_link :: rest) fuel w = (Exited 0, w') /\
    log w' = (EvPauseSession :: new ++ log w)%list /\
    Forall (fun e => shutdown_event e = false) new /\
    (exists l,
       new = (EvPrint MsgBlank
                :: List.rev (map cli_file_line (files (the_info env)))
                ++ EvPrint MsgListing
                :: EvPrint (MsgSavedTo (abspath env (path_argument rest)))
                :: EvPrint MsgComplete :: EvPbarClose :: l)%list) /\
    torrents w' = torrents_after_add p w /\
    sleeps w' = (sleeps w + k + j)%nat.
Proof.
  intros Hsig Hp Hmeta Hearly Hseed Hk Hj.
  destruct (cli_resolve_finds env magnet_link (path_argument rest) fuel k p w
              Hsig Hp Hmeta Hearly Hk)
    as (w1 & Hres & Hsl1 & Hq1 & Hts1 & Hsg1 & (n1 & Hn1 & Hall1) & _).
  assert (Hseed1 : seeding_at_cycle env (queries w1) j) by (rewrite Hq1; exact Hseed).
  destruct (cli_download_loop_completes env j fuel (added_handle p w) 0 0 w1 Hsg1 Hseed1 Hj)
    as (pn & w2 & Hloop & Hsl2 & _ & Hts2 & Hsg2 & (n2 & Hn2 & Hall2)).
  set (lines := map cli_file_line (files (the_info env))).
  assert (Hbody : exists w3 n3,
            cli_download_body env (path_argument rest) (added_handle p w) (the_info env)
                              fuel w1 = (Val tt, w3) /\
            sigint w3 = None /\ torrents w3 = torrents w2 /\ sleeps w3 = sleeps w2 /\
            log w3 = (EvPrint MsgBlank :: List.rev lines
                        ++ EvPrint MsgListing
                        :: EvPrint (MsgSavedTo (abspath env (path_argument rest)))
                        :: EvPrint MsgComplete :: EvPbarClose :: n3 ++ log w2)%list /\
            Forall (fun e => shutdown_event e = false) n3).
  { unfold cli_download_body.
    rewrite (bind_run _ _ _ _ _ Hloop). cbv beta.
    destruct (Qltb pn 100); quiet;
      (erewrite (bind_run (for_each _ _));
         [| apply (for_each_emit_quiet
                     (fun i => EvPrint (MsgFile (path (file_at (the_info env) i))
                                 (format_bytes
                                    (inject_Z (size (file_at (the_info env) i))))))); 
            world_simpl; exact Hsg2]);
      rewrite (map_file_at
                 (fun f => EvPrint (MsgFile (path f) (format_bytes (inject_Z (size f))))));
      fold cli_file_line; fold lines;
      match goal with |- context [record_all lines ?wl] =>
        destruct (record_all_log lines wl) as (Hl & Hs & Hsl & _ & _ & Hts & _)
      end; cbv beta;
      unfold print;
      (rewrite emit_quiet by (rewrite Hs; exact Hsg2));
      [eexists; exists [EvPbarUpdate (100 - pn)] | eexists; exists []];
      (split; [reflexivity |]);
      cbn [sigint torrents sleeps log record]; rewrite Hl, Hs, Hsl, Hts;
      cbn [sigint torrents sleeps log record];
      repeat split; try assumption; repeat constructor. }
  destruct Hbody as (w3 & n3 & Hbody & Hsg3 & Hts3 & Hsl3 & Hlog3 & Hall3).
  exists (record EvPauseSession w3).
  exists (EvPrint MsgBlank :: List.rev lines
            ++ EvPrint MsgListing
            :: EvPrint (MsgSavedTo (abspath env (path_argument rest)))
            :: EvPrint MsgComplete :: EvPbarClose :: n3 ++ n2 ++ n1)%list.
  split; [| split; [| split; [| split; [| split]]]].
  - unfold main, run_script, download_torrent.
    rewrite (bind_run _ _ _ _ _ Hres). cbv beta iota.
    unfold cli_download_phase.
    erewrite try_finally_Val;
      [reflexivity | apply try_except_Val; exact Hbody
      | unfold session_pause; apply emit_quiet; exact Hsg3].
  - cbn [log record]. rewrite Hlog3, Hn2, Hn1.
    cbn [app]. repeat (rewrite <- app_assoc; cbn [app]). reflexivity.
  - constructor; [reflexivity |].
    apply Forall_app. split.
    + apply Forall_rev, Forall_map, Forall_forall. intros f _. reflexivity.
    + repeat (constructor; [reflexivity |]).
      apply Forall_app. split; [exact Hall3 |]. apply Forall_app. split; assumption.
  - eexists. reflexivity.
  - cbn [torrents record]. rewrite Hts3, Hts2, Hts1. reflexivity.
  - cbn [sleeps record]. rewrite Hsl3, Hsl2, Hsl1. reflexivity.
Qed.

Lemma cli_success_pauses_session_only_witness :
  exists w' new,
    main (sample_env slow_engine) ["cli_downloader.py"; sample_magnet] 10
         (initial_world 0 None) = (Exited 0, w') /\
    log w' = (EvPauseSession :: new ++ [])%list /\
    Forall (fun e => shutdown_event e = false) new /\
    (exists l,
       new = (EvPrint MsgBlank
                :: List.rev (map cli_file_line (files sample_info))
                ++ EvPrint MsgListing
                :: EvPrint (MsgSavedTo "/home/user/./downloads")
                :: EvPrint MsgComplete :: EvPbarClose :: l)%list) /\
    torrents w' = [0%nat] /\
    sleeps w' = 2%nat.
Proof.
  refine (cli_success_pauses_session_only (sample_env slow_engine) "cli_downloader.py"
            sample_magnet [] 10 1 1 (mk_params sample_hash "") (initial_world 0 None)
            eq_refl eq_refl slow_engine_metadata slow_engine_in_time
            slow_engine_seeding _ _); lia.
Defined.

(** ** Exceptions *)

Lemma raises_ret {A} (P : exn -> Prop) (a : A) : raises_only P (ret a).
Proof. intros w e w' E. discriminate E. Qed.

Lemma raises_raise {A} (P : exn -> Prop) (e : exn) : P e -> raises_only P (@raise A e).
Proof. intros H w e' w' E. inversion E; subst. exact H. Qed.

Lemma raises_out_of_fuel {A} (P : exn -> Prop) : raises_only P (@out_of_fuel A).
Proof. intros w e w' E. discriminate E. Qed.

Lemma raises_weaken {A} (P P' : exn -> Prop) (m : M A) :
  (forall e, P e -> P' e) -> raises_only P m -> raises_only P' m.
Proof. intros H Hm w e w' E. apply H. exact (Hm _ _ _ E). Qed.

Lemma raises_bind {A B} (P : exn -> Prop) (m : M A) (k : A -> M B) :
  raises_only P m -> (forall a, raises_only P (k a)) -> raises_only P (bind m k).
Proof.
  intros Hm Hk w e w' E. apply bind_inv in E.
  destruct E as [(a & w1 & _ & E) | [(e' & E & C) | [_ C]]].
  - exact (Hk a _ _ _ E).
  - inversion C; subst. exact (Hm _ _ _ E).
  - discriminate C.
Qed.

Lemma raises_effect {A} (P : exn -> Prop) (act : World -> res A * World) :
  P KeyboardInterrupt -> raises_only P act -> raises_only P (effect act).
Proof.
  intros HP Hact w e w' E. apply effect_cases in E.
  destruct E as [[C _] | [s E]].
  - inversion C; subst. exact HP.
  - exact (Hact _ _ _ E).
Qed.

Lemma raises_emit (P : exn -> Prop) (ev : event) :
  P KeyboardInterrupt -> raises_only P (emit ev).
Proof.
  intros HP. apply raises_effect; [exact HP |]. intros w e w' E. discriminate E.
Qed.

Lemma raises_for_each {A} (P : exn -> Prop) (xs : list A) (body : A -> M unit) :
  (forall x, raises_only P (body x)) -> raises_only P (for_each xs body).
Proof.
  intros Hb. induction xs as [| x xs IH]; cbn [for_each].
  - apply raises_ret.
  - apply raises_bind; [apply Hb | intros _; exact IH].
Qed.

Lemma raises_try_except {A} (Pb P : exn -> Prop) (body : M A)
      (handler : exn -> option (M A)) :
  raises_only Pb body ->
  (forall e, Pb e ->
     match handler e with Some h => raises_only P h | None => P e end) ->
  raises_only P (try_except body handler).
Proof.
  intros Hb Hh w e w' E. unfold try_except in E.
  destruct (body w) as [[a | e0 |] w1] eqn:Eb; try discriminate.
  pose proof (Hh e0 (Hb _ _ _ Eb)) as H.
  destruct (handler e0) as [h |].
  - exact (H _ _ _ E).
  - inversion E; subst. exact H.
Qed.

Section Raises.

Variable env : Env.
Variable P : exn -> Prop.
Hypothesis Hki : P KeyboardInterrupt.
Hypothesis Hfault : P EngineError.

Lemma raises_status (h : handle) : raises_only P (handle_status env h).
Proof.
  apply raises_effect; [exact Hki |]. intros w e w' E.
  destruct (engine env (queries w)); inversion E; subst. exact Hfault.
Qed.

Lemma raises_is_seed (h : handle) : raises_only P (handle_is_seed env h).
Proof.
  apply raises_effect; [exact Hki |]. intros w e w' E.
  destruct (engine env (queries w)); inversion E; subst. exact Hfault.
Qed.

Lemma raises_sleep (secs : Q) : raises_only P (time_sleep env secs).
Proof.
  apply raises_effect; [exact Hki |]. intros w e w' E. discriminate E.
Qed.

Lemma raises_time : raises_only P time_time.
Proof. intros w e w' E. discriminate E. Qed.

Lemma raises_add_torrent (p : add_torrent_params) :
  raises_only P (session_add_torrent p).
Proof.
  apply raises_effect; [exact Hki |]. intros w e w' E.
  destruct (find_torrent (info_hash p) w); discriminate E.
Qed.

Lemma raises_start_services : raises_only P start_services.
Proof.
  unfold start_services.
  repeat (apply raises_bind; [apply raises_emit; exact Hki | intros _]).
  apply raises_emit. exact Hki.
Qed.

Lemma raises_ensure_directory (download_path : string) :
  raises_only P (ensure_directory env download_path).
Proof.
  unfold ensure_directory. destruct (path_exists env download_path);
    [apply raises_ret | apply raises_emit; exact Hki].
Qed.

Lemma raises_cli_wait_metadata (fuel : nat) (h : handle) (start : Q) :
  forall last_peer_count,
    raises_only P (cli_wait_metadata env fuel h 60 start last_peer_count).
Proof.
  induction fuel as [| fuel IH]; intros lpc; cbn [cli_wait_metadata].
  - apply raises_out_of_fuel.
  - apply raises_bind; [apply raises_status |]. intros st.
    destruct (has_metadata st); [apply raises_ret |].
    apply raises_bind; [apply raises_time |]. intros now.
    destruct (Qltb 60 (now - start)).
    + repeat (apply raises_bind; [apply raises_emit; exact Hki | intros _]).
      apply raises_ret.
    + apply raises_bind; [apply raises_status |]. intros status.
      apply raises_bind.
      * destruct (negb (num_peers status =? lpc) && (0 <? num_peers status));
          [| apply raises_ret].
        apply raises_bind; [apply raises_emit; exact Hki | intros _; apply raises_ret].
      * intros lpc'. apply raises_bind; [apply raises_sleep | intros _; apply IH].
Qed.

Lemma raises_cli_download_loop (fuel : nat) (h : handle) :
  forall last_progress pbar_n,
    raises_only P (cli_download_loop env fuel h last_progress pbar_n).
Proof.
  induction fuel as [| fuel IH]; intros lp pn; cbn [cli_download_loop].
  - apply raises_out_of_fuel.
  - apply raises_bind; [apply raises_is_seed |]. intros seed.
    destruct seed; [apply raises_ret |].
    apply raises_bind; [apply raises_status |]. intros status.
    apply raises_bind.
    + destruct (Qltb lp (progress status * 100)); [| apply raises_ret].
      apply raises_bind; [apply raises_emit; exact Hki | intros _; apply raises_ret].
    + intros [lp' pn'].
      apply raises_bind; [apply raises_emit; exact Hki | intros _].
      apply raises_bind; [apply raises_sleep | intros _; apply IH].
Qed.

Lemma raises_cli_download_body
      (download_path : string) (h : handle) (ti : torrent_info) (fuel : nat) :
  raises_only P (cli_download_body env download_path h ti fuel).
Proof.
  unfold cli_download_body.
  apply raises_bind; [apply raises_cli_download_loop |]. intros pn.
  apply raises_bind;
    [destruct (Qltb pn 100); [apply raises_emit; exact Hki | apply raises_ret] |].
  intros _.
  repeat (apply raises_bind;
          [first [ apply raises_emit; exact Hki
                 | apply raises_for_each; intros i; apply raises_emit; exact Hki ]
          | intros _]).
  apply raises_emit. exact Hki.
Qed.

Lemma raises_download_wait_metadata (fuel : nat) (h : handle) (start : Q) :
  P TimeoutError ->
  raises_only P (download_wait_metadata env fuel h 60 start).
Proof.
  intros Htime.
  induction fuel as [| fuel IH]; cbn [download_wait_metadata].
  - apply raises_out_of_fuel.
  - apply raises_bind; [apply raises_status |]. intros st.
    destruct (has_metadata st); [apply raises_ret |].
    apply raises_bind; [apply raises_time |]. intros now.
    destruct (Qltb 60 (now - start)); [apply raises_raise; exact Htime |].
    apply raises_bind; [apply raises_status |]. intros status.
    apply raises_bind.
    + destruct (0 <? num_peers status);
        [apply raises_emit; exact Hki | apply raises_ret].
    + intros _. apply raises_bind; [apply raises_sleep | intros _; exact IH].
Qed.

Lemma raises_download_loop (fuel : nat) (h : handle) (on_progress : bool) :
  raises_only P (download_loop env fuel h on_progress).
Proof.
  induction fuel as [| fuel IH]; cbn [download_loop].
  - apply raises_out_of_fuel.
  - apply raises_bind; [apply raises_is_seed |]. intros seed.
    destruct seed; [apply raises_ret |].
    apply raises_bind; [apply raises_status |]. intros status.
    apply raises_bind.
    + destruct on_progress; [apply raises_emit; exact Hki | apply raises_ret].
    + intros _. apply raises_bind; [apply raises_sleep | intros _; exact IH].
Qed.

End Raises.

Lemma cli_resolve_raises (env : Env) (magnet_link download_path : string) (fuel : nat) :
  raises_only interrupt_or_fault (cli_resolve env magnet_link download_path fuel).
Proof.
  assert (Hki : interrupt_or_fault KeyboardInterrupt) by (left; reflexivity).
  assert (Hfault : interrupt_or_fault EngineError) by (right; reflexivity).
  unfold cli_resolve.
  apply raises_bind; [apply raises_ensure_directory; exact Hki | intros _].
  do 5 (apply raises_bind; [apply raises_emit; exact Hki | intros _]).
  apply raises_bind; [apply raises_start_services; exact Hki | intros _].
  apply raises_bind.
  - apply (raises_try_except (fun e => e = KeyboardInterrupt \/ e = MagnetError)).
    + apply raises_bind.
      * unfold lt_parse_magnet_uri. destruct (parse_magnet_uri env magnet_link).
        -- apply raises_ret.
        -- apply raises_raise. right. reflexivity.
      * intros params. apply raises_bind;
          [apply raises_add_torrent; left; reflexivity | intros h; apply raises_ret].
    + intros e [-> | ->]; cbn.
      * exact Hki.
      * apply raises_bind; [apply raises_emit; exact Hki | intros _; apply raises_ret].
  - intros [h |]; [| apply raises_ret].
    do 2 (apply raises_bind; [apply raises_emit; exact Hki | intros _]).
    apply raises_bind; [apply raises_time |]. intros start.
    apply raises_bind;
      [apply raises_cli_wait_metadata; [exact Hki | exact Hfault] |].
    intros found. destruct found; cbn [negb]; [| apply raises_ret].
    apply raises_bind; [apply raises_ret | intros ti].
    do 4 (apply raises_bind; [apply raises_emit; exact Hki | intros _]).
    apply raises_ret.
Qed.

Lemma download_raises (env : Env) (download_path magnet_link : string)
      (on_progress on_metadata : bool) (fuel : nat) :
  raises_only download_error
              (download env download_path magnet_link on_progress on_metadata fuel).
Proof.
  assert (Hki : download_error KeyboardInterrupt) by (left; reflexivity).
  assert (Hfault : download_error EngineError) by (right; left; reflexivity).
  assert (Htime : download_error TimeoutError) by (right; right; right; reflexivity).
  unfold download, download_resolve.
  apply raises_bind.
  - apply raises_bind.
    { unfold lt_parse_magnet_uri. destruct (parse_magnet_uri env magnet_link).
      - apply raises_ret.
      - apply raises_raise. right. right. left. reflexivity. }
    intros params.
    apply raises_bind; [apply raises_add_torrent; exact Hki | intros h].
    do 2 (apply raises_bind; [apply raises_emit; exact Hki | intros _]).
    apply raises_bind; [apply raises_time |]. intros start.
    apply raises_bind;
      [apply raises_download_wait_metadata; assumption | intros _].
    apply raises_bind; [apply raises_ret | intros ti].
    apply raises_bind;
      [destruct on_metadata; [apply raises_emit; exact Hki | apply raises_ret] |].
    intros _.
    apply raises_bind; [apply raises_emit; exact Hki | intros _; apply raises_ret].
  - intros [h ti].
    apply raises_bind; [apply raises_download_loop; assumption | intros _].
    apply raises_ret.
Qed.

Lemma no_pause_laws :
  Laws (appended (fun e => shutdown_event e = false))
       (fun e => shutdown_event e = false).
Proof. exact (appended_laws (fun e => shutdown_event e = false) eq_refl). Qed.

Section NoPause.

Variable env : Env.

Lemma no_pause_status (h : handle) :
  respects (appended (fun e => shutdown_event e = false)) (from_engine env)
           (handle_status env h).
Proof.
  apply (respects_status env _ _ no_pause_laws); [reflexivity | intros; reflexivity].
Qed.

Lemma no_pause_cli_wait_metadata (fuel : nat) (h : handle) (start : Q) :
  forall last_peer_count,
    respects (appended (fun e => shutdown_event e = false)) anything
             (cli_wait_metadata env fuel h 60 start last_peer_count).
Proof.
  pose proof no_pause_laws as L.
  induction fuel as [| fuel IH]; intros lpc; cbn [cli_wait_metadata].
  - apply (respects_out_of_fuel _ _ L).
  - eapply (respects_bind _ _ L); [apply no_pause_status |]. intros st _.
    destruct (has_metadata st); [apply (respects_ret _ _ L); exact I |].
    eapply (respects_bind _ _ L); [apply (respects_time_time _ _ L) |]. intros now _.
    destruct (Qltb 60 (now - start)).
    + repeat (eapply (respects_bind _ _ L anything);
              [apply (respects_print _ _ L); reflexivity | intros _ _]).
      apply (respects_ret _ _ L). exact I.
    + eapply (respects_bind _ _ L); [apply no_pause_status |]. intros status _.
      eapply (respects_bind _ _ L anything).
      * destruct (negb (num_peers status =? lpc) && (0 <? num_peers status));
          [| apply (respects_ret _ _ L); exact I].
        eapply (respects_bind _ _ L anything);
          [apply (respects_print _ _ L); reflexivity |].
        intros _ _. apply (respects_ret _ _ L). exact I.
      * intros lpc' _.
        eapply (respects_bind _ _ L anything);
          [apply (respects_sleep env _ _ L); reflexivity |].
        intros _ _. apply IH.
Qed.

Lemma no_pause_cli_resolve (magnet_link download_path : string) (fuel : nat) :
  respects (appended (fun e => shutdown_event e = false)) anything
           (cli_resolve env magnet_link download_path fuel).
Proof.
  pose proof no_pause_laws as L.
  unfold cli_resolve, start_services.
  eapply (respects_bind _ _ L anything).
  { unfold ensure_directory. destruct (path_exists env download_path);
      [apply (respects_ret _ _ L); exact I
      | apply (respects_emit _ _ L); reflexivity]. }
  intros _ _.
  do 5 (eapply (respects_bind _ _ L anything);
        [first [apply (respects_print _ _ L); reflexivity
               | apply (respects_emit _ _ L); reflexivity] | intros _ _]).
  eapply (respects_bind _ _ L anything).
  { repeat (eapply (respects_bind _ _ L anything);
            [apply (respects_emit _ _ L); reflexivity | intros _ _]).
    apply (respects_emit _ _ L). reflexivity. }
  intros _ _.
  eapply (respects_bind _ _ L anything).
  { apply (respects_try_except _ _ L).
    - eapply (respects_bind _ _ L); [apply (respects_parse env _ _ L) |].
      intros params _.
      eapply (respects_bind _ _ L);
        [apply respects_add_torrent; [reflexivity | intros; reflexivity] |].
      intros h _. apply (respects_ret _ _ L). exact I.
    - intros e h Hh. destruct (is_Exception e); [| discriminate].
      inversion Hh; subst.
      eapply (respects_bind _ _ L anything);
        [apply (respects_print _ _ L); reflexivity |].
      intros _ _. apply (respects_ret _ _ L). exact I. }
  intros [h |] _; [| apply (respects_ret _ _ L); exact I].
  do 2 (eapply (respects_bind _ _ L anything);
        [apply (respects_print _ _ L); reflexivity | intros _ _]).
  eapply (respects_bind _ _ L); [apply (respects_time_time _ _ L) |]. intros start _.
  eapply (respects_bind _ _ L); [apply no_pause_cli_wait_metadata |].
  intros found _. destruct found; cbn [negb]; [| apply (respects_ret _ _ L); exact I].
  eapply (respects_bind _ _ L anything); [apply (respects_ret _ _ L); exact I |].
  intros ti _.
  do 4 (eapply (respects_bind _ _ L anything);
        [first [apply (respects_print _ _ L); reflexivity
               | apply (respects_emit _ _ L); reflexivity] | intros _ _]).
  apply (respects_ret _ _ L). exact I.
Qed.

End NoPause.

(** X18: the resolution phase of the command-line tool is outside every [try]:
    the only exceptions that can leave it are Ctrl-C and an engine error, and
    either ends the program with a traceback, nothing having been paused. *)
Theorem cli_resolution_is_unprotected
        (env : Env) (prog magnet_link : string) (rest : list string) (fuel : nat)
        (w w' : World) (e : exn) :
  cli_resolve env magnet_link (path_argument rest) fuel w = (Raise e, w') ->
  (e = KeyboardInterrupt \/ e = EngineError) /\
  main env (prog :: magnet_link :: rest) fuel w = (Uncaught e, w') /\
  appended (fun ev => shutdown_event ev = false) w w'.
Proof.
  intros E.
  pose proof (cli_resolve_raises env magnet_link (path_argument rest) fuel _ _ _ E) as He.
  split; [exact He |]. split.
  - unfold main, run_script, download_torrent.
    rewrite (bind_fail _ _ _ _ _ E). destruct He as [-> | ->]; reflexivity.
  - exact (proj1 (no_pause_cli_resolve env magnet_link (path_argument rest) fuel _ _ _ E)).
Qed.

Lemma cli_resolution_is_unprotected_witness :
  let run := cli_resolve (sample_env faulty_engine) sample_magnet default_download_path
                         10 (initial_world 0 None) in
  (EngineError = KeyboardInterrupt \/ EngineError = EngineError) /\
  main (sample_env faulty_engine) ["cli_downloader.py"; sample_magnet] 10
       (initial_world 0 None) = (Uncaught EngineError, snd run) /\
  appended (fun ev => shutdown_event ev = false) (initial_world 0 None) (snd run).
Proof.
  refine (cli_resolution_is_unprotected (sample_env faulty_engine) "cli_downloader.py"
            sample_magnet [] 10 (initial_world 0 None) _ EngineError _).
  vm_compute. reflexivity.
Defined.

(** X19: an engine error in the download phase of the command-line tool is the
    only exception besides Ctrl-C that its body can raise; it is answered by
    closing the bar and printing the error, then the [finally] clause pauses
    the session; the torrent is not paused and the exit code is 0. *)
Theorem cli_engine_error_exits_zero
        (env : Env) (prog magnet_link : string) (rest : list string) (fuel : nat)
        (w0 w1 w2 : World) (h : handle) (ti : torrent_info) (e : exn) :
  cli_resolve env magnet_link (path_argument rest) fuel w0
    = (Val (Some (h, ti)), w1) ->
  cli_download_body env (path_argument rest) h ti fuel w1 = (Raise e, w2) ->
  e <> KeyboardInterrupt ->
  sigint w2 = None ->
  e = EngineError /\
  main env (prog :: magnet_link :: rest) fuel w0
    = (Exited 0,
       record EvPauseSession
         (record (EvPrint (MsgError EngineError)) (record EvPbarClose w2))).
Proof.
  intros Hres Hbody Hne Hsig.
  assert (He : e = EngineError).
  { destruct (raises_cli_download_body env interrupt_or_fault
                (or_introl eq_refl) (or_intror eq_refl) _ _ _ _ _ _ _ Hbody)
      as [C | C]; [contradiction | exact C]. }
  subst e. split; [reflexivity |].
  unfold main, run_script, download_torrent.
  rewrite (bind_run _ _ _ _ _ Hres). cbv beta iota.
  unfold cli_download_phase.
  erewrite try_finally_Val; [reflexivity | |].
  - erewrite try_except_caught; [| exact Hbody | reflexivity].
    quiet. unfold print. apply emit_quiet. exact Hsig.
  - unfold session_pause. apply emit_quiet. exact Hsig.
Qed.

Lemma cli_engine_error_exits_zero_witness :
  let env := sample_env failing_engine in
  let w1 := snd (cli_resolve env sample_magnet default_download_path 10
                             (initial_world 0 None)) in
  let w2 := snd (cli_download_body env default_download_path 0%nat sample_info 10 w1) in
  EngineError = EngineError /\
  main env ["cli_downloader.py"; sample_magnet] 10 (initial_world 0 None)
    = (Exited 0,
       record EvPauseSession
         (record (EvPrint (MsgError EngineError)) (record EvPbarClose w2))).
Proof.
  refine (cli_engine_error_exits_zero (sample_env failing_engine) "cli_downloader.py"
            sample_magnet [] 10 (initial_world 0 None) _ _ 0%nat sample_info
            EngineError _ _ _ _).
  - vm_compute. reflexivity.
  - vm_compute. reflexivity.
  - discriminate.
  - vm_compute. reflexivity.
Defined.

(** X20: the script of downloader.py lets no exception of [download] escape:
    whatever [download] raises (Ctrl-C, an engine error, the parser's error or
    the timeout), the script prints a line, pauses every torrent of the session
    and the session, and exits with code 0 after Ctrl-C and 1 otherwise. *)
Theorem script_handles_every_download_error
        (env : Env) (prog magnet_link : string) (rest : list string) (fuel : nat)
        (w0 w1 w2 : World) (e : exn) :
  TorrentDownloader_init env (path_argument rest) w0 = (Val tt, w1) ->
  download env (path_argument rest) magnet_link true true fuel w1 = (Raise e, w2) ->
  sigint w2 = None ->
  exists w3,
    downloader_main env (prog :: magnet_link :: rest) fuel w0
      = (Exited (exit_code_after e), w3) /\
    log w3 = (EvSleep 1 :: EvPauseSession
                :: List.rev (map EvPauseTorrent (torrents w2))
                ++ EvPrint (line_after e) :: log w2)%list /\
    torrents w3 = torrents w2.
Proof.
  intros Hinit Hdown Hsig.
  pose proof (download_raises env _ _ _ _ _ _ _ _ Hdown) as He.
  assert (Hsig' : sigint (record (EvPrint (line_after e)) w2) = None) by exact Hsig.
  pose proof (shutdown_quiet env _ Hsig') as Hshut.
  destruct (pause_all_log (torrents w2) (record (EvPrint (line_after e)) w2))
    as (Hl & _ & _).
  destruct (pause_all_frame (torrents w2) (record (EvPrint (line_after e)) w2))
    as (Ht & _ & _ & _).
  cbn [torrents record] in Hshut.
  exists (record (EvSleep 1)
            (slept (lap env (sleeps (record (EvPrint (line_after e)) w2)))
               (record EvPauseSession
                  (pause_all (torrents w2) (record (EvPrint (line_after e)) w2))))).
  split; [| split].
  - unfold downloader_main, run_script.
    rewrite (bind_run _ _ _ _ _ Hinit). cbv beta.
    destruct He as [-> | [-> | [-> | ->]]]; cbn [line_after exit_code_after] in *;
      (erewrite try_except_caught;
         [| apply bind_fail; exact Hdown | reflexivity]);
      rewrite bind_print_quiet by exact Hsig;
      [ rewrite Hshut; reflexivity
      | rewrite (bind_run _ _ _ _ _ Hshut); reflexivity
      | rewrite (bind_run _ _ _ _ _ Hshut); reflexivity
      | rewrite (bind_run _ _ _ _ _ Hshut); reflexivity ].
  - cbn [log record slept]. rewrite Hl. reflexivity.
  - cbn [torrents record slept]. rewrite Ht. reflexivity.
Qed.

Lemma script_handles_every_download_error_witness :
  let env := sample_env failing_engine in
  let w1 := snd (TorrentDownloader_init env default_download_path (initial_world 0 None)) in
  let w2 := snd (download env default_download_path sample_magnet true true 10 w1) in
  exists w3,
    downloader_main env ["downloader.py"; sample_magnet] 10 (initial_world 0 None)
      = (Exited 1, w3) /\
    log w3 = (EvSleep 1 :: EvPauseSession
                :: List.rev (map EvPauseTorrent (torrents w2))
                ++ EvPrint (MsgError EngineError) :: log w2)%list /\
    torrents w3 = torrents w2.
Proof.
  refine (script_handles_every_download_error (sample_env failing_engine)
            "downloader.py" sample_magnet [] 10 (initial_world 0 None) _ _
            EngineError _ _ _).
  - vm_compute. reflexivity.
  - vm_compute. reflexivity.
  - vm_compute. reflexivity.
Defined.

(** ** The callbacks of [download] *)

Lemma no_callback_laws : Laws (appended no_callback) no_callback.
Proof. exact (appended_laws no_callback I). Qed.

Lemma metadata_once_counts (md : metadata) (om : bool) (w w' : World) :
  metadata_once md om w w' ->
  exists earlier,
    log w' = (earlier ++ log w)%list /\
    count_on_progress earlier = 0%nat /\
    (count_on_metadata earlier <= if om then 1 else 0)%nat /\
    (forall md', In (EvOnMetadata md') earlier -> md' = md).
Proof.
  assert (Hnone : forall l, Forall no_callback l ->
            count_on_progress l = 0%nat /\ count_on_metadata l = 0%nat /\
            forall md', ~ In (EvOnMetadata md') l).
  { induction 1 as [| e l He _ (IH1 & IH2 & IH3)]; [repeat split; auto |].
    destruct e; try contradiction; simpl; repeat split; try assumption;
      intros md' [C | C]; try discriminate; exact (IH3 md' C). }
  intros [(new & Hlog & Hall) | (Hom & wm & (n1 & Hl1 & Ha1) & (n2 & Hl2 & Ha2))].
  - exists new. destruct (Hnone new Hall) as (H1 & H2 & H3).
    split; [exact Hlog |]. split; [exact H1 |]. split; [rewrite H2; lia |].
    intros md' C. destruct (H3 md' C).
  - exists (n2 ++ EvOnMetadata md :: n1)%list.
    destruct (Hnone n1 Ha1) as (A1 & A2 & A3).
    destruct (Hnone n2 Ha2) as (B1 & B2 & B3).
    split; [rewrite Hl2; cbn [log record]; rewrite Hl1, <- app_assoc; reflexivity |].
    rewrite count_on_progress_app, count_on_metadata_app. cbn.
    rewrite A1, A2, B1, B2, Hom. split; [reflexivity |]. split; [lia |].
    intros md' C. apply in_app_or in C. destruct C as [C | [C | C]].
    + destruct (B3 md' C).
    + inversion C. reflexivity.
    + destruct (A3 md' C).
Qed.

Section Callbacks.

Variable env : Env.

Lemma download_resolve_metadata_once
      (download_path magnet_link : string) (on_metadata : bool) (fuel : nat)
      (w w1 : World) (r : res (handle * torrent_info)) :
  download_resolve env download_path magnet_link on_metadata fuel w = (r, w1) ->
  appended no_callback w w1 \/
  exists p,
    parse_magnet_uri env magnet_link = Some p /\
    metadata_once (metadata_of (the_info env) p) on_metadata w w1.
Proof.
  pose proof no_callback_laws as L.
  intros E. unfold download_resolve in E.
  apply bind_inv in E.
  destruct E as [(p & wa & E1 & E) | [(e & E1 & _) | [E1 _]]];
    try (left; exact (proj1 (respects_parse env _ _ L _ _ _ _ E1))).
  assert (Hp : parse_magnet_uri env magnet_link = Some p /\ wa = w).
  { unfold lt_parse_magnet_uri in E1.
    destruct (parse_magnet_uri env magnet_link); inversion E1; subst. auto. }
  destruct Hp as [Hp ->]. clear E1.
  right. exists p. split; [exact Hp |].
  assert (Hpre : forall wx, appended no_callback w wx ->
            metadata_once (metadata_of (the_info env) p) on_metadata w wx)
    by (intros wx H; left; exact H).
  apply bind_inv in E.
  destruct E as [(h & wb & E2 & E) | [(e & E2 & _) | [E2 _]]];
    pose proof (proj1 (respects_add_torrent no_callback _ I (fun _ => I) _ _ _ E2)) as A2;
    try (apply Hpre; exact A2).
  apply bind_inv in E.
  destruct E as [(u3 & wc & E3 & E) | [(e & E3 & _) | [E3 _]]];
    pose proof (appended_trans _ _ _ _ A2
                  (proj1 (respects_print _ _ L MsgFetching I _ _ _ E3))) as A3;
    try (apply Hpre; exact A3).
  apply bind_inv in E.
  destruct E as [(u4 & wd & E4 & E) | [(e & E4 & _) | [E4 _]]];
    pose proof (appended_trans _ _ _ _ A3
                  (proj1 (respects_print _ _ L MsgConnecting I _ _ _ E4))) as A4;
    try (apply Hpre; exact A4).
  rewrite bind_time in E.
  apply bind_inv in E.
  destruct E as [(u5 & we & E5 & E) | [(e & E5 & _) | [E5 _]]];
    pose proof (appended_trans _ _ _ _ A4
                  (proj1 (loop_download_wait_metadata env _ _ L I (fun _ _ _ => I)
                            (fun _ => I) (fun _ => I) _ _ _ _ _ _ _ E5))) as A5;
    try (apply Hpre; exact A5).
  rewrite bind_get_torrent_info in E.
  apply bind_inv in E.
  destruct E as [(u6 & wf & E6 & E) | [(e & E6 & _) | [E6 _]]].
  - (* the callback returned *)
    assert (Hafter : forall wx, appended no_callback wf wx ->
              metadata_once (metadata_of (the_info env) p) on_metadata w wx).
    { intros wx Hx. destruct on_metadata.
      - right. split; [reflexivity |]. exists we. split; [exact A5 |].
        apply emit_val in E6.
        destruct Hx as (n & Hn & Hall). exists n. split; [| exact Hall].
        rewrite Hn. cbn [log record]. f_equal. exact E6.
      - inversion E6; subst. left. eapply appended_trans; eassumption. }
    apply bind_inv in E.
    destruct E as [(u7 & wg & E7 & E) | [(e & E7 & _) | [E7 _]]];
      pose proof (proj1 (respects_print _ _ L _ I _ _ _ E7)) as A7;
      try (apply Hafter; exact A7).
    inversion E; subst. apply Hafter. exact A7.
  - (* interrupted at the callback *)
    destruct on_metadata; [| discriminate E6].
    apply effect_cases in E6. destruct E6 as [[_ ->] | [s C]]; [| discriminate C].
    apply Hpre. eapply appended_trans; [exact A5 |]. appended_steps.
  - destruct on_metadata; [| discriminate E6].
    apply effect_cases in E6. destruct E6 as [[C _] | [s C]]; discriminate C.
Qed.

End Callbacks.

Lemma progress_only_counts (on_progress : bool) (l : list event) :
  Forall (progress_only on_progress) l ->
  count_on_metadata l = 0%nat /\
  (on_progress = false -> count_on_progress l = 0%nat).
Proof.
  induction 1 as [| e l He _ [IH1 IH2]]; [auto |].
  destruct e; try contradiction; simpl; split; try assumption.
  intros C. simpl in He. congruence.
Qed.

(** X21: in every run of [download], however it ends, [on_metadata] is invoked at
    most once, with the name, file count, size and info hash of the torrent,
    and before any invocation of [on_progress]; a callback that was not
    supplied is never invoked. *)
Theorem callbacks_follow_protocol
        (env : Env) (download_path magnet_link : string)
        (on_progress on_metadata : bool) (fuel : nat) (w : World) :
  exists later earlier,
    log (snd (download env download_path magnet_link on_progress on_metadata fuel w))
      = (later ++ earlier ++ log w)%list /\
    count_on_progress earlier = 0%nat /\
    count_on_metadata later = 0%nat /\
    (count_on_metadata earlier <= if on_metadata then 1 else 0)%nat /\
    (on_progress = false -> count_on_progress later = 0%nat) /\
    (forall md, In (EvOnMetadata md) earlier ->
       exists p, parse_magnet_uri env magnet_link = Some p /\
                 md = metadata_of (the_info env) p).
Proof.
  destruct (download env download_path magnet_link on_progress on_metadata fuel w)
    as [r w'] eqn:E.
  cbn [snd]. unfold download in E.
  assert (Hres : forall r1 w1,
            download_resolve env download_path magnet_link on_metadata fuel w = (r1, w1) ->
            exists earlier,
              log w1 = (earlier ++ log w)%list /\
              count_on_progress earlier = 0%nat /\
              (count_on_metadata earlier <= if on_metadata then 1 else 0)%nat /\
              (forall md, In (EvOnMetadata md) earlier ->
                 exists p, parse_magnet_uri env magnet_link = Some p /\
                           md = metadata_of (the_info env) p)).
  { intros r1 w1 E1.
    destruct (download_resolve_metadata_once env _ _ _ _ _ _ _ E1)
      as [Hno | (p & Hp & Honce)].
    - destruct (metadata_once_counts (metadata_of (the_info env) (mk_params "" ""))
                  false w w1 (or_introl Hno)) as (earlier & H1 & H2 & H3 & H4).
      exists earlier. split; [exact H1 |]. split; [exact H2 |].
      split; [destruct on_metadata; lia |].
      intros md Hin. exfalso.
      assert (Hc : forall l, count_on_metadata l = 0%nat -> ~ In (EvOnMetadata md) l).
      { induction l as [| e l IH]; [intros _ C; exact C |].
        destruct e; simpl; intros Hz [C | C]; try discriminate; exact (IH Hz C). }
      apply (Hc earlier); [lia | exact Hin].
    - destruct (metadata_once_counts _ _ _ _ Honce) as (earlier & H1 & H2 & H3 & H4).
      exists earlier. split; [exact H1 |]. split; [exact H2 |]. split; [exact H3 |].
      intros md Hin. exists p. split; [exact Hp | exact (H4 md Hin)]. }
  apply bind_inv in E.
  destruct E as [([h ti] & w1 & E1 & E) | [(e & E1 & _) | [E1 _]]].
  - destruct (Hres _ _ E1) as (earlier & H1 & H2 & H3 & H4).
    pose proof (appended_laws (progress_only on_progress) I) as L.
    assert (Hloop : appended (progress_only on_progress) w1 w').
    { refine (proj1 (respects_bind _ _ L anything anything _ _ _ _ _ _ _ E)).
      - apply (loop_download_loop env _ _ L I (fun _ _ _ => I) (fun _ _ _ => I)
                 (fun _ => I)).
        intros Hop p. exact Hop.
      - intros _ _. apply (respects_ret _ _ L). exact I. }
    destruct Hloop as (later & Hl & Hall).
    destruct (progress_only_counts _ _ Hall) as [Hmd Hpr].
    exists later, earlier. rewrite Hl, H1. repeat split; assumption.
  - destruct (Hres _ _ E1) as (earlier & H1 & H2 & H3 & H4).
    exists [], earlier. repeat split; try assumption; reflexivity.
  - destruct (Hres _ _ E1) as (earlier & H1 & H2 & H3 & H4).
    exists [], earlier. repeat split; try assumption; reflexivity.
Qed.

(** ** The peer-count lines *)

Lemma peer_lines_app (l1 l2 : list event) :
  peer_lines (l1 ++ l2) = (peer_lines l1 ++ peer_lines l2)%list.
Proof.
  induction l1 as [| e l1 IH]; [reflexivity |].
  destruct e; simpl; try exact IH. destruct m; simpl; rewrite ?IH; reflexivity.
Qed.

Lemma peer_lines_none (l : list event) : Forall no_peer_line l -> peer_lines l = [].
Proof.
  induction 1 as [| e l He _ IH]; [reflexivity |].
  destruct e; simpl; try exact IH. destruct m; simpl in *; try exact IH. contradiction.
Qed.

Lemma no_peer_line_laws : Laws (appended no_peer_line) no_peer_line.
Proof. exact (appended_laws no_peer_line I). Qed.

Section Peers.

Variable env : Env.

Lemma cli_wait_peer_lines (fuel : nat) (h : handle) (timeout start : Q) :
  forall (last_peer_count : Z) (w w' : World) (r : res bool),
    cli_wait_metadata env fuel h timeout start last_peer_count w = (r, w') ->
    exists new,
      log w' = (new ++ log w)%list /\
      each_differs last_peer_count (List.rev (peer_lines new)).
Proof.
  pose proof no_peer_line_laws as L.
  assert (Hquiet : forall lpc w w', appended no_peer_line w w' ->
            exists new, log w' = (new ++ log w)%list /\
                        each_differs lpc (List.rev (peer_lines new))).
  { intros lpc w w' (new & Hl & Hall). exists new. split; [exact Hl |].
    rewrite (peer_lines_none _ Hall). exact I. }
  assert (Hstatus : forall w w' r, handle_status env h w = (r, w') ->
            appended no_peer_line w w').
  { intros w w' r E.
    exact (proj1 (respects_status env _ _ L h I (fun _ _ _ => I) _ _ _ E)). }
  induction fuel as [| fuel IH]; intros lpc w w' r E; cbn [cli_wait_metadata] in E.
  - inversion E; subst. apply Hquiet. apply appended_refl.
  - apply bind_inv in E.
    destruct E as [(st & w1 & E1 & E) | [(e & E1 & _) | [E1 _]]];
      pose proof (Hstatus _ _ _ E1) as A1; try (apply Hquiet; exact A1).
    destruct (has_metadata st).
    { inversion E; subst. apply Hquiet. exact A1. }
    rewrite bind_time in E.
    destruct (Qltb timeout (clock w1 - start)).
    { apply Hquiet. eapply appended_trans; [exact A1 |].
      apply (fun H : respects (appended no_peer_line) anything
                               (print MsgTimeout;; print MsgDeadHint;; ret false)
             => proj1 (H _ _ _ E)).
      repeat (eapply (respects_bind _ _ L anything);
              [apply (respects_print _ _ L); exact I | intros _ _]).
      apply (respects_ret _ _ L). exact I. }
    apply bind_inv in E.
    destruct E as [(status & w2 & E2 & E) | [(e & E2 & _) | [E2 _]]];
      pose proof (appended_trans _ _ _ _ A1 (Hstatus _ _ _ E2)) as A2;
      try (apply Hquiet; exact A2).
    apply bind_inv in E.
    destruct E as [(lpc' & w3 & E3 & E) | [(e & E3 & _) | [E3 _]]].
    + (* the line, if any, has been printed *)
      assert (Hline :
        (lpc' = lpc /\ appended no_peer_line w w3) \/
        (lpc' <> lpc /\ 0 < lpc' /\
         exists n2, log w2 = (n2 ++ log w)%list /\ Forall no_peer_line n2 /\
                    log w3 = EvPrint (MsgPeers lpc') :: log w2)).
      { destruct (negb (num_peers status =? lpc) && (0 <? num_peers status)) eqn:Ec.
        - right. apply andb_true_iff in Ec. destruct Ec as [Ene Epos].
          apply negb_true_iff, Z.eqb_neq in Ene. apply Z.ltb_lt in Epos.
          apply bind_inv in E3.
          destruct E3 as [(u & w3' & E3 & E3') | [(e & _ & C) | [_ C]]];
            try discriminate.
          inversion E3'; subst. apply emit_val in E3.
          destruct A2 as (n2 & Hn2 & Hall2).
          split; [exact Ene |]. split; [exact Epos |].
          exists n2. auto.
        - left. inversion E3; subst. split; [reflexivity | exact A2]. }
      apply bind_inv in E.
      assert (Hsleep : forall wa wb rb, time_sleep env 1 wa = (rb, wb) ->
                appended no_peer_line wa wb).
      { intros wa wb rb Es.
        exact (proj1 (respects_sleep env _ _ L 1 I _ _ _ Es)). }
      destruct Hline as [[-> A3] | (Hne & Hpos & n2 & Hn2 & Hall2 & Hl3)].
      * destruct E as [(u4 & w4 & E4 & E) | [(e & E4 & _) | [E4 _]]];
          pose proof (appended_trans _ _ _ _ A3 (Hsleep _ _ _ E4)) as A4;
          try (apply Hquiet; exact A4).
        destruct (IH _ _ _ _ E) as (new & Hnew & Hchain).
        destruct A4 as (n4 & Hn4 & Hall4).
        exists (new ++ n4)%list. split; [rewrite Hnew, Hn4, app_assoc; reflexivity |].
        rewrite peer_lines_app, (peer_lines_none _ Hall4), app_nil_r. exact Hchain.
      * assert (Hone : forall wx n4, log wx = (n4 ++ log w3)%list ->
                  Forall no_peer_line n4 ->
                  exists new, log wx = (new ++ log w)%list /\
                              peer_lines new = [lpc']).
        { intros wx n4 Hx Hall4.
          exists (n4 ++ EvPrint (MsgPeers lpc') :: n2)%list.
          split; [rewrite Hx, Hl3, Hn2, <- app_assoc; reflexivity |].
          rewrite peer_lines_app, (peer_lines_none _ Hall4). cbn.
          rewrite (peer_lines_none _ Hall2). reflexivity. }
        destruct E as [(u4 & w4 & E4 & E) | [(e & E4 & _) | [E4 _]]];
          destruct (Hsleep _ _ _ E4) as (n4 & Hn4 & Hall4);
          try (destruct (Hone _ _ Hn4 Hall4) as (new & Hnew & Hp);
               exists new; split; [exact Hnew |]; rewrite Hp; cbn; auto).
        destruct (IH _ _ _ _ E) as (new & Hnew & Hchain).
        destruct (Hone _ _ Hn4 Hall4) as (new1 & Hnew1 & Hp1).
        exists (new ++ new1)%list.
        split; [rewrite Hnew, Hnew1, app_assoc; reflexivity |].
        rewrite peer_lines_app, rev_app_distr, Hp1. cbn. auto.
    + (* interrupted at the line *)
      apply Hquiet. eapply appended_trans; [exact A2 |].
      destruct (negb (num_peers status =? lpc) && (0 <? num_peers status));
        [| discriminate E3].
      apply bind_inv in E3.
      destruct E3 as [(u & w3' & _ & C) | [(e' & E3 & _) | [E3 _]]];
        [discriminate C | |].
      * apply effect_cases in E3. destruct E3 as [[_ ->] | [s C]]; [| discriminate C].
        appended_steps.
      * apply effect_cases in E3. destruct E3 as [[C _] | [s C]]; discriminate C.
    + destruct (negb (num_peers status =? lpc) && (0 <? num_peers status));
        [| discriminate E3].
      apply bind_inv in E3.
      destruct E3 as [(u & w3' & _ & C) | [(e' & _ & C) | [E3 _]]];
        try discriminate C.
      apply effect_cases in E3. destruct E3 as [[C _] | [s C]]; discriminate C.
Qed.

End Peers.

(** X22: the wait for metadata of the command-line tool prints a peer line only
    when the count has changed and is positive: read in the order printed, each
    line carries a positive count that differs from the count of the line
    before it, the first from the initial [last_peer_count]. *)
Theorem peer_lines_report_changes
        (env : Env) (fuel : nat) (h : handle) (timeout start : Q)
        (last_peer_count : Z) (w : World) :
  exists new,
    log (snd (cli_wait_metadata env fuel h timeout start last_peer_count w))
      = (new ++ log w)%list /\
    each_differs last_peer_count (List.rev (peer_lines new)).
Proof.
  destruct (cli_wait_metadata env fuel h timeout start last_peer_count w)
    as [r w'] eqn:E.
  exact (cli_wait_peer_lines env fuel h timeout start last_peer_count w w' r E).
Qed.
